(** * A shallow embedding of the browser agent's control loop

    The development follows the Go packages of the repository:

    - [Go]: the fragment of the Go runtime and standard library the code
      relies on (byte strings, [map[string]any] values, [strings.*]);
    - [snapshot]: page-state compaction ([Collect], [filterAndRankElements],
      [scoreElement]);
    - [llm]: the two decision-service clients and their retry loops;
    - [agent]: the planner ([parseDecision], [extractJSON]) and the
      orchestrator ([Run] and its helpers).

    Go strings are byte sequences, so they are modelled by [string] (a list
    of 8-bit [ascii]); a string literal of this file that contains Cyrillic
    text denotes its UTF-8 bytes, exactly like the Go source. *)

From Stdlib Require Import ZArith String Ascii List Bool Lia.
From Stdlib Require Import Floats.SpecFloat.
From stdpp Require Import gmap strings list pretty.

Open Scope string_scope.
Open Scope Z_scope.
Open Scope list_scope.

(* ===================================================================== *)
(** * Go runtime and standard-library fragment                            *)
(* ===================================================================== *)

Module Go.

(** The double-quote byte (written by code, since no literal of this file
    contains it). *)
Definition dquote : ascii := "034"%char.
Definition backslash : ascii := "092"%char.
Definition newline : ascii := "010"%char.

(** [q s] is [s] with every apostrophe replaced by a double quote; it lets
    JSON texts be written legibly: [q "{'a':1}"]. *)
Fixpoint q (s : string) : string :=
  match s with
  | EmptyString => EmptyString
  | String c r => String (if Ascii.eqb c "'"%char then dquote else c) (q r)
  end.

(** [len(s)] *)
Definition len (s : string) : nat := String.length s.

(** [s[lo:hi]] for [lo <= hi <= len(s)] *)
Definition slice (s : string) (lo hi : nat) : string :=
  String.substring lo (hi - lo) s.

(** [strings.HasPrefix] *)
Definition HasPrefix (s prefix : string) : bool := String.prefix prefix s.

(** [strings.TrimPrefix] *)
Definition TrimPrefix (s prefix : string) : string :=
  if HasPrefix s prefix then slice s (len prefix) (len s) else s.

(** [strings.Contains] *)
Fixpoint Contains (s substr : string) : bool :=
  String.prefix substr s ||
  match s with
  | EmptyString => false
  | String _ r => Contains r substr
  end.

Definition string_rev (s : string) : string :=
  string_of_list_ascii (rev (list_ascii_of_string s)).

(** White space as [unicode.IsSpace] sees it, on the UTF-8 encoding:
    the six ASCII characters, U+0085 and U+00A0 (two bytes), and U+1680,
    U+2000..U+200A, U+2028, U+2029, U+202F, U+205F, U+3000 (three bytes). *)
Definition isAsciiSpace (c : ascii) : bool :=
  let n := N_of_ascii c in
  ((9 <=? n) && (n <=? 13) || (n =? 32))%N.

Definition isSpace2 (a b : ascii) : bool :=
  let x := N_of_ascii a in
  let y := N_of_ascii b in
  ((x =? 194) && ((y =? 133) || (y =? 160)))%N.

Definition isSpace3 (a b c : ascii) : bool :=
  let x := N_of_ascii a in
  let y := N_of_ascii b in
  let z := N_of_ascii c in
  ((x =? 225) && (y =? 154) && (z =? 128)
   || (x =? 226) && (y =? 128)
      && ((128 <=? z) && (z <=? 138) || (z =? 168) || (z =? 169) || (z =? 175))
   || (x =? 226) && (y =? 129) && (z =? 159)
   || (x =? 227) && (y =? 128) && (z =? 128))%N.

(** [strings.TrimLeftFunc(s, unicode.IsSpace)] *)
Fixpoint TrimLeftSpace (s : string) : string :=
  match s with
  | EmptyString => EmptyString
  | String a r1 =>
      if isAsciiSpace a then TrimLeftSpace r1
      else
        match r1 with
        | EmptyString => s
        | String b r2 =>
            if isSpace2 a b then TrimLeftSpace r2
            else
              match r2 with
              | EmptyString => s
              | String c r3 => if isSpace3 a b c then TrimLeftSpace r3 else s
              end
        end
  end.

(** The same from the right end, on the reversed bytes: the last rune is a
    white-space rune exactly when the last bytes are one of the encodings
    above, since each of them starts with its only non-continuation byte. *)
Fixpoint TrimLeftSpaceRev (s : string) : string :=
  match s with
  | EmptyString => EmptyString
  | String a r1 =>
      if isAsciiSpace a then TrimLeftSpaceRev r1
      else
        match r1 with
        | EmptyString => s
        | String b r2 =>
            if isSpace2 b a then TrimLeftSpaceRev r2
            else
              match r2 with
              | EmptyString => s
              | String c r3 => if isSpace3 c b a then TrimLeftSpaceRev r3 else s
              end
        end
  end.

(** [strings.TrimSpace] *)
Definition TrimSpace (s : string) : string :=
  string_rev (TrimLeftSpaceRev (string_rev (TrimLeftSpace s))).

(** [strings.Split(s, "\n")[0]]: the text before the first newline. *)
Fixpoint firstLine (s : string) : string :=
  match s with
  | EmptyString => EmptyString
  | String c r => if Ascii.eqb c newline then EmptyString else String c (firstLine r)
  end.

(** Go errors are modelled by their [Error()] text. *)
Definition error : Type := string.

(** Values of type [any] ([interface{}]) as the code inspects them: the
    dynamic types produced by [encoding/json] ([nil], [bool], [float64],
    [string], [[]any], [map[string]any]) and [int], which the orchestrator
    itself stores in tool inputs.  A [float64] is an IEEE-754 binary64 value
    in the Standard Library's [spec_float] representation. *)
#[warnings="-register-all"]
Inductive any : Type :=
| ANil
| ABool (b : bool)
| AFloat64 (f : spec_float)
| AInt (z : Z)
| AString (s : string)
| ASlice (l : list any)
| AMap (m : gmap string any).

(** Type assertions [v.(string)], [v.(float64)], [v.(int)], ... on the
    result of a map lookup ([None] is a missing key, asserting fails). *)
Definition asString (v : option any) : option string :=
  match v with Some (AString s) => Some s | _ => None end.
Definition asFloat64 (v : option any) : option spec_float :=
  match v with Some (AFloat64 f) => Some f | _ => None end.
Definition asInt (v : option any) : option Z :=
  match v with Some (AInt z) => Some z | _ => None end.
Definition asSlice (v : option any) : option (list any) :=
  match v with Some (ASlice l) => Some l | _ => None end.
Definition asMap (v : option any) : option (gmap string any) :=
  match v with Some (AMap m) => Some m | _ => None end.

(** [int(f)] for a [float64] [f]: truncation toward zero.  Outside the
    range of [int] (64 bits) and for NaN and infinities the Go specification
    leaves the result to the implementation; amd64 yields the minimal
    [int], which is what is modelled. *)
Definition minInt : Z := - 2 ^ 63.
Definition float64ToInt (f : spec_float) : Z :=
  match f with
  | S754_zero _ => 0
  | S754_finite s m e =>
      let mag := if 0 <=? e then Z.pos m * 2 ^ e else Z.pos m / 2 ^ (- e) in
      let v := if s then - mag else mag in
      if (minInt <=? v) && (v <? 2 ^ 63) then v else minInt
  | _ => minInt
  end.

(** [float64(z)] for an [int] [z]: rounding to nearest, ties to even. *)
Definition intToFloat64 (z : Z) : spec_float := binary_normalize 53 1024 z 0 false.

(** The [%d] verb and the [%v] verb on a [bool] and on an [[]int]. *)
Definition fmt_d (z : Z) : string := pretty z.
Definition fmt_bool (b : bool) : string := if b then "true" else "false".
Fixpoint fmt_ints_tail (l : list Z) : string :=
  match l with
  | [] => ""
  | z :: r => " " +:+ fmt_d z +:+ fmt_ints_tail r
  end.
Definition fmt_ints (l : list Z) : string :=
  match l with
  | [] => "[]"
  | z :: r => "[" +:+ fmt_d z +:+ fmt_ints_tail r +:+ "]"
  end.

(** What the standard library computes and this development does not
    re-implement: Unicode lower-casing ([strings.ToLower] needs the full
    case tables) and the [%v] rendering of a dynamic value. *)
Class Lib := {
  ToLower : string -> string;
  fmt_v : any -> string;
}.

(** The ASCII part of [strings.ToLower], used to run the model on ASCII
    inputs. *)
Definition asciiLower (c : ascii) : ascii :=
  let n := N_of_ascii c in
  if ((65 <=? n) && (n <=? 90))%N then ascii_of_N (n + 32) else c.
Fixpoint asciiToLower (s : string) : string :=
  match s with
  | EmptyString => EmptyString
  | String c r => String (asciiLower c) (asciiToLower r)
  end.

(** [strings.Join] *)
Fixpoint Join (elems : list string) (sep : string) : string :=
  match elems with
  | [] => ""
  | [s] => s
  | s :: rest => s +:+ sep +:+ Join rest sep
  end.

End Go.

(* ===================================================================== *)
(** * Package [snapshot]: page-state compaction                           *)
(* ===================================================================== *)

Module snapshot.
Import Go.

(** [Element] describes one interactive or content node. *)
Record Element := mkElement {
  Index : Z;
  Role : string;
  Text : string;
  Attr : string;
  BBox : string;
  Sel : string;
  ScrollInfo : string;
  Depth : Z;
  NodeId : string;
  ParentId : string;
}.

Record PageStatistics := mkPageStatistics {
  Links : Z;
  Iframes : Z;
  ScrollContainers : Z;
  Interactive : Z;
  TotalElements : Z;
}.

(** [Summary] is the compact view of the current page. *)
Record Summary := mkSummary {
  URL : string;
  Title : string;
  Visible : string;
  Elements : list Element;
  PageStats : PageStatistics;
}.

(** [filteredElems[i].Index = v] *)
Definition setIndex (v : Z) (el : Element) : Element :=
  mkElement v (Role el) (Text el) (Attr el) (BBox el) (Sel el)
            (ScrollInfo el) (Depth el) (NodeId el) (ParentId el).

(** The map literal [actionableRoles] of [Collect]: the keys mapped to
    [true]; a role outside the list reads as the zero value [false]. *)
Definition actionableRoleNames : list string :=
  [ "button"; "link"; "textbox"; "checkbox";
    "radio"; "radiogroup"; "combobox"; "listitem"; "menuitem";
    "tab"; "option"; "article"; "row";
    "list"; "listbox"; "treeitem"; "cell" ].

Definition actionableRoles (role : string) : bool :=
  existsb (String.eqb role) actionableRoleNames.

Section WithLib.
Context {lib : Lib}.

(** [scoreElement] calculates the relevance score of an element. *)
Definition scoreElement (el : Element) : Z :=
  let score := 0 in
  let textLower := ToLower (Text el) in
  let attrLower := ToLower (Attr el) in
  let score :=
    if negb (String.eqb (Role el) "") && negb (String.eqb (Role el) "generic")
       && negb (String.eqb (Role el) "presentation")
    then score + 5 else score in
  let score :=
    if (0 <? len (Text el))%nat then
      let score := score + 3 in
      if (10 <? len (Text el))%nat && (len (Text el) <? 200)%nat
      then score + 2 else score
    else score in
  let score := if Contains textLower "@" then score + 3 else score in
  let score := if Contains attrLower "data-testid" then score + 3 else score in
  let score := if Contains attrLower "aria-label" then score + 2 else score in
  let score :=
    if (len (Text el) =? 0)%nat && String.eqb (Role el) ""
    then score - 5 else score in
  let score := if (500 <? len (Text el))%nat then score - 3 else score in
  score.

Record scoredElement := mkScored {
  element : Element;
  score : Z;
}.

(** The loop appending every element with a positive score to [scored]. *)
Fixpoint scoreAll (elems : list Element) : list scoredElement :=
  match elems with
  | [] => []
  | el :: rest =>
      let s := scoreElement el in
      if 0 <? s then mkScored el s :: scoreAll rest else scoreAll rest
  end.

(** [if scored[i].score < scored[j].score { swap }] *)
Definition swapIfLess (scored : list scoredElement) (i j : nat)
  : list scoredElement :=
  match scored !! i, scored !! j with
  | Some a, Some b =>
      if score a <? score b then <[j := a]> (<[i := b]> scored) else scored
  | _, _ => scored
  end.

(** [for j := j0; j < len(scored); j++], with [n = len(scored) - j0]. *)
Fixpoint sortInner (n : nat) (i j : nat) (scored : list scoredElement)
  : list scoredElement :=
  match n with
  | O => scored
  | S n' => sortInner n' i (S j) (swapIfLess scored i j)
  end.

(** [for i := i0; i < len(scored)-1; i++], with [n = len(scored) - 1 - i0]. *)
Fixpoint sortOuter (n : nat) (i : nat) (scored : list scoredElement)
  : list scoredElement :=
  match n with
  | O => scored
  | S n' =>
      sortOuter n' (S i) (sortInner (length scored - S i) i (S i) scored)
  end.

Definition sortByScore (scored : list scoredElement) : list scoredElement :=
  sortOuter (length scored - 1) 0 scored.

(** [filterAndRankElements] filters and ranks elements by relevance.
    [maxCount] is a count (its only call site passes 50). *)
Definition filterAndRankElements (elems : list Element) (maxCount : nat)
  : list Element :=
  if (length elems <=? maxCount)%nat then elems
  else
    let scored := sortByScore (scoreAll elems) in
    map element (take maxCount scored).

(** The assignment loop [filteredElems[i].Index = i + 1], started at
    position [i]. *)
Fixpoint assignIndices (i : nat) (elems : list Element) : list Element :=
  match elems with
  | [] => []
  | el :: rest => setIndex (Z.of_nat i + 1) el :: assignIndices (S i) rest
  end.

Definition boolZ (b : bool) : Z := if b then 1 else 0.

(** [calculatePageStatistics] *)
Fixpoint countStats (elems : list Element) (stats : PageStatistics)
  : PageStatistics :=
  match elems with
  | [] => stats
  | el :: rest =>
      let roleLower := ToLower (Role el) in
      countStats rest
        (mkPageStatistics
           (Links stats
            + boolZ (String.eqb roleLower "link" || Contains (Attr el) "href:"))
           (Iframes stats
            + boolZ (String.eqb roleLower "document" || Contains (Attr el) "iframe"))
           (ScrollContainers stats + boolZ (negb (String.eqb (ScrollInfo el) "")))
           (Interactive stats
            + boolZ (negb (String.eqb (Role el) "")
                     && negb (String.eqb (Role el) "generic")
                     && negb (String.eqb (Role el) "presentation")))
           (TotalElements stats))
  end.

Definition calculatePageStatistics (elems : list Element) : PageStatistics :=
  countStats elems (mkPageStatistics 0 0 0 0 (Z.of_nat (length elems))).

(** The partition loop of [Collect]. *)
Definition isInteractive (el : Element) : bool :=
  actionableRoles (ToLower (Role el)).

Definition interactiveElems (elems : list Element) : list Element :=
  List.filter isInteractive elems.

Definition nonInteractiveElems (elems : list Element) : list Element :=
  List.filter (fun el => negb (isInteractive el)) elems.

(** The element list of [Collect], from the list [elems] that
    [collectInteractive] returned. *)
Definition collectElements (elems : list Element) : list Element :=
  let filteredNonInteractive := filterAndRankElements (nonInteractiveElems elems) 50 in
  let filteredElems := interactiveElems elems ++ filteredNonInteractive in
  assignIndices 0 filteredElems.

(** [Collect], as a function of what the page reports: its title, its URL,
    the inner text of its body and the elements found by
    [collectInteractive] (the errors of the four calls are discarded by the
    code, which always returns a [nil] error). *)
Definition Collect (title url text : string) (elems : list Element) : Summary :=
  let text := if (1200 <? len text)%nat then slice text 0 1200 else text in
  let filteredElems := collectElements elems in
  mkSummary url title (TrimSpace text) filteredElems
            (calculatePageStatistics filteredElems).

End WithLib.
End snapshot.

(* ===================================================================== *)
(** * Programs that talk to the outside world                             *)
(* ===================================================================== *)

(** A Go function that calls collaborators (the HTTP transport, the tool
    box, the planner, the clock) is a finite tree: it either returns, or
    performs one call [e] whose answer of type [X] decides how it goes on.
    The answers are not constrained, so a statement about a program holds
    for every behaviour of the collaborators. *)
Inductive Prog (E : Type -> Type) (A : Type) : Type :=
| Ret (a : A)
| Vis {X : Type} (e : E X) (k : X -> Prog E A).

Arguments Ret {E A} a.
Arguments Vis {E A X} e k.

Fixpoint bind {E A B} (p : Prog E A) (f : A -> Prog E B) : Prog E B :=
  match p with
  | Ret a => f a
  | Vis e k => Vis e (fun x => bind (k x) f)
  end.

(** One call and its answer. *)
Definition call {E X} (e : E X) : Prog E X := Vis e Ret.

#[global] Instance Prog_ret {E} : MRet (Prog E) := fun _ a => Ret a.
#[global] Instance Prog_bind {E} : MBind (Prog E) := fun _ _ f p => bind p f.

(** An observation is a call together with the answer it received; a run
    of a program is the list of its observations, in order, and the value
    it returns. *)
Inductive Obs (E : Type -> Type) : Type :=
| Observe {X : Type} (e : E X) (x : X).

Arguments Observe {E X} e x.

Fixpoint runs {E A} (p : Prog E A) (tr : list (Obs E)) (a : A) : Prop :=
  match p with
  | Ret a' => tr = [] /\ a = a'
  | Vis e k =>
      exists x tr', tr = Observe e x :: tr' /\ runs (k x) tr' a
  end.

(* ===================================================================== *)
(** * Package [llm]: the decision-service clients                         *)
(* ===================================================================== *)

Module llm.
Import Go.

Record Message := mkMessage {
  Role : string;
  Content : string;
}.

Record Tool := mkTool {
  Name : string;
  Description : string;
  InputSchema : gmap string any;
}.

Record Request := mkRequest {
  System : string;
  Messages : list Message;
  Tools : list Tool;
  Temperature : spec_float;
  MaxTokens : Z;
}.

Record Response := mkResponse {
  Text : string;
}.

(** Constants shared by the two clients ([maxRetries], [retryBaseDelay],
    [maxRequestSize], [maxTokens] and their [openAI...] twins have the
    same values).  Durations are in nanoseconds, as [time.Duration]. *)
Definition millisecond : Z := 1000000.
Definition maxRetries : Z := 3.
Definition retryBaseDelay : Z := 500 * millisecond.
Definition maxRequestSize : nat := Z.to_nat 200000.
Definition maxTokens : Z := 900.

Inductive Provider := Anthropic | OpenAI.

Record anthropicContent := mkContent {
  cType : string;
  cText : string;
}.

Record anthropicResponse := mkAnthropicResponse {
  arContent : list anthropicContent;
}.

Record anthropicError := mkAnthropicError {
  aeType : string;
  aeMessage : string;
}.

(** [func (e anthropicError) Error() string] *)
Definition anthropicError_Error (e : anthropicError) : string :=
  if negb (String.eqb (aeMessage e) "") then aeMessage e else aeType e.

Record openAIToolCall := mkToolCall {
  fnName : string;
  fnArguments : string;
}.

Record openAIChoice := mkChoice {
  chContent : string;
  chToolCalls : list openAIToolCall;
  chFinishReason : string;
}.

Record openAIErrorBody := mkErrorBody {
  oeMessage : string;
  oeType : string;
  oeCode : string;
}.

(** The fields of [openAIResponse] that [Generate] reads; [oaError] is the
    pointer field [Error], [None] being [nil]. *)
Record openAIResponse := mkOpenAIResponse {
  oaChoices : list openAIChoice;
  oaError : option openAIErrorBody;
}.

(** [encoding/json], as far as the clients use it: [json.Unmarshal] into
    each of the three response types yields the (possibly partly filled)
    value and the error, [None] being [nil]; decoding tool-call arguments
    yields the map when it succeeds; [json.Marshal] encodes a value. *)
Class Codec := {
  unmarshalAnthropicError : string -> anthropicError * option error;
  unmarshalAnthropicResponse : string -> anthropicResponse * option error;
  unmarshalOpenAIResponse : string -> openAIResponse * option error;
  unmarshalArguments : string -> option any;
  marshal : any -> string + error;
}.

(** What one attempt to reach the service yields, in the order in which
    the code checks for it: the payload fails to encode, the request
    cannot be built, [c.http.Do] fails, reading the body fails, or a
    status code and a body arrive. *)
Inductive Outcome :=
| MarshalFailed (err : error)
| NewRequestFailed (err : error)
| DoFailed (err : error)
| ReadFailed (err : error)
| Received (status : Z) (data : string).

(** The calls of [Generate]: the [select] between [ctx.Done()] and
    [time.After(delay)], answered by [Some (ctx.Err())] when the context
    ends first; and one HTTP exchange for the sanitized request, with the
    token budget placed in the payload. *)
Inductive E : Type -> Type :=
| Backoff (delay : Z) : E (option error)
| Exchange (p : Provider) (req : Request) (maxTok : Z) : E Outcome.

(** How a call of [Generate] ends: with a response, with an error, or in
    a run-time panic. *)
Inductive Returned :=
| Success (r : Response)
| Failure (err : error)
| Panicked (msg : string).

Definition nilDereference : string :=
  "runtime error: invalid memory address or nil pointer dereference".

(** The truncation of oversized message contents and system prompt. *)
Definition capContent (s : string) : string :=
  if (maxRequestSize <? len s)%nat
  then slice s 0 maxRequestSize +:+ "... [truncated]" else s.

Definition sanitize (req : Request) : Request :=
  mkRequest (capContent (System req))
            (map (fun m => mkMessage (Role m) (capContent (Content m))) (Messages req))
            (Tools req) (Temperature req) (MaxTokens req).

(** [retryBaseDelay * time.Duration(1<<uint(attempt-1))] *)
Definition backoffDelay (attempt : Z) : Z :=
  retryBaseDelay * Z.shiftl 1 (attempt - 1).

(** The head of each loop iteration: wait before every attempt but the
    first; [Some err] when the context ended during the wait. *)
Definition waitBeforeAttempt (attempt : Z) : Prog E (option error) :=
  if 0 <? attempt then call (Backoff (backoffDelay attempt)) else Ret None.

(** [errorMsg[:500] + "..."] for a long raw body *)
Definition capRaw (rawError : string) : string :=
  if (500 <? len rawError)%nat then slice rawError 0 500 +:+ "..." else rawError.

Definition fmt_err (err : option error) : string :=
  match err with Some e => e | None => "<nil>" end.

Section WithCodec.
Context {codec : Codec}.

(** The text returned by the Anthropic client: the concatenated [text]
    contents. *)
Fixpoint joinText (cs : list anthropicContent) : string :=
  match cs with
  | [] => ""
  | c :: rest =>
      if String.eqb (cType c) "text" then cText c +:+ joinText rest
      else joinText rest
  end.

(** The loop of [anthropicClient.Generate]; [n] is the number of
    iterations left, [maxRetries + 1 - attempt]. *)
Fixpoint anthropicLoop (n : nat) (attempt : Z) (req : Request)
    (lastErr : option error) : Prog E Returned :=
  match n with
  | O => Ret (Failure ("max retries exceeded: " +:+ fmt_err lastErr))
  | S n' =>
      waited ← waitBeforeAttempt attempt;
      match waited with
      | Some ctxErr => Ret (Failure ctxErr)
      | None =>
          out ← call (Exchange Anthropic req (Z.max (MaxTokens req) maxTokens));
          match out with
          | MarshalFailed err => Ret (Failure ("marshal payload: " +:+ err))
          | NewRequestFailed err => Ret (Failure ("create request: " +:+ err))
          | DoFailed err =>
              let lastErr := "http request: " +:+ err in
              if attempt <? maxRetries
              then anthropicLoop n' (attempt + 1) req (Some lastErr)
              else Ret (Failure lastErr)
          | ReadFailed err =>
              let lastErr := "read response: " +:+ err in
              if attempt <? maxRetries
              then anthropicLoop n' (attempt + 1) req (Some lastErr)
              else Ret (Failure lastErr)
          | Received status data =>
              if 400 <=? status then
                let '(apiErr, perr) := unmarshalAnthropicError data in
                let rawError := data in
                let lastErr :=
                  match perr with
                  | Some err =>
                      "anthropic " +:+ fmt_d status +:+ ": " +:+ capRaw rawError
                      +:+ " (raw, parse err: " +:+ err +:+ ")"
                  | None =>
                      let errorMsg := anthropicError_Error apiErr in
                      let errorMsg :=
                        if String.eqb errorMsg "" then capRaw rawError else errorMsg in
                      "anthropic " +:+ fmt_d status +:+ ": " +:+ errorMsg
                      +:+ " (type: " +:+ aeType apiErr +:+ ")"
                  end in
                if (status =? 400) && String.eqb (aeType apiErr) "invalid_request_error"
                   && Contains (aeMessage apiErr) "API usage limits"
                then Ret (Failure ("API usage limit reached: " +:+ aeMessage apiErr))
                else if ((status =? 429) || (500 <=? status)) && (attempt <? maxRetries)
                then anthropicLoop n' (attempt + 1) req (Some lastErr)
                else Ret (Failure lastErr)
              else
                let '(ar, perr) := unmarshalAnthropicResponse data in
                match perr with
                | Some err =>
                    let lastErr := "parse response: " +:+ err in
                    if attempt <? maxRetries
                    then anthropicLoop n' (attempt + 1) req (Some lastErr)
                    else Ret (Failure lastErr)
                | None => Ret (Success (mkResponse (joinText (arContent ar))))
                end
          end
      end
  end.

(** The part of [openAIClient.Generate] after a body with a status below
    400 was read. *)
Definition openAISuccess (data : string) : Returned :=
  let '(apiResp, perr) := unmarshalOpenAIResponse data in
  match perr with
  | Some err => Failure ("parse response: " +:+ err +:+ " (raw: " +:+ data +:+ ")")
  | None =>
      match oaChoices apiResp with
      | [] => Failure "no choices in response"
      | choice :: _ =>
          match chToolCalls choice with
          | toolCall :: _ =>
              let input :=
                if negb (String.eqb (fnArguments toolCall) "") then
                  match unmarshalArguments (fnArguments toolCall) with
                  | Some args => args
                  | None => AMap ∅
                  end
                else AMap ∅ in
              let toolResponse : gmap string any :=
                <["input" := input]> (<["action" := AString (fnName toolCall)]> ∅) in
              match marshal (AMap toolResponse) with
              | inr err => Failure ("marshal tool call: " +:+ err)
              | inl jsonBytes => Success (mkResponse jsonBytes)
              end
          | [] =>
              let text := chContent choice in
              if String.eqb text "" then Failure "empty response content"
              else Success (mkResponse text)
          end
      end
  end.

(** The loop of [openAIClient.Generate].  After an error status the code
    logs [apiResp.Error.Type], which dereferences the [nil] pointer when
    the body carried no error object. *)
Fixpoint openAILoop (n : nat) (attempt : Z) (req : Request)
    (lastErr : option error) : Prog E Returned :=
  match n with
  | O => Ret (Failure ("max retries exceeded: " +:+ fmt_err lastErr))
  | S n' =>
      waited ← waitBeforeAttempt attempt;
      match waited with
      | Some ctxErr => Ret (Failure ctxErr)
      | None =>
          out ← call (Exchange OpenAI req (Z.max (MaxTokens req) maxTokens));
          match out with
          | MarshalFailed err => Ret (Failure ("marshal payload: " +:+ err))
          | NewRequestFailed err => Ret (Failure ("create request: " +:+ err))
          | DoFailed err =>
              let lastErr := "http request: " +:+ err in
              if attempt <? maxRetries
              then openAILoop n' (attempt + 1) req (Some lastErr)
              else Ret (Failure lastErr)
          | ReadFailed err =>
              let lastErr := "read response: " +:+ err in
              if attempt <? maxRetries
              then openAILoop n' (attempt + 1) req (Some lastErr)
              else Ret (Failure lastErr)
          | Received status data =>
              if 400 <=? status then
                let '(apiResp, perr) := unmarshalOpenAIResponse data in
                let rawError := data in
                let lastErr :=
                  match perr, oaError apiResp with
                  | None, Some body =>
                      let errorMsg :=
                        if String.eqb (oeMessage body) "" then capRaw rawError
                        else oeMessage body in
                      "openai " +:+ fmt_d status +:+ ": " +:+ errorMsg
                      +:+ " (type: " +:+ oeType body +:+ ", code: " +:+ oeCode body +:+ ")"
                  | _, _ =>
                      "openai " +:+ fmt_d status +:+ ": " +:+ capRaw rawError
                      +:+ " (raw, parse err: " +:+ fmt_err perr +:+ ")"
                  end in
                match oaError apiResp with
                | None => Ret (Panicked nilDereference)
                | Some _ =>
                    if ((status =? 429) || (500 <=? status)) && (attempt <? maxRetries)
                    then openAILoop n' (attempt + 1) req (Some lastErr)
                    else Ret (Failure lastErr)
                end
              else Ret (openAISuccess data)
          end
      end
  end.

(** [Generate] of either client. *)
Definition Generate (p : Provider) (req : Request) : Prog E Returned :=
  if (length (Messages req) =? 0)%nat then Ret (Failure "no messages")
  else
    let req := sanitize req in
    match p with
    | Anthropic => anthropicLoop (Z.to_nat (maxRetries + 1)) 0 req None
    | OpenAI => openAILoop (Z.to_nat (maxRetries + 1)) 0 req None
    end.

End WithCodec.
End llm.

(* ===================================================================== *)
(** * Package [tools]: what the orchestrator sees of the tool box         *)
(* ===================================================================== *)

Module tools.
Import Go.

Record Tool := mkTool {
  Name : string;
  Description : string;
  InputSchema : gmap string any;
}.

Record Result := mkResult {
  Observation : string;
}.

End tools.

(* ===================================================================== *)
(** * Package [agent]: planner                                            *)
(* ===================================================================== *)

Module agent.
Import Go.

Record HistoryItem := mkHistoryItem {
  Action : string;
  Result : string;
  Selector : string;
  URL : string;
  hEvaluationPreviousGoal : string;
  hMemory : string;
  hNextGoal : string;
}.

Record Decision := mkDecision {
  ActionName : string;
  ActionInput : gmap string any;
  Finish : bool;
  Message : string;
  Thinking : string;
  EvaluationPreviousGoal : string;
  Memory : string;
  NextGoal : string;
}.

Record State := mkState {
  Task : string;
  Step : Z;
  History : list HistoryItem;
  Summary : snapshot.Summary;
  Tools : list tools.Tool;
}.

(** The anonymous struct [parsed] that [parseDecision] decodes into;
    [Input] has type [interface{}], [ANil] when the key is absent or
    [null]. *)
Record parsedDecision := mkParsed {
  pThinking : string;
  pEvaluationPreviousGoal : string;
  pMemory : string;
  pNextGoal : string;
  pAction : string;
  pInput : any;
}.

(** Library functions taken as given: [json.Unmarshal] into [parsed]
    (the decoded struct, or the error), and the two floating-point
    computations of the centre of a bounding box.  [bboxCenter] is the one
    of [Run], with [fmt.Sscanf] on the pattern of four floats:
    [Some (int(x + w/2), int(y + h/2))] when all four were scanned.
    [bboxSplitCenter] is the one of [extractCoordinates], which splits the
    text at commas: [None] unless there are four parts, [Some None] when
    the centre has a coordinate that is not positive, and
    [Some (Some (int(x + w/2), int(y + h/2)))] otherwise. *)
Class Env := {
  Unmarshal : string -> parsedDecision + error;
  bboxCenter : string -> option (Z * Z);
  bboxSplitCenter : string -> option (option (Z * Z));
}.

(** ** [removeJSONComments]

    The Go loop walks an index over the string and jumps over comments.
    Here the walk is a recursion on the remaining bytes, with the mode the
    index is in: ordinary text, inside a [//] comment (skipping up to, not
    including, the next newline) or inside a [/* */] comment.  In the
    block mode the Go inner loop stops at the last byte without looking
    at it ([i < len(jsonStr)-1]); the outer loop then writes that byte. *)
Inductive Mode := Code | LineComment | BlockComment.

Fixpoint stripComments (mode : Mode) (inStr esc : bool) (s : string) : string :=
  match s with
  | EmptyString => EmptyString
  | String ch rest =>
      match mode with
      | Code =>
          if esc then String ch (stripComments Code inStr false rest)
          else if Ascii.eqb ch backslash && inStr
          then String ch (stripComments Code inStr true rest)
          else if Ascii.eqb ch dquote
          then String ch (stripComments Code (negb inStr) esc rest)
          else
            match rest with
            | String next rest' =>
                if negb inStr && Ascii.eqb ch "/"%char && Ascii.eqb next "/"%char
                then stripComments LineComment inStr esc rest
                else if negb inStr && Ascii.eqb ch "/"%char && Ascii.eqb next "*"%char
                then stripComments BlockComment inStr esc rest'
                else String ch (stripComments Code inStr esc rest)
            | EmptyString => String ch EmptyString
            end
      | LineComment =>
          if Ascii.eqb ch newline
          then String ch (stripComments Code inStr esc rest)
          else stripComments LineComment inStr esc rest
      | BlockComment =>
          match rest with
          | String next rest' =>
              if Ascii.eqb ch "*"%char && Ascii.eqb next "/"%char
              then stripComments Code inStr esc rest'
              else stripComments BlockComment inStr esc rest
          | EmptyString => String ch EmptyString
          end
      end
  end.

Definition removeJSONComments (jsonStr : string) : string :=
  stripComments Code false false jsonStr.

(** ** [extractJSON]

    [scanJSON text rest i depth start inStr esc] is the loop of
    [extractJSON] at index [i], [rest] being [text[i:]]. *)
Fixpoint scanJSON (text rest : string) (i : nat) (depth : nat) (start : Z)
    (inStr esc : bool) : string + error :=
  match rest with
  | EmptyString => inr "json not found"
  | String ch rest' =>
      if esc then scanJSON text rest' (S i) depth start inStr false
      else if Ascii.eqb ch backslash
      then scanJSON text rest' (S i) depth start inStr (if inStr then true else esc)
      else if Ascii.eqb ch dquote
      then scanJSON text rest' (S i) depth start (negb inStr) esc
      else if Ascii.eqb ch "{"%char
      then
        if negb inStr
        then scanJSON text rest' (S i) (S depth)
                      (if (depth =? 0)%nat then Z.of_nat i else start) inStr esc
        else scanJSON text rest' (S i) depth start inStr esc
      else if Ascii.eqb ch "}"%char
      then
        if negb inStr && (0 <? depth)%nat
        then
          let depth := (depth - 1)%nat in
          if (depth =? 0)%nat && negb (start =? -1)
          then inl (removeJSONComments (slice text (Z.to_nat start) (i + 1)))
          else scanJSON text rest' (S i) depth start inStr esc
        else scanJSON text rest' (S i) depth start inStr esc
      else scanJSON text rest' (S i) depth start inStr esc
  end.

Definition extractJSON (text : string) : string + error :=
  scanJSON text text 0 0 (-1) false false.

Section Planner.
Context {lib : Lib} {env : Env}.

(** One arm of the chain that picks the message of a [finish] decision:
    [v, ok := actionInput[key].(string); ok && strings.TrimSpace(v) != ""],
    giving the trimmed string. *)
Definition nonBlank (v : option any) : option string :=
  match asString v with
  | Some s => if negb (String.eqb (TrimSpace s) "") then Some (TrimSpace s) else None
  | None => None
  end.

(** The message of a [finish] decision: the first of the keys [message],
    [result], [text] that holds a string which is not blank; the zero value
    otherwise. *)
Definition finishMessage (actionInput : gmap string any) : string :=
  match nonBlank (actionInput !! "message") with
  | Some msg => msg
  | None =>
      match nonBlank (actionInput !! "result") with
      | Some m => m
      | None =>
          match nonBlank (actionInput !! "text") with
          | Some t => t
          | None => ""
          end
      end
  end.

(** The action name and input map after the [multi_tool_use.parallel]
    unwrapping: [None] when the first action cannot be extracted. *)
Definition actionAndInput (parsed : parsedDecision)
  : option (string * gmap string any) :=
  if String.eqb (pAction parsed) "multi_tool_use.parallel" then
    match asSlice (Some (pInput parsed)) with
    | Some (AMap firstAction :: _) =>
        match asString (firstAction !! "name") with
        | Some name => Some (name, delete "name" firstAction)
        | None => None
        end
    | _ => None
    end
  else
    match pInput parsed with
    | AMap inputMap => Some (pAction parsed, inputMap)
    | _ => Some (pAction parsed, ∅)
    end.

(** The action name of the decision: trimmed, and without the prefix
    [functions.] that some services add. *)
Definition cleanActionName (action : string) : string :=
  let actionName := TrimSpace action in
  if HasPrefix actionName "functions."
  then TrimPrefix actionName "functions." else actionName.

Definition finishError (actionInput : gmap string any) : error :=
  "finish action requires 'message' field in input (got: "
  +:+ fmt_v (AMap actionInput) +:+ ")".

Definition parseDecision (text : string) : Decision + error :=
  match extractJSON text with
  | inr err => inr err
  | inl jsonStr =>
      match Unmarshal jsonStr with
      | inr err => inr ("llm json parse: " +:+ err)
      | inl parsed =>
          match actionAndInput parsed with
          | None =>
              inr "multi_tool_use.parallel: failed to extract first action from input array"
          | Some (action, actionInput) =>
              let actionName := cleanActionName action in
              let dec :=
                mkDecision actionName actionInput false ""
                           (TrimSpace (pThinking parsed))
                           (TrimSpace (pEvaluationPreviousGoal parsed))
                           (TrimSpace (pMemory parsed))
                           (TrimSpace (pNextGoal parsed)) in
              if String.eqb (ActionName dec) "finish" then
                let message := finishMessage actionInput in
                if String.eqb message ""
                then inr (finishError actionInput)
                else inl (mkDecision (ActionName dec) (ActionInput dec) true message
                                     (Thinking dec) (EvaluationPreviousGoal dec)
                                     (Memory dec) (NextGoal dec))
              else inl dec
          end
      end
  end.

(** The earlier revision of [parseDecision] (before the reasoning fields
    were introduced), from the decoded struct on: [Input] is a
    [map[string]any] there.  It took the first of the three keys that holds
    a string, empty or not, and replaced an empty message by a default
    text instead of rejecting the decision. *)
Definition earlierDecision (action : string) (input : gmap string any) : Decision :=
  let actionName := TrimSpace action in
  if String.eqb actionName "finish" then
    let message :=
      match asString (input !! "message") with
      | Some msg => msg
      | None =>
          match asString (input !! "result") with
          | Some m => m
          | None =>
              match asString (input !! "text") with
              | Some t => t
              | None => ""
              end
          end
      end in
    let message :=
      if String.eqb message "" then "task finished: " +:+ fmt_v (AMap input)
      else message in
    mkDecision actionName input true message "" "" "" ""
  else mkDecision actionName input false "" "" "" "" "".

End Planner.

(* --------------------------------------------------------------------- *)
(** ** Package [agent]: orchestrator                                      *)
(* --------------------------------------------------------------------- *)

Record Config := mkConfig {
  MaxSteps : Z;
}.

Record TaskMemory := mkTaskMemory {
  ScrollCount : Z;
  LastSnapshot : option snapshot.Summary;
  LastAction : string;
}.

Record errorRecord := mkErrorRecord {
  action : string;
  errorType : string;
  step : Z;
  timestamp : Z;
}.

(** The mutable fields of [Orchestrator]; the planner, the tool box and
    the logger are collaborators, reached through calls.  [memory] is a
    pointer, [None] being [nil]. *)
Record Orchestrator := mkOrchestrator {
  cfg : Config;
  errorHistory : list errorRecord;
  memory : option TaskMemory;
}.

Definition millisecond : Z := 1000000.
Definition second : Z := 1000 * millisecond.

(** The calls of [Run]: [ctx.Err()]; [o.tools.WaitForStableDOM]; the
    snapshot closure [snap] under a deadline (its error is discarded by
    every caller); [o.tools.SetSnapshot]; [o.tools.Describe];
    [o.planner.Next]; [o.tools.Invoke]; [time.Sleep]; [fmt.Printf];
    [time.Now].  Calls of the logger are left out: they neither return
    anything nor change what [Run] does. *)
Inductive E : Type -> Type :=
| CtxErr : E (option error)
| WaitForStableDOM (timeout : Z) : E (option error)
| Snap (deadline : Z) : E snapshot.Summary
| SetSnapshot (summary : snapshot.Summary) : E unit
| Describe : E (list tools.Tool)
| Next (state : State) : E (Decision + error)
| Invoke (name : string) (input : gmap string any) : E (tools.Result + error)
| Sleep (d : Z) : E unit
| Print (s : string) : E unit
| Now : E Z.

(** How one iteration of the step loop ends: [continue] (or falling off
    the end of the body) with the updated state, or [return err]. *)
Inductive Flow :=
| Continue (o : Orchestrator) (history : list HistoryItem)
| Return (err : option error).

(** [last] *)
Definition last (items : list HistoryItem) (n : nat) : list HistoryItem :=
  if (length items <=? n)%nat then items else drop (length items - n) items.

(** [truncate] *)
Definition truncate (action s : string) : string :=
  if String.eqb action "read_page" then "(read_page data omitted)"
  else if (160 <? len s)%nat then slice s 0 160 +:+ "..."
  else s.

(** [contains]; [containsFrom n i] is the loop at index [i] with [n]
    iterations left. *)
Fixpoint containsFrom (n : nat) (i : nat) (s substr : string) : bool :=
  match n with
  | O => false
  | S n' =>
      if String.eqb (slice s i (i + len substr)) substr then true
      else containsFrom n' (S i) s substr
  end.

Definition contains (s substr : string) : bool :=
  if (len s <? len substr)%nat then false
  else containsFrom (len s - len substr + 1) 0 s substr.

(** The loops of [tooManyRepeats] over the last [limit] items, walking
    [history] from its end: [revHistory] is the reversed history, [n] the
    number of iterations left. *)
Fixpoint countRecent (n : nat) (revHistory : list HistoryItem)
    (same : HistoryItem -> bool) : Z :=
  match n, revHistory with
  | S n', it :: rest => (if same it then 1 else 0) + countRecent n' rest same
  | _, _ => 0
  end.

Fixpoint allRecent (n : nat) (revHistory : list HistoryItem) (action : string)
  : bool :=
  match n with
  | O => true
  | S n' =>
      match revHistory with
      | it :: rest =>
          if negb (String.eqb (Action it) action) then false
          else allRecent n' rest action
      | [] => false (* not reached: [len(history) >= limit] *)
      end
  end.

Definition stringOr (v : option string) (zero : string) : string :=
  match v with Some s => s | None => zero end.

Definition tooManyRepeats (history : list HistoryItem) (action : string)
    (input : gmap string any) (limit : Z) : bool :=
  if limit <=? 0 then false
  else if Z.of_nat (length history) <? limit then false
  else if String.eqb action "click_selector" then
    let selector := stringOr (asString (input !! "selector")) "" in
    let currentURL := stringOr (asString (input !! "_url")) "" in
    let count :=
      countRecent (Z.to_nat limit) (rev history)
        (fun it => String.eqb (Action it) action
                   && String.eqb (Selector it) selector
                   && String.eqb (URL it) currentURL) in
    limit <=? count
  else if String.eqb action "click_by_index" then
    let currentURL := stringOr (asString (input !! "_url")) "" in
    let count :=
      countRecent (Z.to_nat limit) (rev history)
        (fun it => String.eqb (Action it) action
                   && String.eqb (URL it) currentURL) in
    limit <=? count
  else allRecent (Z.to_nat limit) (rev history) action.

(** The repeat limit that [Run] computes for a decision (the chain of
    [if] statements before the call of [tooManyRepeats]). *)
Definition repeatLimit (history : list HistoryItem) (actionName : string) : Z :=
  let limit := 3 in
  let limit := if String.eqb actionName "scroll_page" then 20 else limit in
  let limit := if String.eqb actionName "click_by_index" then 2 else limit in
  let limit := if String.eqb actionName "wait_for_lazy_list" then 2 else limit in
  let limit := if String.eqb actionName "navigate" then 2 else limit in
  let limit := if String.eqb actionName "wait" then 3 else limit in
  let limit := if String.eqb actionName "request_user_input" then 999 else limit in
  let limit :=
    if String.eqb actionName "save_state"
    then
      if existsb (fun item => String.eqb (Action item) "save_state"
                              && Contains (Result item) "saved") history
      then 1 else limit
    else limit in
  limit.

(** The map literal [destructiveActions] of [requiresConfirmation]. *)
Definition destructiveActions : gmap string bool :=
  <["click_selector" := false]>
    (<["click_role" := false]>
       (<["click_text" := false]>
          (<["fill" := false]> ∅))).

Definition destructiveKeywords : list string :=
  [ "delete"; "удалить";
    "payment"; "оплатить"; "купить"; "buy"; "purchase"; "checkout"; "pay";
    "remove"; "очистить"; "clear";
    "submit"; "отправить"; "подтвердить";
    "confirm"; "подтвердить";
    "cancel"; "отменить";
    "archive"; "архив";
    "unsubscribe"; "отписаться" ].

Section Orchestration.
Context {lib : Lib} {env : Env}.

(** [requiresConfirmation] checks if an action is destructive and requires
    user confirmation.  A missing key of a [map[string]bool] reads as
    [false]. *)
Definition requiresConfirmation (action : string) (input : gmap string any)
  : bool :=
  if negb (default false (destructiveActions !! action)) then false
  else
    let textToCheck := "" in
    let textToCheck := stringOr (asString (input !! "selector")) textToCheck in
    let textToCheck := stringOr (asString (input !! "role")) textToCheck in
    let textToCheck := stringOr (asString (input !! "text")) textToCheck in
    let textToCheck := stringOr (asString (input !! "label")) textToCheck in
    let textToCheckLower := ToLower textToCheck in
    existsb (fun keyword => contains textToCheckLower (ToLower keyword))
            destructiveKeywords.

Definition confirmationPrompt (action : string) (input : gmap string any)
  : string :=
  let actionDesc := "Action: " +:+ action in
  let actionDesc :=
    match asString (input !! "selector") with
    | Some selector => actionDesc +:+ " on selector: " +:+ selector
    | None => actionDesc
    end in
  let actionDesc :=
    match asString (input !! "role") with
    | Some role => actionDesc +:+ " on role: " +:+ role
    | None => actionDesc
    end in
  let actionDesc :=
    match asString (input !! "text") with
    | Some text => actionDesc +:+ " on text: " +:+ text
    | None => actionDesc
    end in
  "⚠️  SECURITY CHECK: This action may be destructive:" +:+ String newline ""
  +:+ actionDesc +:+ String newline (String newline "")
  +:+ "Do you want to proceed? (yes/no): ".

(** [requestConfirmation] asks the user for confirmation before a
    destructive action. *)
Definition requestConfirmation (action : string) (input : gmap string any)
  : Prog E (bool * option error) :=
  r ← call (Invoke "request_user_input"
                   (<["prompt" := AString (confirmationPrompt action input)]> ∅));
  match r with
  | inr err => Ret (false, Some err)
  | inl result =>
      let response := tools.Observation result in
      if contains response "yes" || contains response "да" || contains response "y"
      then Ret (true, None)
      else Ret (false, None)
  end.

(** [analyzeError] categorizes the error type for adaptive handling. *)
Definition analyzeError (err : error) : string :=
  let errStr := ToLower err in
  if Contains errStr "badstring" || Contains errStr "unsupported token"
     || Contains errStr "parsing selector"
  then "selector_parse_error"
  else if Contains errStr "timeout" then "timeout"
  else if Contains errStr "not found" || Contains errStr "not visible"
  then "element_not_found"
  else if Contains errStr "not clickable" || Contains errStr "not interactable"
  then "not_interactable"
  else if Contains errStr "stale" || Contains errStr "detached"
  then "stale_element"
  else if Contains errStr "network" || Contains errStr "connection"
  then "network_error"
  else "unknown".

(** [updateMemory] *)
Definition updateMemory (o : Orchestrator) (action : string)
    (summary : snapshot.Summary) : Orchestrator :=
  let m := match memory o with Some m => m | None => mkTaskMemory 0 None "" end in
  let count :=
    if String.eqb action "scroll_page" then ScrollCount m + 1 else ScrollCount m in
  mkOrchestrator (cfg o) (errorHistory o)
                 (Some (mkTaskMemory count (Some summary) action)).

(** [snapshotChanged]; the third test of the Go function ([len(new) >
    len(old)]) can only hold when the second already returned. *)
Fixpoint textsDiffer (n : nat) (old new : list snapshot.Element) : bool :=
  match n, old, new with
  | S n', a :: old', b :: new' =>
      if negb (String.eqb (snapshot.Text a) (snapshot.Text b)) then true
      else textsDiffer n' old' new'
  | _, _, _ => false
  end.

Definition snapshotChanged (old new : snapshot.Summary) : bool :=
  if negb (String.eqb (snapshot.URL old) (snapshot.URL new)) then true
  else if negb (length (snapshot.Elements old) =? length (snapshot.Elements new))%nat
  then true
  else if (length (snapshot.Elements old) <? length (snapshot.Elements new))%nat
  then true
  else
    textsDiffer (Nat.min 10 (Nat.min (length (snapshot.Elements old))
                                     (length (snapshot.Elements new))))
                (snapshot.Elements old) (snapshot.Elements new).

End Orchestration.

Section RunLoop.
Context {lib : Lib} {env : Env}.

Definition item (action result selector url : string) : HistoryItem :=
  mkHistoryItem action result selector url "" "" "".

(** The pattern [if action == "click_selector" { if sel, ok :=
    input["selector"].(string); ok { item.Selector = sel } }], which
    fills the [Selector] of a history item. *)
Definition selectorFor (action : string) (input : gmap string any) : string :=
  if String.eqb action "click_selector"
  then stringOr (asString (input !! "selector")) ""
  else "".

Definition withAction (dec : Decision) (name : string)
    (input : gmap string any) : Decision :=
  mkDecision name input (Finish dec) (Message dec) (Thinking dec)
             (EvaluationPreviousGoal dec) (Memory dec) (NextGoal dec).

Definition isClick (action : string) : bool :=
  String.eqb action "click_role" || String.eqb action "click_selector"
  || String.eqb action "click_text".

(** *** Captcha pages: click decisions are replaced by a request to the
    user. *)
Definition mentionsRobot (s : string) : bool :=
  Contains s "робот" || Contains s "robot"
  || Contains s "не робот" || Contains s "not a robot".

Definition isCaptchaPage (summary : snapshot.Summary) : bool :=
  Contains (snapshot.URL summary) "captcha"
  || Contains (snapshot.URL summary) "showcaptcha"
  || Contains (ToLower (snapshot.Title summary)) "робот"
  || Contains (ToLower (snapshot.Title summary)) "robot".

Definition findByIndex (elements : list snapshot.Element) (indexInt : Z)
  : option snapshot.Element :=
  List.find (fun el => snapshot.Index el =? indexInt) elements.

Definition isCaptchaElement (summary : snapshot.Summary) (dec : Decision) : bool :=
  if String.eqb (ActionName dec) "click_by_index" then
    match asFloat64 (ActionInput dec !! "index") with
    | Some index =>
        match findByIndex (snapshot.Elements summary) (float64ToInt index) with
        | Some el => mentionsRobot (ToLower (snapshot.Text el))
        | None => false
        end
    | None => false
    end
  else
    match asString (ActionInput dec !! "name") with
    | Some name => mentionsRobot (ToLower name)
    | None =>
        match asString (ActionInput dec !! "text") with
        | Some text => mentionsRobot (ToLower text)
        | None => false
        end
    end.

Definition blockCaptcha (summary : snapshot.Summary) (dec : Decision) : Decision :=
  if isCaptchaPage summary
     && (String.eqb (ActionName dec) "click_by_index"
         || String.eqb (ActionName dec) "click_role"
         || String.eqb (ActionName dec) "click_selector"
         || String.eqb (ActionName dec) "click_text")
  then
    if isCaptchaElement summary dec || isCaptchaPage summary
    then
      withAction dec "request_user_input"
        (<["message" :=
             AString "Please solve the captcha in the browser and type 'done' when finished"]> ∅)
    else dec
  else dec.

(** *** Index resolution: [click_by_index] becomes a concrete action.

    The result is the decision to invoke and [foundElement], or the error
    that [Run] returns. *)
Definition hasValidSelector (el : snapshot.Element) : bool :=
  negb (String.eqb (snapshot.Sel el) "")
  && negb (HasPrefix (snapshot.Sel el) ("[role=" +:+ String dquote ""))
  && Contains (snapshot.Sel el) "[".

Definition resolveClickByIndex (summary : snapshot.Summary) (dec : Decision)
  : (Decision * option snapshot.Element) + error :=
  if String.eqb (ActionName dec) "click_by_index" then
    let index :=
      match asFloat64 (ActionInput dec !! "index") with
      | Some index => Some index
      | None =>
          match asInt (ActionInput dec !! "index") with
          | Some indexInt => Some (intToFloat64 indexInt)
          | None => None
          end
      end in
    match index with
    | None => inr "invalid index type for click_by_index"
    | Some index =>
        let indexInt := float64ToInt index in
        match findByIndex (snapshot.Elements summary) indexInt with
        | None =>
            inr ("element with index " +:+ fmt_d indexInt
                 +:+ " not found in current snapshot. Available indices: "
                 +:+ fmt_ints (map snapshot.Index (snapshot.Elements summary))
                 +:+ ". Use an index from the current snapshot")
        | Some foundElement =>
            if String.eqb (snapshot.BBox foundElement) ""
               && negb (String.eqb (snapshot.Role foundElement) "")
               && negb (String.eqb (snapshot.Role foundElement) "generic")
               && negb (String.eqb (snapshot.Role foundElement) "none")
            then
              if hasValidSelector foundElement
              then
                inl (withAction dec "click_selector"
                       (<["selector" := AString (snapshot.Sel foundElement)]> ∅),
                     Some foundElement)
              else
                let input : gmap string any :=
                  <["role" := AString (snapshot.Role foundElement)]> ∅ in
                let input :=
                  if negb (String.eqb (snapshot.Text foundElement) "")
                  then <["name" := AString (snapshot.Text foundElement)]> input
                  else input in
                inl (withAction dec "click_role" input, Some foundElement)
            else
              inl (withAction dec "click_selector"
                     (<["selector" := AString (snapshot.Sel foundElement)]> ∅),
                   Some foundElement)
        end
    end
  else inl (dec, None).

(** *** Recovery strategies *)

Record alternativeAction := mkAlternative {
  altAction : string;
  altInput : gmap string any;
}.

(** The first element whose selector is, or contains, [selector]. *)
Definition findBySelector (selector : string) (summary : snapshot.Summary)
  : option snapshot.Element :=
  List.find (fun elem => String.eqb (snapshot.Sel elem) selector
                         || Contains (snapshot.Sel elem) selector)
            (snapshot.Elements summary).

Definition findTextBySelector (selector : string) (summary : snapshot.Summary)
  : string :=
  match findBySelector selector summary with
  | Some elem => snapshot.Text elem
  | None => ""
  end.

Definition extractRoleFromSelector (selector : string)
    (summary : snapshot.Summary) : string :=
  match findBySelector selector summary with
  | Some elem => snapshot.Role elem
  | None => ""
  end.

Definition findSelectorByText (text : string) (summary : snapshot.Summary)
  : string :=
  let textLower := ToLower text in
  match List.find (fun elem => Contains (ToLower (snapshot.Text elem)) textLower)
                  (snapshot.Elements summary) with
  | Some elem => snapshot.Sel elem
  | None => ""
  end.

Definition findTextByRole (role : string) (summary : snapshot.Summary) : string :=
  match List.find (fun elem => String.eqb (snapshot.Role elem) role)
                  (snapshot.Elements summary) with
  | Some elem => snapshot.Text elem
  | None => ""
  end.

(** [generateAlternatives] creates alternative actions from the decision
    and the snapshot. *)
Definition generateAlternatives (dec : Decision) (summary : snapshot.Summary)
  : list alternativeAction :=
  if String.eqb (ActionName dec) "click_selector" then
    match asString (ActionInput dec !! "selector") with
    | Some selector =>
        let text := findTextBySelector selector summary in
        let alternatives :=
          if negb (String.eqb text "")
          then [mkAlternative "click_text" (<["text" := AString text]> ∅)]
          else [] in
        let role := extractRoleFromSelector selector summary in
        if negb (String.eqb role "")
        then alternatives
             ++ [mkAlternative "click_role"
                   (<["label" := AString text]> (<["role" := AString role]> ∅))]
        else alternatives
    | None => []
    end
  else if String.eqb (ActionName dec) "click_role" then
    match asString (ActionInput dec !! "role") with
    | Some role =>
        let label := stringOr (asString (ActionInput dec !! "label")) "" in
        let text :=
          if String.eqb label "" then findTextByRole role summary else label in
        let alternatives :=
          [mkAlternative "click_selector"
             (<["selector" := AString ("[role='" +:+ role +:+ "']")]> ∅)] in
        if negb (String.eqb text "")
        then alternatives
             ++ [mkAlternative "click_text" (<["text" := AString text]> ∅)]
        else alternatives
    | None => []
    end
  else if String.eqb (ActionName dec) "click_text" then
    match asString (ActionInput dec !! "text") with
    | Some text =>
        let alternatives :=
          map (fun role =>
                 mkAlternative "click_role"
                   (<["label" := AString text]> (<["role" := AString role]> ∅)))
              ["button"; "link"; "menuitem"] in
        let sel := findSelectorByText text summary in
        if negb (String.eqb sel "")
        then alternatives
             ++ [mkAlternative "click_selector" (<["selector" := AString sel]> ∅)]
        else alternatives
    | None => []
    end
  else [].

(** [findSimilarElement]; the zero [alternativeAction] has an empty
    action. *)
Fixpoint findSimilarIn (searchText : string) (elements : list snapshot.Element)
  : alternativeAction :=
  match elements with
  | [] => mkAlternative "" ∅
  | elem :: rest =>
      let elemText := ToLower (snapshot.Text elem) in
      if negb (String.eqb searchText "") && Contains elemText searchText then
        if negb (String.eqb (snapshot.Sel elem) "")
        then mkAlternative "click_selector"
               (<["selector" := AString (snapshot.Sel elem)]> ∅)
        else if negb (String.eqb (snapshot.Role elem) "")
        then mkAlternative "click_role"
               (<["label" := AString (snapshot.Text elem)]>
                  (<["role" := AString (snapshot.Role elem)]> ∅))
        else findSimilarIn searchText rest
      else findSimilarIn searchText rest
  end.

Definition findSimilarElement (dec : Decision) (summary : snapshot.Summary)
  : alternativeAction :=
  let searchText := "" in
  let searchText :=
    match asString (ActionInput dec !! "text") with
    | Some text => ToLower text
    | None => searchText
    end in
  let searchText :=
    match asString (ActionInput dec !! "selector") with
    | Some selector => ToLower selector
    | None => searchText
    end in
  findSimilarIn searchText (snapshot.Elements summary).

(** [scrollToElement]: [None] is the [nil] error. *)
Definition scrollToElement (summary : snapshot.Summary) : Prog E (option error) :=
  if existsb (fun elem => negb (String.eqb (snapshot.Sel elem) "")
                          && negb (String.eqb (snapshot.BBox elem) ""))
             (snapshot.Elements summary)
  then
    r ← call (Invoke "scroll_page"
                     (<["distance" := AInt 300]> (<["direction" := AString "down"]> ∅)));
    match r with
    | inl _ => Ret None
    | inr err => Ret (Some err)
    end
  else Ret (Some "element bbox not found").

(** [hasRecentRetries]: the records of [action] among the last five. *)
Definition hasRecentRetries (o : Orchestrator) (action : string)
    (maxRetries : Z) : bool :=
  let recent :=
    drop (length (errorHistory o) - 5) (errorHistory o) in
  maxRetries
  <=? Z.of_nat (length (List.filter
                          (fun rec => String.eqb (agent.action rec) action) recent)).

(** [extractCoordinates]: the centre of the bounding box of the first
    element with the selector whose box splits into four parts; [None]
    stands for the zero coordinates and for a centre that fails the test
    [coords.x > 0 && coords.y > 0] of the caller. *)
Fixpoint centerOfFirst (selector : string) (elements : list snapshot.Element)
  : option (Z * Z) :=
  match elements with
  | [] => None
  | el :: rest =>
      if String.eqb (snapshot.Sel el) selector || Contains (snapshot.Sel el) selector
      then
        match bboxSplitCenter (snapshot.BBox el) with
        | Some center => center
        | None => centerOfFirst selector rest
        end
      else centerOfFirst selector rest
  end.

Definition extractCoordinates (dec : Decision) (summary : snapshot.Summary)
  : option (Z * Z) :=
  if negb (String.eqb (ActionName dec) "click_selector") then None
  else
    match asString (ActionInput dec !! "selector") with
    | Some selector => centerOfFirst selector (snapshot.Elements summary)
    | None => None
    end.

(** [extractTextFromSelector] *)
Definition extractTextFromSelector (dec : Decision) (summary : snapshot.Summary)
  : string :=
  if negb (String.eqb (ActionName dec) "click_selector") then ""
  else
    match asString (ActionInput dec !! "selector") with
    | Some selector =>
        match findBySelector selector summary with
        | Some el =>
            let text := firstLine (snapshot.Text el) in
            let text := if (50 <? len text)%nat then slice text 0 50 else text in
            TrimSpace text
        | None => ""
        end
    | None => ""
    end.

(** The loop over the alternatives: the first that is invoked without
    error. *)
Fixpoint tryAlternatives (alternatives : list alternativeAction)
  : Prog E (option (string * tools.Result)) :=
  match alternatives with
  | [] => Ret None
  | alt :: rest =>
      r ← call (Invoke (altAction alt) (altInput alt));
      match r with
      | inl altResult => Ret (Some (altAction alt, altResult))
      | inr _ => tryAlternatives rest
      end
  end.

(** One invocation as a strategy: [Some] when it succeeds. *)
Definition attempt (name : string) (input : gmap string any)
  : Prog E (option (string * tools.Result)) :=
  r ← call (Invoke name input);
  match r with
  | inl result => Ret (Some (name, result))
  | inr _ => Ret None
  end.

(** Strategies are tried in order; [orElse p q] runs [q] when [p] did not
    succeed. *)
Definition orElse (p q : Prog E (option (string * tools.Result)))
  : Prog E (option (string * tools.Result)) :=
  r ← p;
  match r with
  | Some success => Ret (Some success)
  | None => q
  end.

Definition nothing : Prog E (option (string * tools.Result)) := Ret None.

(** [handleErrorAdaptively] tries the recovery strategies that fit the
    type of the last recorded error. *)
Definition handleErrorAdaptively (o : Orchestrator) (dec : Decision)
    (summary : snapshot.Summary) : Prog E (string * tools.Result * bool) :=
  if hasRecentRetries o (ActionName dec) 2 then Ret ("", tools.mkResult "", false)
  else
    (* [o.errorHistory[len(o.errorHistory)-1].errorType]; the history is
       not empty here, [Run] has just recorded the error *)
    let errorType :=
      match errorHistory o !! (length (errorHistory o) - 1)%nat with
      | Some rec => agent.errorType rec
      | None => ""
      end in
    let waitRetry :=
      if String.eqb errorType "timeout" || String.eqb errorType "stale_element"
      then
        _ ← call (Sleep (2 * second));
        _ ← call (Snap (3 * second));
        attempt (ActionName dec) (ActionInput dec)
      else nothing in
    let alternatives :=
      if isClick (ActionName dec) then
        orElse (tryAlternatives (generateAlternatives dec summary))
          (orElse
             (if String.eqb (ActionName dec) "click_selector" then
                let text := extractTextFromSelector dec summary in
                if negb (String.eqb text "")
                then attempt "click_text_fuzzy" (<["text" := AString text]> ∅)
                else nothing
              else nothing)
             (match extractCoordinates dec summary with
              | Some (x, y) =>
                  attempt "click_coordinates"
                          (<["y" := AInt y]> (<["x" := AInt x]> ∅))
              | None => nothing
              end))
      else nothing in
    let similar :=
      if String.eqb errorType "element_not_found" then
        let similar := findSimilarElement dec summary in
        if negb (String.eqb (altAction similar) "")
        then attempt (altAction similar) (altInput similar)
        else nothing
      else nothing in
    let scroll :=
      if String.eqb errorType "not_interactable" then
        scrolled ← scrollToElement summary;
        match scrolled with
        | None =>
            _ ← call (Sleep (1 * second));
            attempt (ActionName dec) (ActionInput dec)
        | Some _ => nothing
        end
      else nothing in
    r ← orElse waitRetry (orElse alternatives (orElse similar scroll));
    match r with
    | Some (recoveredAction, recoveredResult) =>
        Ret (recoveredAction, recoveredResult, true)
    | None => Ret ("", tools.mkResult "", false)
    end.

(** *** After a failed invocation *)

(** The history item recorded when a timeout is followed by a changed
    page. *)
Definition timeoutChangedItem (dec : Decision) (freshSummary : snapshot.Summary)
    (urlChanged elementsChanged : bool) : HistoryItem :=
  item (ActionName dec)
       ("timeout but page changed - user likely completed action manually (URL changed: "
        +:+ fmt_bool urlChanged +:+ ", elements changed: "
        +:+ fmt_bool elementsChanged +:+ ")")
       "" (snapshot.URL freshSummary).

(** [o.errorHistory = append(...)], keeping the last 10 records. *)
Definition recordError (o : Orchestrator) (rec : errorRecord) : Orchestrator :=
  let errs := errorHistory o ++ [rec] in
  let errs := if (10 <? length errs)%nat then drop (length errs - 10) errs else errs in
  mkOrchestrator (cfg o) errs (memory o).

(** What follows the re-observation after a failed invocation: the
    timeout special case, then the recovery strategies. *)
Definition afterReobserve (o : Orchestrator) (history : list HistoryItem)
    (step : Z) (summary : snapshot.Summary) (dec : Decision) (err : error)
    (errorType : string) (freshSummary : snapshot.Summary) : Prog E Flow :=
  let urlChanged :=
    negb (String.eqb (snapshot.URL summary) (snapshot.URL freshSummary)) in
  let elementsChanged :=
    negb (length (snapshot.Elements freshSummary)
          =? length (snapshot.Elements summary))%nat in
  if String.eqb errorType "timeout" && (urlChanged || elementsChanged)
  then
    Ret (Continue o (history ++ [timeoutChangedItem dec freshSummary
                                   urlChanged elementsChanged]))
  else
    recovered ← handleErrorAdaptively o dec freshSummary;
    let '(recoveredAction, recoveredResult, success) := recovered in
    if success : bool then
      let history :=
        history ++ [item recoveredAction (tools.Observation recoveredResult)
                         (selectorFor recoveredAction (ActionInput dec))
                         (snapshot.URL freshSummary)] in
      _ ← call (Print ("agent[" +:+ fmt_d step +:+ "]: " +:+ recoveredAction
                       +:+ " (recovered) -> "
                       +:+ truncate recoveredAction (tools.Observation recoveredResult)
                       +:+ String newline ""));
      _ ← call (Sleep (800 * millisecond));
      summaryAfter ← call (Snap (3 * second));
      let o := updateMemory o recoveredAction summaryAfter in
      _ ← (if isClick recoveredAction then call (Sleep (1 * second)) else Ret tt);
      Ret (Continue o history)
    else
      let history :=
        history ++ [item (ActionName dec) ("error: " +:+ err)
                         (selectorFor (ActionName dec) (ActionInput dec))
                         (snapshot.URL summary)] in
      _ ← call (Sleep (500 * millisecond));
      _ ← call (Snap (3 * second));
      Ret (Continue o history).

(** The branch [if err != nil] that classifies the error of the
    invocation (after the coordinate fallback, if any, failed too). *)
Definition onToolError (o : Orchestrator) (history : list HistoryItem)
    (step : Z) (summary : snapshot.Summary) (dec : Decision) (err : error)
  : Prog E Flow :=
  let errorType := analyzeError err in
  if String.eqb errorType "selector_parse_error" then
    let history :=
      history ++ [item (ActionName dec) "error: invalid selector"
                       (selectorFor (ActionName dec) (ActionInput dec))
                       (snapshot.URL summary)] in
    _ ← call (Sleep (500 * millisecond));
    _ ← call (Snap (3 * second));
    Ret (Continue o history)
  else
    now ← call Now;
    let o := recordError o (mkErrorRecord (ActionName dec) errorType step now) in
    _ ← call (Sleep (500 * millisecond));
    freshSummary ← call (Snap (3 * second));
    afterReobserve o history step summary dec err errorType freshSummary.

(** *** After a successful invocation *)
Definition onToolSuccess (o : Orchestrator) (history : list HistoryItem)
    (step : Z) (summary : snapshot.Summary) (dec : Decision)
    (result : tools.Result) : Prog E Flow :=
  let observation := tools.Observation result in
  _ ← call (Print ("agent[" +:+ fmt_d step +:+ "]: " +:+ ActionName dec +:+ " -> "
                   +:+ truncate (ActionName dec) observation +:+ String newline ""));
  (* what the rest of the body does when the user-confirmation shortcut
     is not taken *)
  let record : Prog E Flow :=
    let result0 :=
      if String.eqb (ActionName dec) "request_user_input"
         && negb (Contains observation "User confirmed:")
      then "Received data from user: " +:+ observation
      else observation in
    let result1 :=
      if String.eqb (ActionName dec) "fill_by_index" then
        match asString (ActionInput dec !! "text") with
        | Some text =>
            if negb (String.eqb text "")
            then observation +:+ " (text: " +:+ text +:+ ")" else result0
        | None => result0
        end
      else result0 in
    let history :=
      history ++ [mkHistoryItem (ActionName dec) result1
                    (selectorFor (ActionName dec) (ActionInput dec))
                    (snapshot.URL summary)
                    (EvaluationPreviousGoal dec) (Memory dec) (NextGoal dec)] in
    observed ←
      (if String.eqb (ActionName dec) "scroll_page" then
         _ ← call (Sleep (1000 * millisecond));
         stableSummary ← call (Snap (3 * second));
         if negb (snapshotChanged summary stableSummary)
         then
           Ret (history ++ [item "observation"
                  "no changes after scroll - content may be in iframe, use collect_texts or read_page"
                  "" ""],
                stableSummary)
         else Ret (history, stableSummary)
       else
         let waitTime :=
           if String.eqb (ActionName dec) "fill_by_index"
              || String.eqb (ActionName dec) "fill"
           then 3000 * millisecond else 800 * millisecond in
         _ ← call (Sleep waitTime);
         summaryAfter ← call (Snap (3 * second));
         Ret (history, summaryAfter));
    let '(history, summary) := observed in
    let o := updateMemory o (ActionName dec) summary in
    _ ← (if isClick (ActionName dec) then call (Sleep (1 * second)) else Ret tt);
    Ret (Continue o history) in
  if String.eqb (ActionName dec) "request_user_input"
     && Contains observation "User confirmed: action completed"
  then
    _ ← call (Sleep (1 * second));
    freshSummaryAfter ← call (Snap (3 * second));
    let urlChanged :=
      negb (String.eqb (snapshot.URL summary) (snapshot.URL freshSummaryAfter)) in
    let elementsChanged :=
      negb (length (snapshot.Elements summary)
            =? length (snapshot.Elements freshSummaryAfter))%nat in
    if urlChanged || elementsChanged
    then
      Ret (Continue o
             (history ++ [item (ActionName dec)
                ("User confirmed action and page changed (URL changed: "
                 +:+ fmt_bool urlChanged +:+ ", elements changed: "
                 +:+ fmt_bool elementsChanged +:+ ") - continuing with new state")
                "" (snapshot.URL freshSummaryAfter)]))
    else record
  else record.

(** *** Invocation, with the coordinate fallback of a failed
    [click_selector] that came from an element with a bounding box. *)
Definition invokeStage (o : Orchestrator) (history : list HistoryItem)
    (step : Z) (summary : snapshot.Summary) (dec : Decision)
    (foundElement : option snapshot.Element) : Prog E Flow :=
  r ← call (Invoke (ActionName dec) (ActionInput dec));
  match r with
  | inl result => onToolSuccess o history step summary dec result
  | inr err =>
      let fallback : option (Z * Z) :=
        if String.eqb (ActionName dec) "click_selector" then
          match foundElement with
          | Some el =>
              if negb (String.eqb (snapshot.BBox el) "")
              then bboxCenter (snapshot.BBox el) else None
          | None => None
          end
        else None in
      match fallback with
      | Some (centerX, centerY) =>
          c ← call (Invoke "click_coordinates"
                           (<["y" := AInt centerY]> (<["x" := AInt centerX]> ∅)));
          match c with
          | inl coordResult => onToolSuccess o history step summary dec coordResult
          | inr _ => onToolError o history step summary dec err
          end
      | None => onToolError o history step summary dec err
      end
  end.

(** *** From the confirmation gate to the invocation *)
Definition confirmStage (o : Orchestrator) (history : list HistoryItem)
    (step : Z) (summary : snapshot.Summary) (dec : Decision) : Prog E Flow :=
  let proceed : Prog E Flow :=
    let o := updateMemory o (ActionName dec) summary in
    let dec := blockCaptcha summary dec in
    match resolveClickByIndex summary dec with
    | inr err => Ret (Return (Some err))
    | inl (dec, foundElement) => invokeStage o history step summary dec foundElement
    end in
  if requiresConfirmation (ActionName dec) (ActionInput dec) then
    answer ← requestConfirmation (ActionName dec) (ActionInput dec);
    match answer with
    | (_, Some err) => Ret (Return (Some ("confirmation request failed: " +:+ err)))
    | (confirmed, None) =>
        if negb confirmed then
          let history :=
            history ++ [item (ActionName dec) "cancelled by user"
                             (selectorFor (ActionName dec) (ActionInput dec))
                             (snapshot.URL summary)] in
          _ ← call (Print ("⚠️  Action cancelled by user: " +:+ ActionName dec
                           +:+ String newline ""));
          Ret (Continue o history)
        else proceed
    end
  else proceed.

(** *** What [Run] does with the decision of the planner *)
Definition finishLine (dec : Decision) : string :=
  if negb (String.eqb (Message dec) "") then "✅ " +:+ Message dec +:+ String newline ""
  else if negb (String.eqb (Thinking dec) "")
  then "✅ " +:+ Thinking dec +:+ String newline ""
  else if negb (String.eqb (Memory dec) "")
  then "✅ Task completed. " +:+ Memory dec +:+ String newline ""
  else "✅ Task completed" +:+ String newline "".

Definition afterDecision (o : Orchestrator) (history : list HistoryItem)
    (step : Z) (summary : snapshot.Summary) (dec : Decision) : Prog E Flow :=
  if Finish dec then
    _ ← call (Print (finishLine dec));
    Ret (Return None)
  else
    let limit := repeatLimit history (ActionName dec) in
    let checkInput := <["_url" := AString (snapshot.URL summary)]> (ActionInput dec) in
    if tooManyRepeats history (ActionName dec) checkInput limit
    then
      Ret (Return (Some ("too many repeated actions: " +:+ ActionName dec
                         +:+ " (limit: " +:+ fmt_d limit
                         +:+ "). Try a different action")))
    else confirmStage o history step summary dec.

(** *** One iteration of the loop of [Run] *)
Definition runStep (task : string) (o : Orchestrator)
    (history : list HistoryItem) (step : Z) : Prog E Flow :=
  ctxErr ← call CtxErr;
  match ctxErr with
  | Some err => Ret (Return (Some err))
  | None =>
      _ ← (match history !! (length history - 1)%nat with
           | Some it =>
               if String.eqb (Action it) "navigate"
               then _ ← call (WaitForStableDOM (5 * second)); Ret tt
               else Ret tt
           | None => Ret tt
           end);
      summary ← call (Snap (5 * second));
      _ ← call (SetSnapshot summary);
      described ← call Describe;
      let state := mkState task step (last history 5) summary described in
      planned ← call (Next state);
      match planned with
      | inr err => Ret (Return (Some ("planner: " +:+ err)))
      | inl dec => afterDecision o history step summary dec
      end
  end.

(** [Run]: [n] is the number of iterations left. *)
Fixpoint runLoop (n : nat) (task : string) (o : Orchestrator)
    (history : list HistoryItem) (step : Z) : Prog E (option error) :=
  match n with
  | O => Ret (Some "step limit reached")
  | S n' =>
      flow ← runStep task o history step;
      match flow with
      | Return err => Ret err
      | Continue o history => runLoop n' task o history (step + 1)
      end
  end.

Definition Run (o : Orchestrator) (task : string) : Prog E (option error) :=
  runLoop (Z.to_nat (MaxSteps (cfg o))) task o [] 1.

End RunLoop.
(* --------------------------------------------------------------------- *)
(** ** Package [agent]: what the planner shows of the history             *)
(* --------------------------------------------------------------------- *)

(** The body of the loop of [formatHistory]: the block of one history
    item, [stepNum] being [i + 1]. *)
Definition historyBlock (stepNum : Z) (item : HistoryItem) : string :=
  let content : list string := [] in
  let content :=
    if negb (String.eqb (hEvaluationPreviousGoal item) "")
    then content ++ ["Evaluation of Previous Step: " +:+ hEvaluationPreviousGoal item]
    else content in
  let content :=
    if negb (String.eqb (hMemory item) "")
    then content ++ ["Memory: " +:+ hMemory item] else content in
  let content :=
    if negb (String.eqb (hNextGoal item) "")
    then content ++ ["Next Goal: " +:+ hNextGoal item] else content in
  let actionResult := "Action Results: " +:+ Action item +:+ " -> " +:+ Result item in
  let actionResult :=
    if negb (String.eqb (Selector item) "")
    then actionResult +:+ " (selector: " +:+ Selector item +:+ ")"
    else actionResult in
  let actionResult :=
    if negb (String.eqb (URL item) "")
    then actionResult +:+ " (URL: " +:+ URL item +:+ ")"
    else actionResult in
  let content := content ++ [actionResult] in
  "<step_" +:+ fmt_d stepNum +:+ ">:" +:+ String newline ""
  +:+ Join content (String newline "") +:+ String newline ""
  +:+ "</step_" +:+ fmt_d stepNum +:+ ">".

(** The loop [for i, item := range history], started at index [i]. *)
Fixpoint historyBlocks (i : nat) (history : list HistoryItem) : list string :=
  match history with
  | [] => []
  | item :: rest => historyBlock (Z.of_nat i + 1) item :: historyBlocks (S i) rest
  end.

(** [formatHistory] *)
Definition formatHistory (history : list HistoryItem) : string :=
  if (length history =? 0)%nat then ""
  else Join (historyBlocks 0 history) (String newline (String newline "")).

End agent.

(* ===================================================================== *)
(** * Concrete inputs on which the model is run                           *)
(* ===================================================================== *)

Module Examples.
Import Go.

(** A library instance for ASCII inputs: lower-casing of the ASCII
    letters, and the [%v] rendering of scalar values, of the empty slice
    and of the empty map (the contents of other slices and maps are
    elided). *)
Definition asciiLib : Lib := {|
  ToLower := asciiToLower;
  fmt_v v :=
    match v with
    | ANil => "<nil>"
    | ABool b => fmt_bool b
    | AInt z => fmt_d z
    | AString s => s
    | AFloat64 _ => "<float64>"
    | ASlice [] => "[]"
    | ASlice _ => "[...]"
    | AMap m => match map_to_list m with [] => "map[]" | _ => "map[...]" end
    end;
|}.

Definition element (index : Z) (role text bbox sel : string) : snapshot.Element :=
  snapshot.mkElement index role text "" bbox sel "" 0 "" "".

(** A button without text and without attributes, and a paragraph. *)
Definition bareButton : snapshot.Element := element 0 "button" "" "" "".
Definition paragraph : snapshot.Element := element 0 "paragraph" "some text" "" "".

(** Two decision texts, and a decoder that knows exactly these two
    documents (any other text is a syntax error for it); a bounding box
    whose centre is known. *)
Definition finishDone : string :=
  q "{'action':'finish','input':{'message':'done'}}".
Definition finishEmpty : string :=
  q "{'action':'finish','input':{}}".

Definition scriptedEnv : agent.Env := {|
  agent.Unmarshal js :=
    if String.eqb js finishDone
    then inl (agent.mkParsed "" "" "" "" "finish"
                (AMap (<["message" := AString "done"]> ∅)))
    else if String.eqb js finishEmpty
    then inl (agent.mkParsed "" "" "" "" "finish" (AMap ∅))
    else inr "invalid character";
  agent.bboxCenter bbox :=
    if String.eqb bbox "10,20,100,40" then Some (60, 40) else None;
  agent.bboxSplitCenter bbox :=
    if String.eqb bbox "10,20,100,40" then Some (Some (60, 40)) else None;
|}.

Definition decision (name : string) (input : gmap string any) : agent.Decision :=
  agent.mkDecision name input false "" "" "" "" "".

Definition page (url title : string) (elements : list snapshot.Element)
  : snapshot.Summary :=
  snapshot.mkSummary url title "" elements (snapshot.mkPageStatistics 0 0 0 0 0).

Definition orchestrator : agent.Orchestrator :=
  agent.mkOrchestrator (agent.mkConfig 40) []
                       (Some (agent.mkTaskMemory 0 None "")).

(** A click on a [Delete] label, on a shopping-cart page. *)
Definition deleteClick : agent.Decision :=
  decision "click_text" (<["text" := AString "Delete"]> ∅).
Definition cartPage : snapshot.Summary := page "https://shop.example/cart" "Cart" [].

(** Three failed clicks on the same selector of the same page, and the
    decision to click it once more. *)
Definition failedClick : agent.HistoryItem :=
  agent.mkHistoryItem "click_selector" "error: element is not visible" "#go"
                      "https://shop.example/cart" "" "" "".
Definition clickGo : agent.Decision :=
  decision "click_selector" (<["selector" := AString "#go"]> ∅).

(** The element and the decision of the index-resolution scenario: a
    [Submit] button with index 3 and selector [#submit]; the record as
    written has no bounding box, [submitButtonAt] gives it one. *)
Definition submitButton : snapshot.Element := element 3 "button" "Submit" "" "#submit".
Definition submitButtonAt (bbox : string) : snapshot.Element :=
  element 3 "button" "Submit" bbox "#submit".
Definition clickThird : agent.Decision :=
  decision "click_by_index" (<["index" := AFloat64 (intToFloat64 3)]> ∅).
Definition formPage (elements : list snapshot.Element) : snapshot.Summary :=
  page "https://shop.example/form" "Form" elements.

Definition nextPage : snapshot.Summary := page "https://shop.example/done" "Done" [].

(** A codec that decodes one good Anthropic body and refuses every other
    text, and a request with one message. *)
Definition goodBody : string := q "{'content':[{'type':'text','text':'ok'}]}".
Definition scriptedCodec : llm.Codec := {|
  llm.unmarshalAnthropicError _ :=
    (llm.mkAnthropicError "" "", Some "invalid character '<' looking for beginning of value");
  llm.unmarshalAnthropicResponse data :=
    if String.eqb data goodBody
    then (llm.mkAnthropicResponse [llm.mkContent "text" "ok"], None)
    else (llm.mkAnthropicResponse [],
          Some "invalid character '<' looking for beginning of value");
  llm.unmarshalOpenAIResponse _ :=
    (llm.mkOpenAIResponse [] None,
     Some "invalid character '<' looking for beginning of value");
  llm.unmarshalArguments _ := None;
  llm.marshal _ := inr "unsupported value";
|}.

Definition request : llm.Request :=
  llm.mkRequest "system" [llm.mkMessage "user" "STATE"] [] (S754_zero false) 400.

(** A first answer with status 200 whose body is an HTML page, then a
    good answer. *)
Definition htmlThenGood : list (Obs llm.E) :=
  [ Observe (llm.Exchange llm.Anthropic (llm.sanitize request) 900)
            (llm.Received 200 "<html>");
    Observe (llm.Backoff (500 * llm.millisecond)) None;
    Observe (llm.Exchange llm.Anthropic (llm.sanitize request) 900)
            (llm.Received 200 goodBody) ].

End Examples.

(* ===================================================================== *)
(** * Notions used in the statements                                      *)
(* ===================================================================== *)

Section StringNotions.
Import Go agent.

(** [occurs substr s]: [substr] occurs somewhere in [s]. *)
Definition occurs (substr s : string) : Prop :=
  exists pre post, s = pre +:+ substr +:+ post.

(** A reply is affirmative, in the words of the code, when it contains
    one of the three markers. *)
Definition affirmative (reply : string) : Prop :=
  occurs "yes" reply \/ occurs "да" reply \/ occurs "y" reply.

Definition affirmativeb (reply : string) : bool :=
  contains reply "yes" || contains reply "да" || contains reply "y".

(** The item that [Run] records for a decision carries the selector
    [selectorFor]; the items below are "identical" to the decision in this
    sense. *)
Definition sameTuple (dec : Decision) (summary : snapshot.Summary)
    (it : HistoryItem) : Prop :=
  Action it = ActionName dec
  /\ Selector it = selectorFor (ActionName dec) (ActionInput dec)
  /\ URL it = snapshot.URL summary.

(** None of the keys [message], [result], [text] of the input carries a
    non-empty string. *)
Definition noMessage (actionInput : gmap string Go.any) : Prop :=
  forall (key s : string),
    In key ["message"; "result"; "text"] ->
    actionInput !! key = Some (Go.AString s) -> s = "".

End StringNotions.

(** The body of a string literal, up to its closing quote: bytes other
    than the quote and the backslash, and backslash escapes. *)
Inductive StrBody : string -> Prop :=
| sb_nil : StrBody ""
| sb_char (c : ascii) (s : string) :
    c <> Go.dquote -> c <> Go.backslash -> StrBody s -> StrBody (String c s)
| sb_esc (c : ascii) (s : string) :
    StrBody s -> StrBody (String Go.backslash (String c s)).

(** Text in which string literals are closed and braces nest outside
    them; [plain c] says which bytes may stand outside string literals. *)
Inductive Balanced (plain : ascii -> Prop) : string -> Prop :=
| bal_nil : Balanced plain ""
| bal_char (c : ascii) (s : string) :
    c <> Go.dquote -> c <> "{"%char -> c <> "}"%char -> plain c ->
    Balanced plain s -> Balanced plain (String c s)
| bal_str (body s : string) :
    StrBody body -> Balanced plain s ->
    Balanced plain (String Go.dquote (body +:+ String Go.dquote s))
| bal_obj (inner s : string) :
    Balanced plain inner -> Balanced plain s ->
    Balanced plain (String "{"%char (inner +:+ String "}"%char s)).

(** An object: a brace, balanced text, the matching brace. *)
Definition Object (plain : ascii -> Prop) (obj : string) : Prop :=
  exists inner, obj = String "{"%char (inner +:+ "}") /\ Balanced plain inner.

(** Prose around the object: closed string literals, and no opening
    brace outside them. *)
Inductive Prose : string -> Prop :=
| pr_nil : Prose ""
| pr_char (c : ascii) (s : string) :
    c <> Go.dquote -> c <> "{"%char -> Prose s -> Prose (String c s)
| pr_str (body s : string) :
    StrBody body -> Prose s ->
    Prose (String Go.dquote (body +:+ String Go.dquote s)).

Definition anyByte (c : ascii) : Prop := True.
Definition notSlash (c : ascii) : Prop := c <> "/"%char.

(** The outcomes of the attempts of a run, and the delays it waited. *)
Definition outcomeOf (o : Obs llm.E) : option llm.Outcome :=
  match o with
  | Observe e x =>
      match e in llm.E X return X -> option llm.Outcome with
      | llm.Exchange _ _ _ => fun out => Some out
      | llm.Backoff _ => fun _ => None
      end x
  end.

Definition waitOf (o : Obs llm.E) : option Z :=
  match o with
  | Observe e _ =>
      match e with
      | llm.Backoff delay => Some delay
      | llm.Exchange _ _ _ => None
      end
  end.

(** How a wait ended: [None] when the delay elapsed, the error of the
    context when the context ended first. *)
Definition waitEndOf (o : Obs llm.E) : option (option Go.error) :=
  match o with
  | Observe e x =>
      match e in llm.E X return X -> option (option Go.error) with
      | llm.Backoff _ => fun ended => Some ended
      | llm.Exchange _ _ _ => fun _ => None
      end x
  end.

Definition outcomes (tr : list (Obs llm.E)) : list llm.Outcome := omap outcomeOf tr.
Definition waits (tr : list (Obs llm.E)) : list Z := omap waitOf tr.
Definition waitEnds (tr : list (Obs llm.E)) : list (option Go.error) :=
  omap waitEndOf tr.

(** A network error, HTTP 429 or HTTP 5xx. *)
Definition transient (out : llm.Outcome) : Prop :=
  match out with
  | llm.DoFailed _ | llm.ReadFailed _ => True
  | llm.Received status _ => status = 429 \/ 500 <= status
  | _ => False
  end.

(** Any other 4xx status. *)
Definition clientError (out : llm.Outcome) : Prop :=
  match out with
  | llm.Received status _ => 400 <= status < 500 /\ status <> 429
  | _ => False
  end.

Section RetryNotions.
Context {codec : llm.Codec}.

(** An answer below 400 whose body the Anthropic client cannot decode. *)
Definition undecodable (p : llm.Provider) (out : llm.Outcome) : Prop :=
  match p, out with
  | llm.Anthropic, llm.Received status data =>
      status < 400 /\ snd (llm.unmarshalAnthropicResponse data) <> None
  | _, _ => False
  end.

(** The body of an error answer to the OpenAI client carried an error
    object (nothing is asked of the Anthropic client). *)
Definition errorObjectRead (p : llm.Provider) (out : llm.Outcome) : Prop :=
  match p, out with
  | llm.OpenAI, llm.Received _ data =>
      llm.oaError (fst (llm.unmarshalOpenAIResponse data)) <> None
  | _, _ => True
  end.

(** The claim as it is stated: an attempt is followed by another one only
    if it ended in a network error, HTTP 429 or HTTP 5xx. *)
Definition retriesOnlyTransient (p : llm.Provider) : Prop :=
  forall (req : llm.Request) (tr : list (Obs llm.E)) (r : llm.Returned),
    runs (llm.Generate p req) tr r ->
    forall (k : nat) (out : llm.Outcome),
      outcomes tr !! k = Some out -> is_Some (outcomes tr !! S k) ->
      transient out.

End RetryNotions.

Section RunNotions.
Import llm.
Context {codec : Codec}.

(** The outcomes after which the clients ask again. *)
Definition retried (p : Provider) (out : Outcome) : Prop :=
  transient out \/ undecodable p out.

(** What holds when attempt number [attempt] was the last one of a run
    that returned [r]: if its outcome is one that is retried, no attempt
    was left; and after any other 4xx status the call returned an error.
    (Both under the proviso on the error object, for the OpenAI client.) *)
Definition stops (p : Provider) (attempt : Z) (out : Outcome) (r : Returned)
  : Prop :=
  (retried p out -> errorObjectRead p out -> attempt = maxRetries)
  /\ (clientError out -> errorObjectRead p out -> exists err, r = Failure err).

(** The shape of a run of the loop from the exchange of attempt number
    [attempt] on: the attempt is the last one; or it is retried and the
    context ends during the wait; or it is retried, the wait elapses and
    the next attempt follows. *)
Inductive Attempts (p : Provider) (req : Request)
  : Z -> list (Obs E) -> Returned -> Prop :=
| at_stop (attempt : Z) (out : Outcome) (r : Returned) :
    0 <= attempt <= maxRetries ->
    stops p attempt out r ->
    Attempts p req attempt
      [Observe (Exchange p req (Z.max (MaxTokens req) maxTokens)) out] r
| at_cancel (attempt : Z) (out : Outcome) (ctxErr : Go.error) :
    0 <= attempt < maxRetries ->
    retried p out ->
    Attempts p req attempt
      [Observe (Exchange p req (Z.max (MaxTokens req) maxTokens)) out;
       Observe (Backoff (backoffDelay (attempt + 1))) (Some ctxErr)]
      (Failure ctxErr)
| at_retry (attempt : Z) (out : Outcome) (tr : list (Obs E)) (r : Returned) :
    0 <= attempt < maxRetries ->
    retried p out ->
    Attempts p req (attempt + 1) tr r ->
    Attempts p req attempt
      (Observe (Exchange p req (Z.max (MaxTokens req) maxTokens)) out
         :: Observe (Backoff (backoffDelay (attempt + 1))) None :: tr)
      r.

(** The runs of the loop entered with attempt number [attempt]: before
    any attempt but the first comes the wait. *)
Definition LoopRuns (p : Provider) (req : Request) (attempt : Z)
    (tr : list (Obs E)) (r : Returned) : Prop :=
  (maxRetries < attempt /\ tr = [])
  \/ (attempt = 0 /\ Attempts p req 0 tr r)
  \/ (0 < attempt /\ exists ctxErr,
        tr = [Observe (Backoff (backoffDelay attempt)) (Some ctxErr)]
        /\ r = Failure ctxErr)
  \/ (0 < attempt /\ exists tr',
        tr = Observe (Backoff (backoffDelay attempt)) None :: tr'
        /\ Attempts p req attempt tr' r).

End RunNotions.


(** Further inputs on which the properties below are exercised. *)
Module Scenarios.
Import Go.

(** A decision text in the [multi_tool_use.parallel] form with two
    actions, and a decoder that knows this document only. *)
Definition parallelText : string :=
  q "{'action':'multi_tool_use.parallel','input':[{'name':'functions.fill','text':'x'},{'name':'click_text','text':'Go'}]}".

Definition parallelFirst : gmap string any :=
  <["text" := AString "x"]> (<["name" := AString "functions.fill"]> ∅).

Definition parallelEnv : agent.Env := {|
  agent.Unmarshal js :=
    if String.eqb js parallelText
    then inl (agent.mkParsed "" "" "" "" "multi_tool_use.parallel"
                (ASlice [ AMap parallelFirst;
                          AMap (<["text" := AString "Go"]>
                                  (<["name" := AString "click_text"]> ∅)) ]))
    else inr "invalid character";
  agent.bboxCenter _ := None;
  agent.bboxSplitCenter _ := None;
|}.

(** A task of two steps: the planner clicks the element of index 3 of a
    form, a [Submit] button with a bounding box, and then finishes. *)
Definition formWithSubmit : snapshot.Summary :=
  Examples.formPage [Examples.submitButtonAt "10,20,100,40"].

Definition clickedItem : agent.HistoryItem :=
  agent.mkHistoryItem "click_selector" "clicked" "#submit"
                      "https://shop.example/form" "" "" "".

Definition finishDecision : agent.Decision :=
  agent.mkDecision "finish" ∅ true "done" "" "" "" "".

Definition clickStep : list (Obs agent.E) :=
  [ Observe agent.CtxErr None;
    Observe (agent.Snap (5 * agent.second)) formWithSubmit;
    Observe (agent.SetSnapshot formWithSubmit) tt;
    Observe agent.Describe [];
    Observe (agent.Next (agent.mkState "submit the form" 1 [] formWithSubmit []))
            (inl Examples.clickThird);
    Observe (agent.Invoke "click_selector" (<["selector" := AString "#submit"]> ∅))
            (inl (tools.mkResult "clicked"));
    Observe (agent.Print ("agent[1]: click_selector -> clicked" +:+ String newline ""))
            tt;
    Observe (agent.Sleep (800 * agent.millisecond)) tt;
    Observe (agent.Snap (3 * agent.second)) Examples.nextPage;
    Observe (agent.Sleep (1 * agent.second)) tt ].

Definition finishStep : list (Obs agent.E) :=
  [ Observe agent.CtxErr None;
    Observe (agent.Snap (5 * agent.second)) Examples.nextPage;
    Observe (agent.SetSnapshot Examples.nextPage) tt;
    Observe agent.Describe [];
    Observe (agent.Next (agent.mkState "submit the form" 2 [clickedItem]
                           Examples.nextPage []))
            (inl finishDecision);
    Observe (agent.Print ("✅ done" +:+ String newline "")) tt ].

(** A page that asks whether the visitor is a robot, and a click on the
    first element of a page. *)
Definition captchaPage : snapshot.Summary :=
  Examples.page "https://shop.example/showcaptcha" "Check" [].

Definition clickFirst : agent.Decision :=
  Examples.decision "click_by_index" (<["index" := AFloat64 (intToFloat64 1)]> ∅).

(** A first answer with status 503, and the context ending during the
    wait that follows. *)
Definition busyThenCancelled : list (Obs llm.E) :=
  [ Observe (llm.Exchange llm.Anthropic (llm.sanitize Examples.request) 900)
            (llm.Received 503 "busy");
    Observe (llm.Backoff (500 * llm.millisecond)) (Some "context canceled") ].

(** An orchestrator that has just recorded a timeout of a click on
    [#go], and one that had recorded a failure of such a click before. *)
Definition afterTimeout : agent.Orchestrator :=
  agent.mkOrchestrator (agent.mkConfig 40)
    [agent.mkErrorRecord "click_selector" "timeout" 1 5]
    (Some (agent.mkTaskMemory 0 None "")).

Definition failedBefore : agent.Orchestrator :=
  agent.mkOrchestrator (agent.mkConfig 40)
    [agent.mkErrorRecord "click_selector" "element_not_found" 1 5]
    (Some (agent.mkTaskMemory 0 None "")).

Definition notFoundError : error := "element not found".

(** Three decisions to click the element of index 3 of the same form
    page, which does not change; each click is invoked; then [finish]. *)
Definition askOnForm : list (Obs agent.E) :=
  [ Observe agent.CtxErr None;
    Observe (agent.Snap (5 * agent.second)) formWithSubmit;
    Observe (agent.SetSnapshot formWithSubmit) tt;
    Observe agent.Describe [] ].

Definition clickDecided (step : Z) (history : list agent.HistoryItem)
  : Obs agent.E :=
  Observe (agent.Next (agent.mkState "submit the form" step history
                         formWithSubmit []))
          (inl Examples.clickThird).

Definition clickInvoked (step : Z) : list (Obs agent.E) :=
  [ Observe (agent.Invoke "click_selector" (<["selector" := AString "#submit"]> ∅))
            (inl (tools.mkResult "clicked"));
    Observe (agent.Print ("agent[" +:+ fmt_d step
                          +:+ "]: click_selector -> clicked" +:+ String newline ""))
            tt;
    Observe (agent.Sleep (800 * agent.millisecond)) tt;
    Observe (agent.Snap (3 * agent.second)) formWithSubmit;
    Observe (agent.Sleep (1 * agent.second)) tt ].

Definition sameClick (step : Z) (history : list agent.HistoryItem)
  : list (Obs agent.E) :=
  askOnForm ++ clickDecided step history :: clickInvoked step.

Definition finishOnForm : list (Obs agent.E) :=
  askOnForm
  ++ [ Observe (agent.Next (agent.mkState "submit the form" 4
                              [clickedItem; clickedItem; clickedItem]
                              formWithSubmit []))
               (inl finishDecision);
       Observe (agent.Print ("✅ done" +:+ String newline "")) tt ].

Definition threeClicks : list (Obs agent.E) :=
  (sameClick 1 [] ++ sameClick 2 [clickedItem] ++ askOnForm)
  ++ clickDecided 3 [clickedItem; clickedItem]
  :: (clickInvoked 3 ++ finishOnForm).




End Scenarios.

Section RankNotions.
Import Go snapshot.
Context {lib : Lib}.

(** One pass of the inner loop seen on the list itself: the element held
    at position [i] is compared with each later one in turn and exchanged
    with it when it scores less. *)
Fixpoint selectMax (x : scoredElement) (rest : list scoredElement)
  : scoredElement * list scoredElement :=
  match rest with
  | [] => (x, [])
  | y :: rest' =>
      if score x <? score y
      then let '(m, r) := selectMax y rest' in (m, x :: r)
      else let '(m, r) := selectMax x rest' in (m, y :: r)
  end.

(** The passes one after the other; [n] bounds their number. *)
Fixpoint selectionSort (n : nat) (l : list scoredElement) : list scoredElement :=
  match n, l with
  | S n', x :: rest => let '(m, r) := selectMax x rest in m :: selectionSort n' r
  | _, _ => l
  end.

(** A list of scores that never increases. *)
Fixpoint descending (l : list Z) : Prop :=
  match l with
  | [] => True
  | x :: rest => Forall (fun y => y <= x) rest /\ descending rest
  end.

End RankNotions.

(** Text outside comments: string literals are closed, and no slash
    stands outside them. *)
Inductive Plain : string -> Prop :=
| pl_nil : Plain ""
| pl_char (c : ascii) (s : string) :
    c <> Go.dquote -> c <> "/"%char -> Plain s -> Plain (String c s)
| pl_str (body s : string) :
    StrBody body -> Plain s ->
    Plain (String Go.dquote (body +:+ String Go.dquote s)).

(** [hasByte b s]: the byte [b] occurs in [s]. *)
Fixpoint hasByte (b : ascii) (s : string) : bool :=
  match s with
  | EmptyString => false
  | String c rest => Ascii.eqb c b || hasByte b rest
  end.

(** The last byte of a text, as a text; empty for the empty text. *)
Fixpoint lastByte (s : string) : string :=
  match s with
  | EmptyString => EmptyString
  | String c EmptyString => String c EmptyString
  | String _ rest => lastByte rest
  end.

Section GuardNotions.
Import Go agent.

(** What [tooManyRepeats] compares of a history item with the decision:
    the action; for [click_selector] also the selector and the URL; for
    [click_by_index] also the URL. *)
Definition repeats (action : string) (input : gmap string any)
    (it : HistoryItem) : Prop :=
  Action it = action
  /\ (action = "click_selector" ->
      Selector it = stringOr (asString (input !! "selector")) ""
      /\ URL it = stringOr (asString (input !! "_url")) "")
  /\ (action = "click_by_index" ->
      URL it = stringOr (asString (input !! "_url")) "").

End GuardNotions.

Section ProgramNotions.
Context {E : Type -> Type}.

(** [safe P Q p]: whatever the answers, [p] makes only calls that satisfy
    [P], and what it returns satisfies [Q]. *)
Fixpoint safe {A : Type} (P : forall X, E X -> Prop) (Q : A -> Prop)
    (p : Prog E A) : Prop :=
  match p with
  | Ret a => Q a
  | Vis e k => P _ e /\ forall x, safe P Q (k x)
  end.

(** The condition that asks nothing of a result. *)
Definition anything {A : Type} (a : A) : Prop := True.

(** The call of an observation satisfies [P]. *)
Definition obeys (P : forall X, E X -> Prop) (ob : Obs E) : Prop :=
  match ob with Observe e _ => P _ e end.

End ProgramNotions.

Section StepNotions.
Import Go agent.

(** The calls an iteration of [Run] makes once the planner has answered:
    the planner is not asked again, and no tool is invoked under the name
    [click_by_index]. *)
Definition quiet (X : Type) (e : E X) : Prop :=
  match e with
  | Next _ => False
  | Invoke name _ => name <> "click_by_index"
  | _ => True
  end.

(** The calls of [Run]: no tool is invoked under the name
    [click_by_index]. *)
Definition resolved (X : Type) (e : E X) : Prop :=
  match e with
  | Invoke name _ => name <> "click_by_index"
  | _ => True
  end.

(** What a recovery strategy reports when it succeeds: a tool name other
    than [click_by_index]. *)
Definition named (r : option (string * tools.Result)) : Prop :=
  match r with
  | Some (name, _) => name <> "click_by_index"
  | None => True
  end.

(** No item of the history records the action [click_by_index]. *)
Definition indexFree (history : list HistoryItem) : Prop :=
  Forall (fun it => Action it <> "click_by_index") history.

(** How an iteration that started with the orchestrator [o] and the
    history [history] may end: it continues with the same configuration
    and one or two more history items, none of them for the action
    [click_by_index]; it returns an error; or it returns without error,
    which requires [finished]. *)
Definition stepPost (finished : Prop) (o : Orchestrator)
    (history : list HistoryItem) (flow : Flow) : Prop :=
  match flow with
  | Continue o' history' =>
      cfg o' = cfg o
      /\ exists new, history' = history ++ new /\ (1 <= length new <= 2)%nat
                     /\ indexFree new
  | Return None => finished
  | Return (Some _) => True
  end.

(** The decisions the planner gave in a run, and the names under which
    tools were invoked. *)
Definition decisionOf (ob : Obs E) : option Decision :=
  match ob with
  | Observe e x =>
      match e in E X return X -> option Decision with
      | Next _ => fun answer => match answer with inl dec => Some dec | inr _ => None end
      | _ => fun _ => None
      end x
  end.

Definition plannerCallOf (ob : Obs E) : option State :=
  match ob with
  | Observe e _ => match e with Next state => Some state | _ => None end
  end.

Definition invokedOf (ob : Obs E) : option string :=
  match ob with
  | Observe e _ => match e with Invoke name _ => Some name | _ => None end
  end.

Definition decisions (tr : list (Obs E)) : list Decision := omap decisionOf tr.
Definition plannerCalls (tr : list (Obs E)) : list State := omap plannerCallOf tr.
Definition invoked (tr : list (Obs E)) : list string := omap invokedOf tr.

End StepNotions.

Section ExchangeNotions.
Import llm.

(** What an attempt sends: the provider, the request and the token budget
    of an exchange. *)
Definition exchangeOf (ob : Obs E) : option (Provider * Request * Z) :=
  match ob with
  | Observe e _ =>
      match e with
      | Exchange p req maxTok => Some (p, req, maxTok)
      | Backoff _ => None
      end
  end.

(** The error of the context, when it ended during a wait. *)
Definition cancelledOf (ob : Obs E) : option Go.error :=
  match ob with
  | Observe e x =>
      match e in E X return X -> option Go.error with
      | Backoff _ => fun answer => answer
      | Exchange _ _ _ => fun _ => None
      end x
  end.

End ExchangeNotions.

Section RecoveryNotions.
Import Go agent.

(** The trace ends with an invocation of the tool [name] that succeeded
    with [result]. *)
Definition endsWithInvoke (tr : list (Obs E)) (name : string)
    (result : tools.Result) : Prop :=
  exists tr0 input, tr = tr0 ++ [Observe (Invoke name input) (inl result)].

(** A recovery strategy: when it succeeds, what it reports is the tool it
    invoked last and the result of that invocation. *)
Definition reportsItsInvoke (p : Prog E (option (string * tools.Result))) : Prop :=
  forall tr name result,
    runs p tr (Some (name, result)) -> endsWithInvoke tr name result.

End RecoveryNotions.

Section InvocationNotions.
Import Go agent.
Context {lib : Lib} {env : Env}.

(** What follows a decision [click_by_index] that the planner gave in the
    state [state]: the invocation of the decision that the index resolves
    to; or nothing, when the index does not resolve, and [Run] returns the
    error of the resolution. *)
Definition invokedOrRefused (state : State) (dec : Decision)
    (after : list (Obs E)) (r : option error) : Prop :=
  match resolveClickByIndex (Summary state) (blockCaptcha (Summary state) dec) with
  | inl (dec', _) =>
      exists answer rest,
        after = Observe (Invoke (ActionName dec') (ActionInput dec')) answer :: rest
  | inr err => after = [] /\ r = Some err
  end.


(** The decision has the coordinate fallback: it is a [click_selector]
    that came from an element with a bounding box, whose centre is
    [(x, y)]. *)
Definition hasCenter (dec : Decision) (foundElement : option snapshot.Element)
    (x y : Z) : Prop :=
  ActionName dec = "click_selector"
  /\ exists el, foundElement = Some el
                /\ snapshot.BBox el <> ""
                /\ bboxCenter (snapshot.BBox el) = Some (x, y).




End InvocationNotions.

(* ===================================================================== *)
(** * The model at work on small inputs                                   *)
(* ===================================================================== *)

Section Evaluations.
Import Go.

Example TrimSpace_ascii :
  TrimSpace ("  hi " +:+ String newline "") = "hi".
Proof. reflexivity. Qed.

(** A no-break space (bytes C2 A0) is trimmed as well. *)
Example TrimSpace_nbsp :
  TrimSpace (String (ascii_of_N 194) (String (ascii_of_N 160) "x ")) = "x".
Proof. reflexivity. Qed.

(** Braces inside string literals and escaped quotes do not count; the
    first balanced object wins. *)
Example extractJSON_nested :
  agent.extractJSON (q "pre {'a':'}\'{','b':{'c':1}} post {}")
  = inl (q "{'a':'}\'{','b':{'c':1}}").
Proof. reflexivity. Qed.

Example removeJSONComments_block :
  agent.removeJSONComments (q "{'u':'http://x' /* why */ }") = q "{'u':'http://x'  }".
Proof. reflexivity. Qed.

Example float64ToInt_truncates :
  float64ToInt (intToFloat64 3) = 3
  /\ float64ToInt (S754_finite false 15 (-2)) = 3
  /\ float64ToInt (S754_finite true 15 (-2)) = -3.
Proof. repeat split; reflexivity. Qed.

(** Scores 3, 10, -5 and 11: the element without role and text is
    dropped, the others are sorted by decreasing score and cut to two. *)
Example filterAndRankElements_top2 :
  map snapshot.Text
      (snapshot.filterAndRankElements (lib := Examples.asciiLib)
         [ Examples.element 0 "" "a" "" "";
           Examples.element 0 "x" "some longer text here" "" "";
           Examples.element 0 "" "" "" "";
           Examples.element 0 "y" "b@c" "" "" ] 2)
  = ["b@c"; "some longer text here"].
Proof. reflexivity. Qed.

(** Three clicks on [#go] do not stop a click on another selector. *)
Example tooManyRepeats_other_selector :
  agent.tooManyRepeats (repeat Examples.failedClick 3) "click_selector"
    (<["_url" := AString "https://shop.example/cart"]>
       (<["selector" := AString "#other"]> ∅)) 3 = false.
Proof. reflexivity. Qed.

(** A task that the planner finishes at once. *)
Example Run_finishes :
  runs (agent.Run (lib := Examples.asciiLib) (env := Examples.scriptedEnv)
          Examples.orchestrator "say done")
       [ Observe agent.CtxErr None;
         Observe (agent.Snap (5 * agent.second)) Examples.cartPage;
         Observe (agent.SetSnapshot Examples.cartPage) tt;
         Observe agent.Describe [];
         Observe (agent.Next (agent.mkState "say done" 1 [] Examples.cartPage []))
                 (inl (agent.mkDecision "finish" ∅ true "done" "" "" "" ""));
         Observe (agent.Print ("✅ done" +:+ String newline "")) tt ]
       None.
Proof.
  cbn. repeat (eexists; eexists; split; [reflexivity|]; cbn).
  split; reflexivity.
Qed.

End Evaluations.

(* ===================================================================== *)
(** * Runs of sequenced programs                                          *)
(* ===================================================================== *)

Section Runs.
Context {E : Type -> Type}.

(** A run of [p] followed by [f] is a run of [p] followed by a run of
    [f] on what [p] returned. *)
Lemma runs_bind {A B : Type} (p : Prog E A) (f : A -> Prog E B)
    (tr : list (Obs E)) (b : B) :
  runs (bind p f) tr b
  <-> exists (a : A) (tr1 tr2 : list (Obs E)),
        tr = tr1 ++ tr2 /\ runs p tr1 a /\ runs (f a) tr2 b.
Proof.
  revert tr. induction p as [a|X e k IH]; intros tr; cbn.
  - split.
    + intros Hrun. exists a, [], tr. repeat split; auto.
    + intros (a' & tr1 & tr2 & -> & [-> ->] & Hrun). exact Hrun.
  - split.
    + intros (x & tr' & -> & Hrun).
      apply IH in Hrun as (a & tr1 & tr2 & -> & Hp & Hf).
      exists a, (Observe e x :: tr1), tr2. repeat split; eauto.
    + intros (a & tr1 & tr2 & -> & (x & tr' & -> & Hp) & Hf).
      exists x, (tr' ++ tr2). split; [reflexivity|].
      apply IH. eauto 6.
Qed.

End Runs.

(* ===================================================================== *)
(** * Properties of [snapshot]                                            *)
(* ===================================================================== *)

Section SnapshotProperties.
Import Go snapshot.
Context {lib : Lib}.

Lemma assignIndices_length (i : nat) (elems : list Element) :
  length (assignIndices i elems) = length elems.
Proof.
  revert i. induction elems as [|el rest IH]; intros i; simpl; [reflexivity|].
  now rewrite IH.
Qed.

Lemma assignIndices_Index (i : nat) (elems : list Element) :
  map Index (assignIndices i elems) = map Z.of_nat (seq (S i) (length elems)).
Proof.
  revert i. induction elems as [|el rest IH]; intros i; simpl; [reflexivity|].
  rewrite IH. f_equal. lia.
Qed.

Lemma assignIndices_In (i : nat) (elems : list Element) (el : Element) :
  In el elems ->
  exists k, Z.of_nat i < k /\ In (setIndex k el) (assignIndices i elems).
Proof.
  revert i. induction elems as [|x rest IH]; intros i Hin; [destruct Hin|].
  destruct Hin as [-> | Hin].
  - exists (Z.of_nat i + 1). split; [lia | now left].
  - destruct (IH (S i) Hin) as (k & Hk & Hin').
    exists k. split; [lia | now right].
Qed.

Lemma assignIndices_app (i : nat) (xs ys : list Element) :
  assignIndices i (xs ++ ys)
  = assignIndices i xs ++ assignIndices (i + length xs) ys.
Proof.
  revert i. induction xs as [|x xs IH]; intros i; simpl.
  - now rewrite Nat.add_0_r.
  - rewrite IH. do 3 f_equal. lia.
Qed.

Lemma setIndex_setIndex (i j : Z) (el : Element) :
  setIndex i (setIndex j el) = setIndex i el.
Proof. reflexivity. Qed.

Lemma assignIndices_erase (i : nat) (elems : list Element) :
  map (setIndex 0) (assignIndices i elems) = map (setIndex 0) elems.
Proof.
  revert i. induction elems as [|x rest IH]; intros i; simpl; [reflexivity|].
  now rewrite IH.
Qed.

(** C5. The [Index] fields of the elements of every summary built by
    [Collect] are 1, 2, ..., K in output order, K being the number of
    elements of the summary. *)
Theorem Collect_indices_dense (title url text : string) (elems : list Element) :
  map Index (Elements (Collect title url text elems))
  = map Z.of_nat (seq 1 (length (Elements (Collect title url text elems)))).
Proof.
  unfold Collect, collectElements. cbn [Elements].
  rewrite assignIndices_Index, assignIndices_length. reflexivity.
Qed.

(** C4. Every element of the input list whose lower-cased role is in the
    actionable set is in the element list of the summary, with a fresh
    positive index and all other fields unchanged, whatever its score; and
    the summary starts with exactly these elements, in their input order. *)
Theorem Collect_keeps_actionable (title url text : string)
    (elems : list Element) (el : Element) :
  In el elems ->
  actionableRoles (ToLower (Role el)) = true ->
  (exists i, 0 < i /\ In (setIndex i el) (Elements (Collect title url text elems)))
  /\ map (setIndex 0)
         (take (length (interactiveElems elems))
               (Elements (Collect title url text elems)))
     = map (setIndex 0) (interactiveElems elems).
Proof.
  intros Hin Hrole.
  unfold Collect, collectElements. cbn [Elements].
  rewrite assignIndices_app. split.
  - assert (Hint : In el (interactiveElems elems)).
    { unfold interactiveElems. apply filter_In. split; [exact Hin | exact Hrole]. }
    destruct (assignIndices_In 0 _ _ Hint) as (k & Hk & Hin').
    exists k. split; [lia|]. apply in_or_app. now left.
  - rewrite take_app_length'.
    + apply assignIndices_erase.
    + now rewrite assignIndices_length.
Qed.

End SnapshotProperties.

(** The bare button scores 5 only for its role; it is kept among 60
    elements although the cap for the others is 50. *)
Lemma Collect_keeps_actionable_witness :
  let elems := repeat Examples.paragraph 60 ++ [Examples.bareButton] in
  In Examples.bareButton elems
  /\ snapshot.actionableRoles
       (Go.ToLower (Lib := Examples.asciiLib) (snapshot.Role Examples.bareButton)) = true
  /\ (exists i, 0 < i
        /\ In (snapshot.setIndex i Examples.bareButton)
              (snapshot.Elements
                 (snapshot.Collect (lib := Examples.asciiLib) "t" "u" "x" elems))).
Proof.
  intros elems.
  assert (Hin : In Examples.bareButton elems).
  { apply in_or_app. right. left. reflexivity. }
  split; [exact Hin|]. split; [reflexivity|].
  exact (proj1 (Collect_keeps_actionable (lib := Examples.asciiLib)
                  "t" "u" "x" elems Examples.bareButton Hin eq_refl)).
Defined.

(* ===================================================================== *)
(** * Byte strings: occurrences of a substring                            *)
(* ===================================================================== *)

Section Substrings.
Import Go.

Lemma append_nil (s : string) : "" +:+ s = s.
Proof. reflexivity. Qed.

Lemma append_cons (c : ascii) (a b : string) :
  String c a +:+ b = String c (a +:+ b).
Proof. reflexivity. Qed.

Lemma append_assoc (a b c : string) : (a +:+ b) +:+ c = a +:+ (b +:+ c).
Proof.
  induction a as [|x a IH]; [reflexivity|].
  now rewrite !append_cons, IH.
Qed.

Lemma append_length (a b : string) :
  String.length (a +:+ b) = (String.length a + String.length b)%nat.
Proof.
  induction a as [|x a IH]; [reflexivity|].
  rewrite append_cons. simpl. now rewrite IH.
Qed.

Lemma prefix_spec (p s : string) :
  String.prefix p s = true <-> exists post, s = p +:+ post.
Proof.
  revert s. induction p as [|a p IH]; intros s.
  - split; [intros _; now exists s | intros _; now destruct s].
  - destruct s as [|c s]; simpl.
    + split; [discriminate | intros (post & H); discriminate].
    + destruct (ascii_dec a c) as [->|Hne].
      * rewrite IH. split; intros (post & H); exists post.
        -- rewrite append_cons. congruence.
        -- rewrite append_cons in H. congruence.
      * split; [discriminate | intros (post & H)].
        rewrite append_cons in H. congruence.
Qed.

Lemma Contains_spec (s substr : string) :
  Contains s substr = true <-> occurs substr s.
Proof.
  unfold occurs. induction s as [|c s IH]; cbn [Contains].
  - rewrite orb_false_r, prefix_spec. split.
    + intros (post & H). now exists "", post.
    + intros (pre & post & H). exists post.
      destruct pre; [exact H | discriminate].
  - rewrite orb_true_iff, IH, prefix_spec. split.
    + intros [(post & H) | (pre & post & H)].
      * now exists "", post.
      * exists (String c pre), post. rewrite append_cons. now rewrite H.
    + intros (pre & post & H). destruct pre as [|x pre].
      * left. now exists post.
      * right. exists pre, post. rewrite append_cons in H. congruence.
Qed.

Lemma eqb_substring_prefix (substr s : string) :
  String.eqb (String.substring 0 (String.length substr) s) substr
  = String.prefix substr s.
Proof.
  revert s. induction substr as [|a p IH]; intros s; simpl.
  - destruct s; reflexivity.
  - destruct s as [|c s]; simpl; [reflexivity|].
    rewrite IH. destruct (ascii_dec a c) as [->|Hne].
    + now rewrite Ascii.eqb_refl.
    + destruct (Ascii.eqb c a) eqn:E; [|reflexivity].
      apply Ascii.eqb_eq in E. congruence.
Qed.

Lemma slice_window (s : string) (i m : nat) :
  slice s i (i + m) = String.substring i m s.
Proof. unfold slice. f_equal. lia. Qed.

Lemma containsFrom_shift (n i : nat) (c : ascii) (r substr : string) :
  agent.containsFrom n (S i) (String c r) substr = agent.containsFrom n i r substr.
Proof.
  revert i. induction n as [|n IH]; intros i; simpl; [reflexivity|].
  rewrite IH. unfold len. change (S (i + String.length substr)) with (S i + String.length substr)%nat.
  now rewrite !slice_window.
Qed.

Lemma prefix_length (p s : string) :
  String.prefix p s = true -> (String.length p <= String.length s)%nat.
Proof.
  intros H. apply prefix_spec in H as (post & ->). rewrite append_length. lia.
Qed.

Lemma Contains_length (s substr : string) :
  Contains s substr = true -> (String.length substr <= String.length s)%nat.
Proof.
  intros H. apply Contains_spec in H as (pre & post & ->).
  rewrite !append_length. lia.
Qed.

(** The hand-written [contains] of the orchestrator computes
    [strings.Contains]. *)
Lemma contains_Contains (s substr : string) :
  agent.contains s substr = Contains s substr.
Proof.
  unfold agent.contains, len. induction s as [|c s IH].
  - destruct substr as [|a p]; reflexivity.
  - destruct (String.length (String c s) <? String.length substr)%nat eqn:Hlt.
    + apply Nat.ltb_lt in Hlt.
      destruct (Contains (String c s) substr) eqn:E; [|reflexivity].
      apply Contains_length in E. lia.
    + apply Nat.ltb_ge in Hlt.
      replace (String.length (String c s) - String.length substr + 1)%nat
        with (S (String.length (String c s) - String.length substr)) by lia.
      cbn [agent.containsFrom Contains].
      change (0 + len substr)%nat with (0 + String.length substr)%nat.
      rewrite slice_window, eqb_substring_prefix, containsFrom_shift.
      destruct (String.prefix substr (String c s)); [reflexivity|]. simpl orb.
      rewrite <- IH.
      destruct (String.length s <? String.length substr)%nat eqn:Hlt'.
      * apply Nat.ltb_lt in Hlt'.
        replace (String.length (String c s) - String.length substr)%nat with O
          by (simpl in *; lia).
        reflexivity.
      * apply Nat.ltb_ge in Hlt'. f_equal. simpl. lia.
Qed.

Lemma contains_spec (s substr : string) :
  agent.contains s substr = true <-> occurs substr s.
Proof. rewrite contains_Contains. apply Contains_spec. Qed.

End Substrings.

(* ===================================================================== *)
(** * Properties of the orchestrator's gates                              *)
(* ===================================================================== *)

Section GateProperties.
Import Go agent.
Context {lib : Lib} {env : Env}.

Lemma affirmative_reflect (reply : string) :
  affirmativeb reply = true <-> affirmative reply.
Proof.
  unfold affirmativeb, affirmative.
  rewrite !orb_true_iff, !contains_spec. tauto.
Qed.

(** C10. [requestConfirmation] asks once and interprets the raw reply by
    substring matching only: the answer is [true] exactly when the reply
    contains one of [yes], [да], [y], with no lower-casing; so a reply with
    the letter y anywhere confirms, and every other reply, the empty one
    included, declines.  An error of the tool is passed on. *)
Theorem requestConfirmation_by_substring (action : string)
    (input : gmap string any) (tr : list (Obs E)) (r : bool * option error) :
  (runs (requestConfirmation action input) tr r <->
   exists answer,
     tr = [Observe (Invoke "request_user_input"
                      (<["prompt" := AString (confirmationPrompt action input)]> ∅))
                   answer]
     /\ match answer with
        | inl result =>
            r = (true, None) /\ affirmative (tools.Observation result)
            \/ r = (false, None) /\ ~ affirmative (tools.Observation result)
        | inr err => r = (false, Some err)
        end)
  /\ (forall reply, occurs "y" reply -> affirmative reply)
  /\ affirmative "not yet" /\ affirmative "nyet"
  /\ ~ affirmative "" /\ ~ affirmative "YES" /\ ~ affirmative "no".
Proof.
  split; [|split; [|repeat split]].
  - unfold requestConfirmation. cbn. split.
    + intros (answer & tr' & -> & Hrun). exists answer.
      destruct answer as [result | err]; cbn in Hrun.
      * fold (affirmativeb (tools.Observation result)) in Hrun.
        destruct (affirmativeb (tools.Observation result)) eqn:Hb;
          cbn in Hrun; destruct Hrun as [-> ->]; split; try reflexivity.
        -- left. split; [reflexivity | now apply affirmative_reflect].
        -- right. split; [reflexivity|].
           intros Ha. apply affirmative_reflect in Ha. congruence.
      * destruct Hrun as [-> ->]. split; reflexivity.
    + intros (answer & -> & Hans). exists answer, []. split; [reflexivity|].
      destruct answer as [result | err]; cbn.
      * fold (affirmativeb (tools.Observation result)).
        destruct Hans as [[-> Ha] | [-> Hna]].
        -- apply affirmative_reflect in Ha. rewrite Ha. cbn. split; reflexivity.
        -- destruct (affirmativeb (tools.Observation result)) eqn:Hb.
           ++ exfalso. apply Hna. now apply affirmative_reflect.
           ++ cbn. split; reflexivity.
      * subst r. split; reflexivity.
  - intros reply Hy. right. right. exact Hy.
  - apply affirmative_reflect. reflexivity.
  - apply affirmative_reflect. reflexivity.
  - intros Ha. apply affirmative_reflect in Ha. discriminate.
  - intros Ha. apply affirmative_reflect in Ha. discriminate.
  - intros Ha. apply affirmative_reflect in Ha. discriminate.
Qed.

(** *** The confirmation gate *)

Lemma destructiveActions_false (action : string) :
  default false (destructiveActions !! action) = false.
Proof.
  unfold destructiveActions. rewrite !lookup_insert.
  repeat case_decide; reflexivity.
Qed.

Lemma requiresConfirmation_false (action : string) (input : gmap string any) :
  requiresConfirmation action input = false.
Proof.
  unfold requiresConfirmation. now rewrite destructiveActions_false.
Qed.

(** Since the gate never fires, [Run] goes from the loop guard straight to
    the invocation. *)
Lemma confirmStage_proceeds (o : Orchestrator) (history : list HistoryItem)
    (step : Z) (summary : snapshot.Summary) (dec : Decision) :
  confirmStage o history step summary dec
  = match resolveClickByIndex summary (blockCaptcha summary dec) with
    | inr err => Ret (Return (Some err))
    | inl (dec', foundElement) =>
        invokeStage (updateMemory o (ActionName dec) summary) history step
                    summary dec' foundElement
    end.
Proof.
  unfold confirmStage. now rewrite requiresConfirmation_false.
Qed.

(** *** The loop guard *)

Lemma repeatLimit_positive (history : list HistoryItem) (actionName : string) :
  0 < repeatLimit history actionName.
Proof.
  unfold repeatLimit.
  repeat match goal with
         | |- context [if ?b then _ else _] => destruct b
         end; lia.
Qed.

Lemma countRecent_all (same : HistoryItem -> bool)
    (recent rest : list HistoryItem) :
  Forall (fun it => same it = true) recent ->
  countRecent (length recent) (recent ++ rest) same = Z.of_nat (length recent).
Proof.
  induction 1 as [|it recent Hit _ IH]; [reflexivity|].
  cbn [length countRecent app]. rewrite Hit, IH. lia.
Qed.

Lemma allRecent_all (action : string) (recent rest : list HistoryItem) :
  Forall (fun it => Action it = action) recent ->
  allRecent (length recent) (recent ++ rest) action = true.
Proof.
  induction 1 as [|it recent Hit _ IH]; [reflexivity|].
  cbn [length allRecent app]. rewrite Hit, String.eqb_refl. exact IH.
Qed.

(** When the last N history items are identical to the decision in
    action, selector and URL, N being the repeat limit of the action, the
    guard trips and [Run] returns the error "too many repeated actions"
    without any call (no confirmation, no invocation).  The limit is 3
    unless the action is listed: 20 for [scroll_page], 2 for
    [click_by_index], 999 for [request_user_input].  (Whether a history
    can hold such items is another matter: [Run] records the action it
    invoked, which is never [click_by_index].) *)
Lemma loop_guard_aborts (o : Orchestrator) (older recent : list HistoryItem)
    (step : Z) (summary : snapshot.Summary) (dec : Decision) :
  Finish dec = false ->
  Z.of_nat (length recent) = repeatLimit (older ++ recent) (ActionName dec) ->
  Forall (sameTuple dec summary) recent ->
  tooManyRepeats (older ++ recent) (ActionName dec)
                 (<["_url" := AString (snapshot.URL summary)]> (ActionInput dec))
                 (repeatLimit (older ++ recent) (ActionName dec)) = true
  /\ afterDecision o (older ++ recent) step summary dec
     = Ret (Return (Some ("too many repeated actions: " +:+ ActionName dec
                          +:+ " (limit: "
                          +:+ fmt_d (repeatLimit (older ++ recent) (ActionName dec))
                          +:+ "). Try a different action")))
  /\ repeatLimit (older ++ recent) "click_selector" = 3
  /\ repeatLimit (older ++ recent) "fill" = 3
  /\ repeatLimit (older ++ recent) "scroll_page" = 20
  /\ repeatLimit (older ++ recent) "click_by_index" = 2
  /\ repeatLimit (older ++ recent) "request_user_input" = 999.
Proof.
  intros Hfin Hlen Hsame.
  set (history := older ++ recent) in *.
  set (limit := repeatLimit history (ActionName dec)) in *.
  assert (Hpos : 0 < limit) by apply repeatLimit_positive.
  assert (Hn : Z.to_nat limit = length recent) by lia.
  assert (Hrev : rev history = rev recent ++ rev older) by apply rev_app_distr.
  assert (Hguard : tooManyRepeats history (ActionName dec)
                     (<["_url" := AString (snapshot.URL summary)]> (ActionInput dec))
                     limit = true).
  { unfold tooManyRepeats.
    replace (limit <=? 0) with false by (symmetry; apply Z.leb_gt; lia).
    replace (Z.of_nat (length history) <? limit) with false.
    2:{ symmetry. apply Z.ltb_ge. subst history. rewrite length_app. lia. }
    rewrite lookup_insert_eq, lookup_insert_ne by discriminate.
    rewrite Hn, Hrev, <- length_rev.
    destruct (String.eqb (ActionName dec) "click_selector") eqn:Hsel.
    - rewrite countRecent_all.
      + rewrite length_rev. apply Z.leb_le. lia.
      + apply Forall_rev. eapply Forall_impl; [exact Hsame|].
        intros it (Ha & Hs & Hu). cbn beta.
        unfold selectorFor in Hs. rewrite Hsel in Hs.
        rewrite Ha, Hs, Hu. cbn [asString stringOr].
        now rewrite !String.eqb_refl.
    - destruct (String.eqb (ActionName dec) "click_by_index") eqn:Hidx.
      + rewrite countRecent_all.
        * rewrite length_rev. apply Z.leb_le. lia.
        * apply Forall_rev. eapply Forall_impl; [exact Hsame|].
          intros it (Ha & _ & Hu). cbn beta.
          rewrite Ha, Hu. cbn [asString stringOr].
          now rewrite !String.eqb_refl.
      + apply allRecent_all. apply Forall_rev.
        eapply Forall_impl; [exact Hsame|]. now intros it (Ha & _). }
  split; [exact Hguard|]. split.
  - unfold afterDecision. rewrite Hfin. fold history. fold limit.
    now rewrite Hguard.
  - repeat split; reflexivity.
Qed.

(** An iteration that returns ends [Run] with the same error. *)
Lemma runLoop_returns (n : nat) (task : string) (o : Orchestrator)
    (history : list HistoryItem) (step : Z) (tr : list (Obs E))
    (err : option error) :
  runs (runStep task o history step) tr (Return err) ->
  runs (runLoop (S n) task o history step) tr err.
Proof.
  intros Hrun. cbn [runLoop]. apply runs_bind.
  exists (Return err), tr, []. split; [now rewrite app_nil_r|].
  split; [exact Hrun | split; reflexivity].
Qed.

(** An invocation that fails, for a decision that has no coordinate
    fallback, is followed by the error branch. *)
Lemma invokeStage_error (o : Orchestrator) (history : list HistoryItem)
    (step : Z) (summary : snapshot.Summary) (dec : Decision) (err : error)
    (tr : list (Obs E)) (flow : Flow) :
  runs (onToolError o history step summary dec err) tr flow ->
  runs (invokeStage o history step summary dec None)
       (Observe (Invoke (ActionName dec) (ActionInput dec)) (inr err) :: tr) flow.
Proof.
  intros Hrun. unfold invokeStage. cbn.
  exists (inr err), tr. split; [reflexivity|].
  destruct (String.eqb (ActionName dec) "click_selector"); exact Hrun.
Qed.

(** *** Index resolution *)

Lemma findByIndex_first (pre post : list snapshot.Element)
    (el : snapshot.Element) (indexInt : Z) :
  Forall (fun e => snapshot.Index e <> indexInt) pre ->
  snapshot.Index el = indexInt ->
  findByIndex (pre ++ el :: post) indexInt = Some el.
Proof.
  intros Hpre Hel. unfold findByIndex.
  induction Hpre as [|e pre He _ IH]; cbn.
  - rewrite Hel, Z.eqb_refl. reflexivity.
  - apply Z.eqb_neq in He. rewrite He. exact IH.
Qed.

Lemma blockCaptcha_off (summary : snapshot.Summary) (dec : Decision) :
  isCaptchaPage summary = false -> blockCaptcha summary dec = dec.
Proof. intros Hc. unfold blockCaptcha. now rewrite Hc. Qed.

(** C7, as amended.  For a decision [click_by_index] with index 3 and a
    snapshot whose first element of index 3 is the button [Submit] with
    selector [#submit]: when the element has a bounding box, the decision
    becomes [click_selector] on [#submit], and off a captcha page this is
    what [Run] invokes; when it has none, the selector fails the validity
    test (it has no bracket) and the decision becomes [click_role] with
    role [button] and name [Submit]. *)
Theorem click_by_index_resolution (o : Orchestrator)
    (history : list HistoryItem) (step : Z) (summary : snapshot.Summary)
    (dec : Decision) (index : spec_float)
    (pre post : list snapshot.Element) (el : snapshot.Element) :
  ActionName dec = "click_by_index" ->
  ActionInput dec !! "index" = Some (AFloat64 index) ->
  float64ToInt index = 3 ->
  snapshot.Elements summary = pre ++ el :: post ->
  Forall (fun e => snapshot.Index e <> 3) pre ->
  snapshot.Index el = 3 ->
  snapshot.Role el = "button" ->
  snapshot.Text el = "Submit" ->
  snapshot.Sel el = "#submit" ->
  (snapshot.BBox el <> "" ->
   resolveClickByIndex summary dec
   = inl (withAction dec "click_selector" (<["selector" := AString "#submit"]> ∅),
          Some el)
   /\ (isCaptchaPage summary = false ->
       confirmStage o history step summary dec
       = invokeStage (updateMemory o "click_by_index" summary) history step summary
           (withAction dec "click_selector" (<["selector" := AString "#submit"]> ∅))
           (Some el)))
  /\ (snapshot.BBox el = "" ->
      resolveClickByIndex summary dec
      = inl (withAction dec "click_role"
               (<["name" := AString "Submit"]> (<["role" := AString "button"]> ∅)),
             Some el)).
Proof.
  intros Hname Hidx Hint Helems Hpre Hindex Hrole Htext Hsel.
  assert (Hfind : findByIndex (snapshot.Elements summary) 3 = Some el).
  { rewrite Helems. now apply findByIndex_first. }
  split.
  - intros Hbbox.
    assert (Hres : resolveClickByIndex summary dec
                   = inl (withAction dec "click_selector"
                            (<["selector" := AString "#submit"]> ∅), Some el)).
    { unfold resolveClickByIndex.
      rewrite Hname, Hidx. cbn [String.eqb Ascii.eqb Bool.eqb asFloat64].
      rewrite Hint, Hfind.
      destruct (String.eqb (snapshot.BBox el) "") eqn:Hb.
      - apply String.eqb_eq in Hb. contradiction.
      - cbn [andb]. now rewrite Hsel. }
    split; [exact Hres|].
    intros Hcaptcha. rewrite confirmStage_proceeds.
    rewrite blockCaptcha_off by exact Hcaptcha.
    now rewrite Hres, Hname.
  - intros Hbbox. unfold resolveClickByIndex.
    rewrite Hname, Hidx. cbn [String.eqb Ascii.eqb Bool.eqb asFloat64].
    rewrite Hint, Hfind, Hbbox, Hrole.
    unfold hasValidSelector. rewrite Hsel, Htext. reflexivity.
Qed.

(** *** A timeout followed by a changed page *)



End GateProperties.

(** Three failed clicks on [#go], then the same click again. *)
Lemma loop_guard_aborts_witness :
  let recent := repeat Examples.failedClick 3 in
  agent.Finish Examples.clickGo = false
  /\ Z.of_nat (length recent)
     = agent.repeatLimit ([] ++ recent) (agent.ActionName Examples.clickGo)
  /\ Forall (sameTuple Examples.clickGo Examples.cartPage) recent
  /\ agent.afterDecision (lib := Examples.asciiLib) (env := Examples.scriptedEnv)
       Examples.orchestrator ([] ++ recent) 4 Examples.cartPage Examples.clickGo
     = Ret (agent.Return
              (Some "too many repeated actions: click_selector (limit: 3). Try a different action")).
Proof.
  intros recent.
  assert (Hsame : Forall (sameTuple Examples.clickGo Examples.cartPage) recent).
  { repeat constructor. }
  split; [reflexivity|]. split; [reflexivity|]. split; [exact Hsame|].
  exact (proj1 (proj2 (loop_guard_aborts (lib := Examples.asciiLib)
                         (env := Examples.scriptedEnv)
                         Examples.orchestrator [] recent 4 Examples.cartPage
                         Examples.clickGo eq_refl eq_refl Hsame))).
Defined.

(** C2 (defect of the code).  Every value of the map literal
    [destructiveActions] is [false], so the first test of
    [requiresConfirmation] returns [false] for every action and input: the
    keyword check is never reached.  A click on the text [Delete], whose
    lower-cased text contains the keyword [delete], is handed to the
    invocation without any confirmation call. *)
Theorem destructive_click_is_not_confirmed :
  (forall (lib : Go.Lib) (action : string) (input : gmap string Go.any),
      agent.requiresConfirmation action input = false)
  /\ agent.contains (Go.asciiToLower "Delete") "delete" = true
  /\ (forall (env : agent.Env) (o : agent.Orchestrator)
             (history : list agent.HistoryItem) (step : Z),
         agent.confirmStage (lib := Examples.asciiLib) o history step
                            Examples.cartPage Examples.deleteClick
         = agent.invokeStage (lib := Examples.asciiLib)
             (agent.updateMemory o "click_text" Examples.cartPage)
             history step Examples.cartPage Examples.deleteClick None).
Proof.
  split; [|split].
  - intros lib action input. apply requiresConfirmation_false.
  - reflexivity.
  - intros env o history step. rewrite confirmStage_proceeds. reflexivity.
Qed.

(** The element record of the scenario as it is written, without a
    bounding box, resolves to the role tier. *)
Lemma click_by_index_role_tier :
  agent.resolveClickByIndex (Examples.formPage [Examples.submitButton])
                            Examples.clickThird
  = inl (Examples.decision "click_role"
           (<["name" := Go.AString "Submit"]> (<["role" := Go.AString "button"]> ∅)),
         Some Examples.submitButton)
  /\ agent.resolveClickByIndex (Examples.formPage [Examples.submitButton])
                               Examples.clickThird
     <> inl (Examples.decision "click_selector"
               (<["selector" := Go.AString "#submit"]> ∅),
             Some Examples.submitButton).
Proof.
  assert (Hrole :
    agent.resolveClickByIndex (Examples.formPage [Examples.submitButton])
                              Examples.clickThird
    = inl (Examples.decision "click_role"
             (<["name" := Go.AString "Submit"]> (<["role" := Go.AString "button"]> ∅)),
           Some Examples.submitButton)) by reflexivity.
  split; [exact Hrole|]. rewrite Hrole. intros Heq.
  assert (Hname : agent.ActionName (Examples.decision "click_role"
             (<["name" := Go.AString "Submit"]> (<["role" := Go.AString "button"]> ∅)))
          = agent.ActionName (Examples.decision "click_selector"
               (<["selector" := Go.AString "#submit"]> ∅))) by congruence.
  discriminate Hname.
Qed.

(** The same element with a bounding box resolves to the selector tier. *)
Lemma click_by_index_resolution_witness :
  let el := Examples.submitButtonAt "10,20,100,40" in
  let summary := Examples.formPage [el] in
  agent.ActionName Examples.clickThird = "click_by_index"
  /\ agent.ActionInput Examples.clickThird !! "index"
     = Some (Go.AFloat64 (Go.intToFloat64 3))
  /\ Go.float64ToInt (Go.intToFloat64 3) = 3
  /\ snapshot.Elements summary = [] ++ el :: []
  /\ Forall (fun e => snapshot.Index e <> 3) []
  /\ snapshot.Index el = 3
  /\ snapshot.Role el = "button"
  /\ snapshot.Text el = "Submit"
  /\ snapshot.Sel el = "#submit"
  /\ snapshot.BBox el <> ""
  /\ agent.resolveClickByIndex summary Examples.clickThird
     = inl (agent.withAction Examples.clickThird "click_selector"
              (<["selector" := Go.AString "#submit"]> ∅),
            Some el).
Proof.
  intros el summary.
  assert (Hbbox : snapshot.BBox el <> "") by discriminate.
  do 4 (split; [reflexivity|]).
  split; [constructor|].
  do 4 (split; [reflexivity|]).
  split; [exact Hbbox|].
  exact (proj1 (proj1 (click_by_index_resolution (lib := Examples.asciiLib)
                         (env := Examples.scriptedEnv)
                         Examples.orchestrator [] 1 summary Examples.clickThird
                         (Go.intToFloat64 3) [] [] el
                         eq_refl eq_refl eq_refl eq_refl
                         (List.Forall_nil _) eq_refl eq_refl eq_refl eq_refl)
                      Hbbox)).
Defined.

(* ===================================================================== *)
(** * Properties of the planner: [extractJSON]                            *)
(* ===================================================================== *)

Section ExtractJSON.
Import Go agent.

Lemma eqb_false (a b : ascii) : a <> b -> Ascii.eqb a b = false.
Proof. intros Hne. now apply Ascii.eqb_neq. Qed.

Ltac byte_tests :=
  repeat match goal with
         | Hne : ?a <> ?b |- context [Ascii.eqb ?a ?b] =>
             rewrite (eqb_false a b Hne)
         end.

Lemma scan_StrBody (body : string) :
  StrBody body ->
  forall (text rest : string) (i depth : nat) (start : Z),
    scanJSON text (body +:+ String dquote rest) i depth start true false
    = scanJSON text rest (i + String.length body + 1) depth start false false.
Proof.
  induction 1 as [|c s Hq Hb _ IH|c s _ IH]; intros text rest i depth start.
  - rewrite append_nil. cbn. f_equal. lia.
  - rewrite append_cons. cbn [scanJSON]. byte_tests. cbn [negb andb].
    destruct (Ascii.eqb c "{"); [|destruct (Ascii.eqb c "}")];
      rewrite IH; f_equal; cbn [String.length]; lia.
  - rewrite !append_cons. cbn [scanJSON].
    change (Ascii.eqb backslash backslash) with true. cbn iota.
    rewrite IH. f_equal. cbn [String.length]. lia.
Qed.

Lemma scan_plain (c : ascii) (text rest : string) (i depth : nat) (start : Z) :
  c <> dquote -> c <> "{"%char -> (c <> "}"%char \/ depth = O) ->
  scanJSON text (String c rest) i depth start false false
  = scanJSON text rest (S i) depth start false false.
Proof.
  intros Hq Ho Hc. cbn [scanJSON]. byte_tests.
  destruct (Ascii.eqb c backslash); [reflexivity|].
  destruct (Ascii.eqb c "}") eqn:E; [|reflexivity].
  destruct Hc as [Hc | ->]; [|reflexivity].
  apply Ascii.eqb_eq in E. contradiction.
Qed.

Lemma scan_Balanced (plain : ascii -> Prop) (s : string) :
  Balanced plain s ->
  forall (text rest : string) (i depth : nat) (start : Z),
    (0 < depth)%nat ->
    scanJSON text (s +:+ rest) i depth start false false
    = scanJSON text rest (i + String.length s) depth start false false.
Proof.
  induction 1 as [|c s Hq Ho Hc _ _ IH|body s Hbody _ IH|inner s _ IHin _ IH];
    intros text rest i depth start Hdepth.
  - rewrite append_nil. f_equal. cbn [String.length]. lia.
  - rewrite append_cons, scan_plain by auto.
    rewrite IH by exact Hdepth. f_equal. cbn [String.length]. lia.
  - rewrite append_cons, append_assoc, append_cons. cbn [scanJSON].
    change (Ascii.eqb dquote backslash) with false.
    change (Ascii.eqb dquote dquote) with true. cbn iota. cbn [negb].
    rewrite scan_StrBody by exact Hbody. rewrite IH by exact Hdepth.
    f_equal. cbn [String.length]. rewrite append_length. cbn [String.length]. lia.
  - rewrite append_cons, append_assoc, append_cons. cbn [scanJSON].
    cbn [Ascii.eqb Bool.eqb backslash dquote negb andb].
    replace (depth =? 0)%nat with false by (symmetry; apply Nat.eqb_neq; lia).
    rewrite IHin by lia. cbn [scanJSON].
    cbn [Ascii.eqb Bool.eqb backslash dquote negb andb Nat.ltb Nat.leb].
    replace (S depth - 1)%nat with depth by lia.
    replace (depth =? 0)%nat with false by (symmetry; apply Nat.eqb_neq; lia).
    cbn [andb]. rewrite IH by exact Hdepth.
    f_equal. cbn [String.length]. rewrite append_length. cbn [String.length]. lia.
Qed.

Lemma scan_Prose (pre : string) :
  Prose pre ->
  forall (text rest : string) (i : nat) (start : Z),
    scanJSON text (pre +:+ rest) i 0 start false false
    = scanJSON text rest (i + String.length pre) 0 start false false.
Proof.
  induction 1 as [|c s Hq Ho _ IH|body s Hbody _ IH]; intros text rest i start.
  - rewrite append_nil. f_equal. cbn [String.length]. lia.
  - rewrite append_cons, scan_plain by auto.
    rewrite IH. f_equal. cbn [String.length]. lia.
  - rewrite append_cons, append_assoc, append_cons. cbn [scanJSON].
    change (Ascii.eqb dquote backslash) with false.
    change (Ascii.eqb dquote dquote) with true. cbn iota. cbn [negb].
    rewrite scan_StrBody by exact Hbody. rewrite IH.
    f_equal. cbn [String.length]. rewrite append_length. cbn [String.length]. lia.
Qed.

Lemma substring_prefix_exact (b c : string) :
  String.substring 0 (String.length b) (b +:+ c) = b.
Proof.
  induction b as [|x b IH].
  - rewrite append_nil. destruct c; reflexivity.
  - rewrite append_cons. cbn. now rewrite IH.
Qed.

Lemma substring_middle (a b c : string) :
  String.substring (String.length a) (String.length b) (a +:+ b +:+ c) = b.
Proof.
  induction a as [|x a IH].
  - rewrite append_nil. apply substring_prefix_exact.
  - rewrite append_cons. cbn. exact IH.
Qed.

(** The first object after the prose is returned, with the comments the
    code strips removed. *)
Lemma extractJSON_first_object (pre obj post : string) :
  Prose pre -> Object anyByte obj ->
  extractJSON (pre +:+ obj +:+ post) = inl (removeJSONComments obj).
Proof.
  intros Hpre (inner & -> & Hinner). unfold extractJSON.
  set (text := pre +:+ String "{" (inner +:+ "}") +:+ post).
  unfold text at 2. rewrite scan_Prose by exact Hpre.
  rewrite append_cons, append_assoc. cbn [scanJSON].
  cbn [Ascii.eqb Bool.eqb backslash dquote negb andb Nat.eqb].
  rewrite (scan_Balanced anyByte) by (exact Hinner || lia).
  rewrite append_cons. cbn [scanJSON].
  cbn [Ascii.eqb Bool.eqb backslash dquote negb andb Nat.ltb Nat.leb Nat.sub Nat.eqb].
  replace (Z.of_nat (0 + String.length pre) =? -1) with false
    by (symmetry; apply Z.eqb_neq; lia).
  cbn [negb]. do 2 f_equal. unfold slice.
  rewrite Nat2Z.id.
  match goal with
  | |- String.substring ?a ?n text = _ =>
      replace n with (String.length (String "{" (inner +:+ "}")));
      [replace a with (String.length pre) by lia|]
  end.
  - apply substring_middle.
  - cbn [String.length]. rewrite append_length. cbn [String.length]. lia.
Qed.

Lemma strip_plain (c : ascii) (inStr : bool) (rest : string) :
  c <> dquote -> (c <> backslash \/ inStr = false) ->
  (c <> "/"%char \/ inStr = true) ->
  stripComments Code inStr false (String c rest)
  = String c (stripComments Code inStr false rest).
Proof.
  intros Hq Hb Hs. cbn [stripComments]. byte_tests.
  assert (Hback : Ascii.eqb c backslash && inStr = false).
  { destruct Hb as [Hb | ->]; [now rewrite (eqb_false _ _ Hb) | apply andb_false_r]. }
  rewrite Hback.
  assert (Hslash : negb inStr && Ascii.eqb c "/" = false).
  { destruct Hs as [Hs | ->]; [rewrite (eqb_false _ _ Hs); apply andb_false_r | reflexivity]. }
  rewrite Hslash. destruct rest; reflexivity.
Qed.

Lemma strip_StrBody (body : string) :
  StrBody body ->
  forall rest : string,
    stripComments Code true false (body +:+ String dquote rest)
    = body +:+ String dquote (stripComments Code false false rest).
Proof.
  induction 1 as [|c s Hq Hb _ IH|c s _ IH]; intros rest.
  - rewrite !append_nil. reflexivity.
  - rewrite !append_cons, strip_plain by auto. now rewrite IH.
  - rewrite !append_cons. cbn [stripComments].
    change (Ascii.eqb backslash backslash) with true. cbn [andb].
    now rewrite IH.
Qed.

Lemma strip_Balanced (s : string) :
  Balanced notSlash s ->
  forall rest : string,
    stripComments Code false false (s +:+ rest)
    = s +:+ stripComments Code false false rest.
Proof.
  induction 1 as [|c s Hq Ho Hc Hs _ IH|body s Hbody _ IH|inner s _ IHin _ IH];
    intros rest.
  - reflexivity.
  - rewrite !append_cons, strip_plain by auto. now rewrite IH.
  - rewrite !append_cons, !append_assoc, !append_cons. cbn [stripComments].
    change (Ascii.eqb dquote backslash) with false.
    change (Ascii.eqb dquote dquote) with true. cbn [andb negb].
    rewrite strip_StrBody by exact Hbody. now rewrite IH.
  - rewrite !append_cons, !append_assoc, !append_cons.
    rewrite strip_plain by (auto || discriminate).
    rewrite IHin. rewrite strip_plain by (auto || discriminate).
    now rewrite IH.
Qed.

Lemma removeJSONComments_Object (obj : string) :
  Object notSlash obj -> removeJSONComments obj = obj.
Proof.
  intros (inner & -> & Hinner). unfold removeJSONComments.
  rewrite strip_plain by (auto || discriminate).
  rewrite strip_Balanced by exact Hinner. reflexivity.
Qed.

Lemma Balanced_weaken (plain : ascii -> Prop) (s : string) :
  Balanced plain s -> Balanced anyByte s.
Proof.
  induction 1; [apply bal_nil | apply bal_char | apply bal_str | apply bal_obj];
    auto; exact I.
Qed.

(** C6, as amended.  When the prose before the object has its string
    quotes closed and no opening brace outside them, and the object (with
    no slash outside its string literals) is balanced with respect to
    string and escape context, [extractJSON] returns exactly the object,
    whatever follows it; in particular for the text of the scenario. *)
Theorem extractJSON_object (pre obj post : string) :
  Prose pre -> Object notSlash obj ->
  extractJSON (pre +:+ obj +:+ post) = inl obj
  /\ extractJSON
       (q "Sure! {'action':'finish','input':{'message':'done'}} Hope that helps.")
     = inl (q "{'action':'finish','input':{'message':'done'}}").
Proof.
  intros Hpre Hobj. split; [|reflexivity].
  rewrite extractJSON_first_object.
  - now rewrite removeJSONComments_Object.
  - exact Hpre.
  - destruct Hobj as (inner & -> & Hinner). exists inner.
    split; [reflexivity | now apply Balanced_weaken in Hinner].
Qed.

End ExtractJSON.

Ltac str_body :=
  repeat first [ apply sb_nil | apply sb_char; [discriminate | discriminate |] ].

Ltac plain_byte :=
  apply bal_char; [discriminate | discriminate | discriminate
                  | unfold notSlash; discriminate |].

(** The object of the scenario is an object in the sense above. *)
Lemma scenario_Object :
  Object notSlash (Go.q "{'action':'finish','input':{'message':'done'}}").
Proof.
  exists (Go.q "'action':'finish','input':{'message':'done'}").
  split; [reflexivity|].
  apply (bal_str notSlash "action" (Go.q ":'finish','input':{'message':'done'}"));
    [str_body|].
  plain_byte.
  apply (bal_str notSlash "finish" (Go.q ",'input':{'message':'done'}"));
    [str_body|].
  plain_byte.
  apply (bal_str notSlash "input" (Go.q ":{'message':'done'}")); [str_body|].
  plain_byte.
  apply (bal_obj notSlash (Go.q "'message':'done'") ""); [|apply bal_nil].
  apply (bal_str notSlash "message" (Go.q ":'done'")); [str_body|].
  plain_byte.
  apply (bal_str notSlash "done" ""); [str_body | apply bal_nil].
Defined.

Lemma extractJSON_object_witness :
  let obj := Go.q "{'action':'finish','input':{'message':'done'}}" in
  Prose "Sure! " /\ Object notSlash obj
  /\ agent.extractJSON ("Sure! " +:+ obj +:+ " Hope that helps.") = inl obj.
Proof.
  intros obj.
  assert (Hpre : Prose "Sure! ").
  { repeat first [ apply pr_nil | apply pr_char; [discriminate | discriminate |] ]. }
  split; [exact Hpre|]. split; [exact scenario_Object|].
  exact (proj1 (extractJSON_object "Sure! " obj " Hope that helps."
                  Hpre scenario_Object)).
Defined.

(** Prose with an unclosed quote before the object: the scanner takes the
    opening brace for string content and finds no object at all. *)
Lemma extractJSON_unclosed_quote :
  let pre := Go.q "The 'Submit button: " in
  let obj := Go.q "{'input':{}}" in
  Object notSlash obj
  /\ agent.extractJSON (pre +:+ obj) = inr "json not found"
  /\ agent.extractJSON (pre +:+ obj) <> inl obj.
Proof.
  intros pre obj. split; [|split; [reflexivity | discriminate]].
  exists (Go.q "'input':{}"). split; [reflexivity|].
  apply (bal_str notSlash "input" (Go.q ":{}")); [str_body|].
  plain_byte.
  apply (bal_obj notSlash "" ""); apply bal_nil.
Qed.

(* ===================================================================== *)
(** * Properties of the planner: [parseDecision]                          *)
(* ===================================================================== *)

Section ParseDecision.
Import Go agent.
Context {lib : Lib} {env : Env}.

Lemma nonBlank_noMessage (actionInput : gmap string any) (key : string) :
  noMessage actionInput ->
  In key ["message"; "result"; "text"] ->
  nonBlank (actionInput !! key) = None.
Proof.
  intros Hno Hkey. unfold nonBlank.
  destruct (actionInput !! key) as [[| | | |s| |]|] eqn:Hlook; try reflexivity.
  cbn [asString]. rewrite (Hno key s Hkey Hlook). reflexivity.
Qed.

Lemma finishMessage_noMessage (actionInput : gmap string any) :
  noMessage actionInput -> finishMessage actionInput = "".
Proof.
  intros Hno. unfold finishMessage.
  rewrite !nonBlank_noMessage; try exact Hno; cbn; auto.
Qed.

(** C1.  When the decoded decision has the action [finish] and none of
    the keys [message], [result], [text] of its input carries a non-empty
    string, [parseDecision] returns the error "finish action requires
    'message' field"; and no text at all is parsed into a decision with
    [Finish] set and an empty [Message]. *)
Theorem finish_requires_message (text jsonStr : string)
    (parsed : parsedDecision) (action : string)
    (actionInput : gmap string any) :
  extractJSON text = inl jsonStr ->
  Unmarshal jsonStr = inl parsed ->
  actionAndInput parsed = Some (action, actionInput) ->
  cleanActionName action = "finish" ->
  noMessage actionInput ->
  parseDecision text = inr (finishError actionInput)
  /\ (forall (text' : string) (dec : Decision),
         parseDecision text' = inl dec -> Finish dec = true -> Message dec <> "").
Proof.
  intros Hjson Hdec Hact Hname Hno. split.
  - unfold parseDecision. rewrite Hjson, Hdec, Hact. cbn [ActionName].
    rewrite Hname. cbn [String.eqb Ascii.eqb Bool.eqb].
    now rewrite finishMessage_noMessage.
  - clear. intros text dec Hparse Hfin. unfold parseDecision in Hparse.
    destruct (extractJSON text) as [jsonStr|]; [|discriminate].
    destruct (Unmarshal jsonStr) as [parsed|]; [|discriminate].
    destruct (actionAndInput parsed) as [[action actionInput]|]; [|discriminate].
    cbn [ActionName] in Hparse.
    destruct (String.eqb (cleanActionName action) "finish").
    + destruct (String.eqb (finishMessage actionInput) "") eqn:Hmsg;
        [discriminate|].
      injection Hparse as <-. cbn [Message].
      now apply String.eqb_neq.
    + injection Hparse as <-. discriminate Hfin.
Qed.

(** The earlier revision accepted such a decision with a default
    message. *)
Lemma earlierDecision_defaults (input : gmap string any) :
  noMessage input ->
  Finish (earlierDecision "finish" input) = true
  /\ Message (earlierDecision "finish" input)
     = "task finished: " +:+ fmt_v (AMap input).
Proof.
  intros Hno. unfold earlierDecision.
  change (String.eqb (TrimSpace "finish") "finish") with true. cbn iota.
  split; [reflexivity|]. cbn [Message].
  assert (Hkey : forall key, In key ["message"; "result"; "text"] ->
                 asString (input !! key) = None \/ asString (input !! key) = Some "").
  { intros key Hin. destruct (input !! key) as [[| | | |s| |]|] eqn:Hlook;
      cbn; auto. right. now rewrite (Hno key s Hin Hlook). }
  destruct (Hkey "message") as [-> | ->]; [cbn; auto | | reflexivity].
  destruct (Hkey "result") as [-> | ->]; [cbn; auto | | reflexivity].
  destruct (Hkey "text") as [-> | ->]; [cbn; auto | | ]; reflexivity.
Qed.

End ParseDecision.

(** The text [{"action":"finish","input":{}}] is rejected. *)
Lemma finish_requires_message_witness :
  agent.extractJSON Examples.finishEmpty = inl Examples.finishEmpty
  /\ agent.Unmarshal (Env := Examples.scriptedEnv) Examples.finishEmpty
     = inl (agent.mkParsed "" "" "" "" "finish" (Go.AMap ∅))
  /\ agent.actionAndInput (agent.mkParsed "" "" "" "" "finish" (Go.AMap ∅))
     = Some ("finish", ∅)
  /\ agent.cleanActionName "finish" = "finish"
  /\ noMessage ∅
  /\ agent.parseDecision (lib := Examples.asciiLib) (env := Examples.scriptedEnv)
       Examples.finishEmpty
     = inr "finish action requires 'message' field in input (got: map[])".
Proof.
  assert (Hno : noMessage ∅).
  { intros key s _ Hlook. rewrite lookup_empty in Hlook. discriminate Hlook. }
  do 4 (split; [reflexivity|]). split; [exact Hno|].
  exact (proj1 (finish_requires_message (lib := Examples.asciiLib)
                  (env := Examples.scriptedEnv)
                  Examples.finishEmpty Examples.finishEmpty
                  (agent.mkParsed "" "" "" "" "finish" (Go.AMap ∅)) "finish" ∅
                  eq_refl eq_refl eq_refl eq_refl Hno)).
Defined.

(* ===================================================================== *)
(** * Properties of [llm]: the retry policy                               *)
(* ===================================================================== *)

Section RetryPolicy.
Import llm.
Context {codec : Codec}.

(** Tests of the code, read as facts about integers. *)
Ltac tests_to_facts :=
  unfold maxRetries in *;
  repeat match goal with
         | H : _ && _ = true |- _ => apply andb_true_iff in H as [? ?]
         | H : _ || _ = false |- _ => apply orb_false_iff in H as [? ?]
         | H : _ && _ = false |- _ => apply andb_false_iff in H
         | H : _ || _ = true |- _ => apply orb_true_iff in H
         | H : (_ <=? _) = true |- _ => apply Z.leb_le in H
         | H : (_ <=? _) = false |- _ => apply Z.leb_gt in H
         | H : (_ <? _) = true |- _ => apply Z.ltb_lt in H
         | H : (_ <? _) = false |- _ => apply Z.ltb_ge in H
         | H : (_ =? _) = true |- _ => apply Z.eqb_eq in H
         | H : (_ =? _) = false |- _ => apply Z.eqb_neq in H
         end.

(** Why an attempt was the last one, and why one was retried: in each
    branch of the code the tests that led there decide it. *)
Ltac stops_here :=
  split;
  [ intros [Htransient | Hundecodable] Hobject; cbn in *;
    try contradiction; tests_to_facts;
    try match goal with
        | Heq : unmarshalAnthropicResponse _ = _ |- _ =>
            rewrite Heq in *; cbn in *
        | Heq : unmarshalOpenAIResponse _ = _ |- _ =>
            rewrite Heq in *; cbn in *
        end;
    try tauto; try congruence; intuition lia
  | intros Hclient Hobject; cbn in *;
    first [ eexists; reflexivity
          | contradiction
          | exfalso; tests_to_facts;
            try match goal with
                | Heq : unmarshalOpenAIResponse _ = _ |- _ =>
                    rewrite Heq in *; cbn in *
                end;
            try congruence; intuition lia ] ].

Ltac retried_here :=
  unfold retried;
  first
    [ left; exact I
    | left; cbn; tests_to_facts; intuition lia
    | right; cbn;
      match goal with
      | Heq : unmarshalAnthropicResponse _ = _ |- _ => rewrite Heq; cbn
      end;
      tests_to_facts; split; [lia | discriminate] ].

(** One iteration of either loop, from the exchange on: the run ends
    here, or the loop is entered again after an outcome that is
    retried. *)
Ltac one_attempt Hnext Hrange :=
  repeat match goal with
         | H : runs (Ret _) _ _ |- _ =>
             cbn in H; destruct H as [-> ->];
             apply at_stop; [exact Hrange | stops_here]
         | H : runs (anthropicLoop _ _ _ _) _ _ |- _ =>
             eapply Hnext; [ | retried_here | exact H]; tests_to_facts; lia
         | H : runs (openAILoop _ _ _ _) _ _ |- _ =>
             eapply Hnext; [ | retried_here | exact H]; tests_to_facts; lia
         | H : runs (if ?b then _ else _) _ _ |- _ => destruct b eqn:?
         | H : runs (match ?x with _ => _ end) _ _ |- _ => destruct x eqn:?
         end.

(** A retried attempt followed by a run of the loop entered with the next
    attempt number. *)
Lemma Attempts_next (p : Provider) (req : Request) (attempt : Z)
    (out : Outcome) (tr : list (Obs E)) (r : Returned) :
  0 <= attempt < maxRetries ->
  retried p out ->
  LoopRuns p req (attempt + 1) tr r ->
  Attempts p req attempt
    (Observe (Exchange p req (Z.max (MaxTokens req) maxTokens)) out :: tr) r.
Proof.
  intros Hrange Hout [[Hlate _] | [[Hzero _] | [(_ & ctxErr & -> & ->) | (_ & tr' & -> & Hrest)]]];
    try lia.
  - now apply at_cancel.
  - now apply at_retry.
Qed.

Lemma anthropicLoop_runs (n : nat) :
  forall (attempt : Z) (req : Request) (lastErr : option Go.error)
         (tr : list (Obs E)) (r : Returned),
    Z.of_nat n + attempt = maxRetries + 1 -> 0 <= attempt ->
    runs (anthropicLoop n attempt req lastErr) tr r ->
    LoopRuns Anthropic req attempt tr r.
Proof.
  induction n as [|n IH]; intros attempt req lastErr tr r Hsum Hpos Hrun.
  - cbn in Hrun. destruct Hrun as [-> _]. left. split; [lia | reflexivity].
  - assert (Hrange : 0 <= attempt <= maxRetries) by lia.
    assert (Hnext : forall out lastErr' tr1,
               attempt < maxRetries -> retried Anthropic out ->
               runs (anthropicLoop n (attempt + 1) req lastErr') tr1 r ->
               Attempts Anthropic req attempt
                 (Observe (Exchange Anthropic req (Z.max (MaxTokens req) maxTokens)) out
                    :: tr1) r).
    { intros out lastErr' tr1 Hlt Hout Hrun1.
      apply Attempts_next; [lia | exact Hout|].
      apply (IH (attempt + 1) req lastErr' tr1 r); [lia | lia | exact Hrun1]. }
    clear IH. cbn [anthropicLoop] in Hrun. unfold waitBeforeAttempt in Hrun.
    destruct (0 <? attempt) eqn:Ha.
    + apply Z.ltb_lt in Ha. cbn in Hrun.
      destruct Hrun as (waited & tr0 & -> & Hrun).
      destruct waited as [ctxErr|].
      * cbn in Hrun. destruct Hrun as [-> ->].
        right. right. left. split; [exact Ha|]. now exists ctxErr.
      * right. right. right. split; [exact Ha|].
        cbn in Hrun. destruct Hrun as (out & tr1 & -> & Hrun).
        eexists. split; [reflexivity|].
        one_attempt Hnext Hrange.
    + apply Z.ltb_ge in Ha. assert (attempt = 0) as -> by lia.
      right. left. split; [reflexivity|].
      cbn in Hrun. destruct Hrun as (out & tr1 & -> & Hrun).
      one_attempt Hnext Hrange.
Qed.

Lemma openAILoop_runs (n : nat) :
  forall (attempt : Z) (req : Request) (lastErr : option Go.error)
         (tr : list (Obs E)) (r : Returned),
    Z.of_nat n + attempt = maxRetries + 1 -> 0 <= attempt ->
    runs (openAILoop n attempt req lastErr) tr r ->
    LoopRuns OpenAI req attempt tr r.
Proof.
  induction n as [|n IH]; intros attempt req lastErr tr r Hsum Hpos Hrun.
  - cbn in Hrun. destruct Hrun as [-> _]. left. split; [lia | reflexivity].
  - assert (Hrange : 0 <= attempt <= maxRetries) by lia.
    assert (Hnext : forall out lastErr' tr1,
               attempt < maxRetries -> retried OpenAI out ->
               runs (openAILoop n (attempt + 1) req lastErr') tr1 r ->
               Attempts OpenAI req attempt
                 (Observe (Exchange OpenAI req (Z.max (MaxTokens req) maxTokens)) out
                    :: tr1) r).
    { intros out lastErr' tr1 Hlt Hout Hrun1.
      apply Attempts_next; [lia | exact Hout|].
      apply (IH (attempt + 1) req lastErr' tr1 r); [lia | lia | exact Hrun1]. }
    clear IH. cbn [openAILoop] in Hrun. unfold waitBeforeAttempt in Hrun.
    destruct (0 <? attempt) eqn:Ha.
    + apply Z.ltb_lt in Ha. cbn in Hrun.
      destruct Hrun as (waited & tr0 & -> & Hrun).
      destruct waited as [ctxErr|].
      * cbn in Hrun. destruct Hrun as [-> ->].
        right. right. left. split; [exact Ha|]. now exists ctxErr.
      * right. right. right. split; [exact Ha|].
        cbn in Hrun. destruct Hrun as (out & tr1 & -> & Hrun).
        eexists. split; [reflexivity|].
        one_attempt Hnext Hrange.
    + apply Z.ltb_ge in Ha. assert (attempt = 0) as -> by lia.
      right. left. split; [reflexivity|].
      cbn in Hrun. destruct Hrun as (out & tr1 & -> & Hrun).
      one_attempt Hnext Hrange.
Qed.

(** An outcome that is retried is not one of the other 4xx answers. *)
Lemma retried_not_clientError (p : Provider) (out : Outcome) :
  retried p out -> clientError out -> False.
Proof.
  intros [Htransient | Hundecodable] Hclient;
    destruct p, out; cbn in *; try contradiction; lia.
Qed.

(** [retryBaseDelay * (1 << (attempt-1))]: the delay before the attempt
    numbered [k + 1] is the base delay doubled [k] times. *)
Lemma backoffDelay_doubles (k : Z) :
  0 <= k -> backoffDelay (k + 1) = 500 * millisecond * 2 ^ k.
Proof.
  intros Hk. unfold backoffDelay, retryBaseDelay.
  replace (k + 1 - 1) with k by lia.
  rewrite Z.shiftl_1_l. reflexivity.
Qed.

(** Every run of the loop from an exchange on starts with that exchange. *)
Lemma Attempts_first (p : Provider) (req : Request) (attempt : Z)
    (tr : list (Obs E)) (r : Returned) :
  Attempts p req attempt tr r ->
  exists out rest,
    tr = Observe (Exchange p req (Z.max (MaxTokens req) maxTokens)) out :: rest.
Proof. intros []; eexists; eexists; reflexivity. Qed.

(** What the shape of a run says of its attempts and its waits. *)
Lemma Attempts_outcomes (p : Provider) (req : Request) (attempt : Z)
    (tr : list (Obs E)) (r : Returned) :
  Attempts p req attempt tr r ->
  (Z.of_nat (length (outcomes tr)) <= maxRetries - attempt + 1)
  /\ (Z.of_nat (length (waits tr)) <= maxRetries - attempt)
  /\ (forall (k : nat) (d : Z),
         waits tr !! k = Some d -> d = backoffDelay (attempt + Z.of_nat k + 1))
  /\ (forall (k : nat) (out : Outcome),
         outcomes tr !! k = Some out -> is_Some (outcomes tr !! S k) ->
         retried p out)
  /\ (forall (k : nat) (out : Outcome),
         outcomes tr !! k = Some out -> clientError out ->
         outcomes tr !! S k = None
         /\ (errorObjectRead p out -> exists err, r = Failure err))
  /\ (forall (k : nat) (out : Outcome),
         outcomes tr !! k = Some out -> retried p out -> errorObjectRead p out ->
         attempt + Z.of_nat k < maxRetries ->
         is_Some (waits tr !! k))
  /\ (forall (k : nat) (out : Outcome),
         outcomes tr !! k = Some out -> retried p out -> errorObjectRead p out ->
         attempt + Z.of_nat k < maxRetries ->
         exists ended,
           waitEnds tr !! k = Some ended
           /\ match ended with
              | None => is_Some (outcomes tr !! S k)
              | Some ctxErr => outcomes tr !! S k = None /\ r = Failure ctxErr
              end).
Proof.
  induction 1 as [attempt out r Hrange [Hlast Hfails]
                 | attempt out ctxErr Hrange Hout
                 | attempt out tr r Hrange Hout Hrest IH].
  - refine (conj _ (conj _ (conj _ (conj _ (conj _ (conj _ _)))))); cbn.
    + lia.
    + lia.
    + intros k d Hk. destruct k; discriminate Hk.
    + intros k out' _ [x Hx]. destruct k; discriminate Hx.
    + intros k out' Hk Hclient. destruct k; [|discriminate].
      injection Hk as <-. split; [reflexivity | exact (Hfails Hclient)].
    + intros k out' Hk Hretried Hobject Hlt. destruct k; [|discriminate].
      injection Hk as <-. specialize (Hlast Hretried Hobject). lia.
    + intros k out' Hk Hretried Hobject Hlt. destruct k; [|discriminate].
      injection Hk as <-. specialize (Hlast Hretried Hobject). lia.
  - refine (conj _ (conj _ (conj _ (conj _ (conj _ (conj _ _)))))); cbn.
    + lia.
    + lia.
    + intros k d Hk. destruct k as [|[|k]]; try discriminate Hk.
      injection Hk as <-. f_equal. lia.
    + intros k out' Hk [x Hx]. destruct k; discriminate Hx.
    + intros k out' Hk Hclient. destruct k; [|discriminate].
      injection Hk as <-. destruct (retried_not_clientError _ _ Hout Hclient).
    + intros k out' Hk _ _ _. destruct k; [|discriminate].
      eexists. reflexivity.
    + intros k out' Hk _ _ _. destruct k; [|discriminate].
      exists (Some ctxErr). split; [reflexivity|]. split; reflexivity.
  - destruct IH as (Hn & Hm & Hw & Hagain & Hclient & Hwaits & Hasks).
    change (outcomes (_ :: _ :: tr)) with (out :: outcomes tr).
    change (waits (_ :: _ :: tr)) with (backoffDelay (attempt + 1) :: waits tr).
    change (waitEnds (_ :: _ :: tr)) with (@None Go.error :: waitEnds tr).
    refine (conj _ (conj _ (conj _ (conj _ (conj _ (conj _ _)))))).
    + cbn [length]. lia.
    + cbn [length]. lia.
    + intros k d Hk. destruct k as [|k].
      * injection Hk as <-. f_equal. lia.
      * cbn in Hk. rewrite (Hw k d Hk). f_equal. lia.
    + intros k out' Hk Hnext. destruct k as [|k].
      * injection Hk as <-. exact Hout.
      * exact (Hagain k out' Hk Hnext).
    + intros k out' Hk Hc. destruct k as [|k].
      * injection Hk as <-. destruct (retried_not_clientError _ _ Hout Hc).
      * exact (Hclient k out' Hk Hc).
    + intros k out' Hk Hretried Hobject Hlt. destruct k as [|k].
      * eexists. reflexivity.
      * apply (Hwaits k out' Hk Hretried Hobject). lia.
    + intros k out' Hk Hretried Hobject Hlt. destruct k as [|k].
      * exists None. split; [reflexivity|].
        destruct (Attempts_first _ _ _ _ _ Hrest) as (next & rest & ->).
        eexists. reflexivity.
      * apply (Hasks k out' Hk Hretried Hobject). lia.
Qed.

(** The runs of [Generate]: nothing is sent, or attempts follow one
    another from the first. *)
Lemma Generate_runs (p : Provider) (req : Request) (tr : list (Obs E))
    (r : Returned) :
  runs (Generate p req) tr r ->
  tr = [] \/ Attempts p (sanitize req) 0 tr r.
Proof.
  unfold Generate. intros Hrun.
  destruct (length (Messages req) =? 0)%nat.
  - cbn in Hrun. left. apply Hrun.
  - assert (Hloop : LoopRuns p (sanitize req) 0 tr r).
    { destruct p.
      - apply (anthropicLoop_runs (Z.to_nat (maxRetries + 1)) 0 _ None);
          [reflexivity | lia | exact Hrun].
      - apply (openAILoop_runs (Z.to_nat (maxRetries + 1)) 0 _ None);
          [reflexivity | lia | exact Hrun]. }
    destruct Hloop as [[Hlate _] | [[_ Hattempts] | [[Hpos _] | [Hpos _]]]];
      try (unfold maxRetries in *; lia).
    right. exact Hattempts.
Qed.

(** [C8] Both clients make at most four attempts with at most three
    waits between them; the wait after attempt number [k] (from 0) lasts
    500 ms doubled [k] times; an attempt is followed by another one only
    after a network error, HTTP 429, HTTP 5xx or, for the Anthropic
    client, an answer below 400 that cannot be decoded; after any other
    4xx answer no attempt follows and the call returns an error; and after
    an outcome of the former kind, as long as fewer than three retries were
    made, the client waits and asks again: the wait is started, and when
    its delay elapses the next attempt follows (when the context ends
    first, no attempt follows and the call returns the error of the
    context).  (For the OpenAI client the last three hold when the answer
    carried an error object.) *)
Theorem retry_policy (p : Provider) (req : Request) (tr : list (Obs E))
    (r : Returned) :
  runs (Generate p req) tr r ->
  (length (outcomes tr) <= 4)%nat
  /\ (length (waits tr) <= 3)%nat
  /\ (forall (k : nat) (d : Z),
         waits tr !! k = Some d -> d = 500 * millisecond * 2 ^ Z.of_nat k)
  /\ (forall (k : nat) (out : Outcome),
         outcomes tr !! k = Some out -> is_Some (outcomes tr !! S k) ->
         transient out \/ undecodable p out)
  /\ (forall (k : nat) (out : Outcome),
         outcomes tr !! k = Some out -> clientError out ->
         outcomes tr !! S k = None
         /\ (errorObjectRead p out -> exists err, r = Failure err))
  /\ (forall (k : nat) (out : Outcome),
         outcomes tr !! k = Some out ->
         transient out \/ undecodable p out -> errorObjectRead p out ->
         (k < 3)%nat ->
         is_Some (waits tr !! k))
  /\ (forall (k : nat) (out : Outcome),
         outcomes tr !! k = Some out ->
         transient out \/ undecodable p out -> errorObjectRead p out ->
         (k < 3)%nat ->
         exists ended,
           waitEnds tr !! k = Some ended
           /\ match ended with
              | None => is_Some (outcomes tr !! S k)
              | Some ctxErr => outcomes tr !! S k = None /\ r = Failure ctxErr
              end).
Proof.
  intros Hrun. destruct (Generate_runs p req tr r Hrun) as [-> | Hattempts].
  - cbn. refine (conj _ (conj _ (conj _ (conj _ (conj _ (conj _ _))))));
      try lia; intros k; intros; destruct k; discriminate.
  - destruct (Attempts_outcomes _ _ _ _ _ Hattempts)
      as (Hn & Hm & Hw & Hagain & Hclient & Hwaits & Hnext).
    unfold maxRetries in *.
    refine (conj _ (conj _ (conj _ (conj Hagain (conj Hclient (conj _ _)))))).
    + lia.
    + lia.
    + intros k d Hk. rewrite (Hw k d Hk).
      replace (0 + Z.of_nat k + 1) with (Z.of_nat k + 1) by lia.
      apply backoffDelay_doubles. lia.
    + intros k out Hk Hretried Hobject Hlt.
      apply (Hwaits k out Hk Hretried Hobject). lia.
    + intros k out Hk Hretried Hobject Hlt.
      apply (Hnext k out Hk Hretried Hobject). lia.
Qed.

End RetryPolicy.

(** The Anthropic client reads a body it cannot decode, waits and asks
    again. *)
Lemma htmlThenGood_runs :
  runs (llm.Generate (codec := Examples.scriptedCodec) llm.Anthropic Examples.request)
       Examples.htmlThenGood (llm.Success (llm.mkResponse "ok")).
Proof.
  cbn. eexists. eexists. split; [reflexivity|]. cbn.
  eexists. eexists. split; [reflexivity|]. cbn.
  eexists. eexists. split; [reflexivity|]. cbn.
  split; reflexivity.
Defined.

Lemma anthropic_retries_undecodable_body :
  ~ retriesOnlyTransient (codec := Examples.scriptedCodec) llm.Anthropic.
Proof.
  intros Hclaim.
  assert (Htransient : transient (llm.Received 200 "<html>")).
  { apply (Hclaim Examples.request Examples.htmlThenGood
                  (llm.Success (llm.mkResponse "ok")) htmlThenGood_runs 0%nat).
    - reflexivity.
    - eexists. reflexivity. }
  cbn in Htransient. lia.
Qed.

Lemma retry_policy_witness :
  runs (llm.Generate (codec := Examples.scriptedCodec) llm.Anthropic Examples.request)
       Examples.htmlThenGood (llm.Success (llm.mkResponse "ok"))
  /\ (length (outcomes Examples.htmlThenGood) <= 4)%nat
  /\ (length (waits Examples.htmlThenGood) <= 3)%nat
  /\ (forall (k : nat) (d : Z),
         waits Examples.htmlThenGood !! k = Some d ->
         d = 500 * llm.millisecond * 2 ^ Z.of_nat k)
  /\ (exists ended,
         waitEnds Examples.htmlThenGood !! 0%nat = Some ended
         /\ match ended with
            | None => is_Some (outcomes Examples.htmlThenGood !! 1%nat)
            | Some ctxErr =>
                outcomes Examples.htmlThenGood !! 1%nat = None
                /\ llm.Success (llm.mkResponse "ok") = llm.Failure ctxErr
            end).
Proof.
  split; [exact htmlThenGood_runs|].
  pose proof (retry_policy (codec := Examples.scriptedCodec) llm.Anthropic
                Examples.request Examples.htmlThenGood
                (llm.Success (llm.mkResponse "ok")) htmlThenGood_runs)
    as (Hn & Hm & Hw & _ & _ & _ & Hnext).
  split; [exact Hn|]. split; [exact Hm|]. split; [exact Hw|].
  apply (Hnext 0%nat (llm.Received 200 "<html>")).
  - reflexivity.
  - right. split; [lia | discriminate].
  - exact I.
  - lia.
Defined.

Section SnapshotRanking.
Import Go snapshot.
Context {lib : Lib}.

Lemma swapIfLess_app (pre l : list scoredElement) (a b : nat) :
  swapIfLess (pre ++ l) (length pre + a) (length pre + b) = pre ++ swapIfLess l a b.
Proof.
  unfold swapIfLess.
  rewrite !lookup_app_r by lia.
  replace (length pre + a - length pre)%nat with a by lia.
  replace (length pre + b - length pre)%nat with b by lia.
  destruct (l !! a) as [x|]; [|reflexivity].
  destruct (l !! b) as [y|]; [|reflexivity].
  destruct (score x <? score y); [|reflexivity].
  now rewrite !insert_app_r.
Qed.

Lemma sortInner_app (n : nat) (pre : list scoredElement) :
  forall (l : list scoredElement) (a b : nat),
    sortInner n (length pre + a) (length pre + b) (pre ++ l)
    = pre ++ sortInner n a b l.
Proof.
  induction n as [|n IH]; intros l a b; [reflexivity|].
  cbn [sortInner]. rewrite swapIfLess_app.
  replace (S (length pre + b)) with (length pre + S b)%nat by lia.
  apply IH.
Qed.

Lemma insert_middle {A : Type} (pre : list A) (a b : A) (post : list A) :
  <[length pre := b]> (pre ++ a :: post) = pre ++ b :: post.
Proof. induction pre as [|c pre IH]; cbn; [reflexivity | now f_equal]. Qed.

Lemma sortInner_selectMax (todo : list scoredElement) :
  forall (x : scoredElement) (done : list scoredElement),
    sortInner (length todo) 0 (S (length done)) (x :: done ++ todo)
    = fst (selectMax x todo) :: done ++ snd (selectMax x todo).
Proof.
  induction todo as [|y todo IH]; intros x done; [reflexivity|].
  cbn [length sortInner selectMax].
  assert (Hy : (x :: done ++ y :: todo) !! S (length done) = Some y).
  { cbn. now apply list_lookup_middle. }
  unfold swapIfLess. rewrite Hy. cbn [lookup list_lookup].
  destruct (score x <? score y).
  - replace (<[S (length done):=x]> (<[0%nat:=y]> (x :: done ++ y :: todo)))
      with (y :: (done ++ [x]) ++ todo).
    + replace (S (S (length done))) with (S (length (done ++ [x])))
        by (rewrite length_app; cbn; lia).
      rewrite IH. destruct (selectMax y todo) as [m r]. cbn.
      now rewrite <- app_assoc.
    + change (<[0%nat:=y]> (x :: done ++ y :: todo)) with (y :: done ++ y :: todo).
      change (<[S (length done):=x]> (y :: done ++ y :: todo))
        with (y :: <[length done:=x]> (done ++ y :: todo)).
      rewrite insert_middle. now rewrite <- app_assoc.
  - replace (x :: done ++ y :: todo) with (x :: (done ++ [y]) ++ todo)
      by (now rewrite <- app_assoc).
    replace (S (S (length done))) with (S (length (done ++ [y])))
      by (rewrite length_app; cbn; lia).
    rewrite IH. destruct (selectMax x todo) as [m r]. cbn.
    now rewrite <- app_assoc.
Qed.

Lemma selectMax_length (rest : list scoredElement) :
  forall x, length (snd (selectMax x rest)) = length rest.
Proof.
  induction rest as [|y rest IH]; intros x; [reflexivity|].
  cbn [selectMax]. destruct (score x <? score y).
  - specialize (IH y). destruct (selectMax y rest). cbn in *. lia.
  - specialize (IH x). destruct (selectMax x rest). cbn in *. lia.
Qed.

Lemma selectMax_Permutation (rest : list scoredElement) :
  forall x, fst (selectMax x rest) :: snd (selectMax x rest) ≡ₚ x :: rest.
Proof.
  induction rest as [|y rest IH]; intros x; [reflexivity|].
  cbn [selectMax]. destruct (score x <? score y).
  - specialize (IH y). destruct (selectMax y rest) as [m r]. cbn in *.
    transitivity (x :: m :: r); [apply Permutation_swap | now constructor].
  - specialize (IH x). destruct (selectMax x rest) as [m r]. cbn in *.
    transitivity (y :: m :: r); [apply Permutation_swap|].
    transitivity (y :: x :: rest); [now constructor | apply Permutation_swap].
Qed.

Lemma selectMax_max (rest : list scoredElement) :
  forall x,
    score x <= score (fst (selectMax x rest))
    /\ Forall (fun y => score y <= score (fst (selectMax x rest)))
              (snd (selectMax x rest)).
Proof.
  induction rest as [|y rest IH]; intros x; [cbn; split; [lia | constructor]|].
  cbn [selectMax]. destruct (score x <? score y) eqn:Hlt.
  - apply Z.ltb_lt in Hlt.
    destruct (IH y) as [Hy Hall]. destruct (selectMax y rest) as [m r]. cbn in *.
    split; [lia|]. constructor; [lia | exact Hall].
  - apply Z.ltb_ge in Hlt.
    destruct (IH x) as [Hx Hall]. destruct (selectMax x rest) as [m r]. cbn in *.
    split; [lia|]. constructor; [lia | exact Hall].
Qed.

Lemma sortOuter_selectionSort (n : nat) :
  forall (pre l : list scoredElement),
    n = (length l - 1)%nat ->
    sortOuter n (length pre) (pre ++ l) = pre ++ selectionSort n l.
Proof.
  induction n as [|n IH]; intros pre l Hn.
  - cbn. destruct l; reflexivity.
  - destruct l as [|x rest]; [cbn in Hn; lia|].
    cbn [sortOuter selectionSort].
    replace (length (pre ++ x :: rest) - S (length pre))%nat with (length rest)
      by (rewrite length_app; cbn; lia).
    pose proof (sortInner_app (length rest) pre (x :: rest) 0 1) as Happ.
    replace (length pre + 0)%nat with (length pre) in Happ by lia.
    replace (length pre + 1)%nat with (S (length pre)) in Happ by lia.
    rewrite Happ.
    pose proof (sortInner_selectMax rest x []) as Hsel. cbn in Hsel.
    rewrite Hsel.
    pose proof (selectMax_length rest x) as Hlen.
    destruct (selectMax x rest) as [m r]. cbn [fst snd] in *.
    replace (pre ++ m :: r) with ((pre ++ [m]) ++ r) by (now rewrite <- app_assoc).
    replace (S (length pre)) with (length (pre ++ [m]))
      by (rewrite length_app; cbn; lia).
    rewrite IH by (cbn in Hn; lia).
    now rewrite <- app_assoc.
Qed.

Lemma sortByScore_selectionSort (l : list scoredElement) :
  sortByScore l = selectionSort (length l - 1) l.
Proof.
  unfold sortByScore.
  exact (sortOuter_selectionSort (length l - 1) [] l eq_refl).
Qed.

Lemma selectionSort_Permutation (n : nat) :
  forall l, selectionSort n l ≡ₚ l.
Proof.
  induction n as [|n IH]; intros l; [destruct l; reflexivity|].
  destruct l as [|x rest]; [reflexivity|]. cbn [selectionSort].
  pose proof (selectMax_Permutation rest x) as Hperm.
  destruct (selectMax x rest) as [m r]. cbn [fst snd] in Hperm.
  rewrite <- Hperm. constructor. apply IH.
Qed.

Lemma selectionSort_descending (n : nat) :
  forall l, (length l - 1 <= n)%nat -> descending (map score (selectionSort n l)).
Proof.
  induction n as [|n IH]; intros l Hn.
  - destruct l as [|x [|y l]]; cbn in *; try lia; auto.
  - destruct l as [|x rest]; [exact I|]. cbn [selectionSort].
    pose proof (selectMax_max rest x) as [_ Hall].
    pose proof (selectMax_length rest x) as Hlen.
    destruct (selectMax x rest) as [m r]. cbn [fst snd] in *.
    cbn [map descending]. split.
    + apply Forall_map, Forall_forall. intros y Hy.
      rewrite (selectionSort_Permutation n r) in Hy.
      rewrite Forall_forall in Hall. now apply Hall.
    + apply IH. cbn in Hn. lia.
Qed.

Lemma descending_app (l1 l2 : list Z) :
  descending (l1 ++ l2) ->
  descending l1 /\ forall a b, In a l1 -> In b l2 -> b <= a.
Proof.
  induction l1 as [|x l1 IH]; cbn; [intros _; split; [exact I | tauto]|].
  intros [Hall Hdesc]. destruct (IH Hdesc) as [Hd1 Hcross].
  apply Forall_app in Hall as [Hall1 Hall2]. split; [split; assumption|].
  intros a b [<- | Ha] Hb.
  - rewrite Forall_forall in Hall2. apply Hall2. now apply list_elem_of_In.
  - now apply Hcross.
Qed.

Lemma scoreAll_filter (elems : list Element) :
  scoreAll elems
  = map (fun el => mkScored el (scoreElement el))
        (List.filter (fun el => 0 <? scoreElement el) elems).
Proof.
  induction elems as [|el rest IH]; [reflexivity|].
  cbn [scoreAll List.filter]. destruct (0 <? scoreElement el); cbn; now rewrite IH.
Qed.

(** Every entry of the sorted list still carries the score of its
    element, and is an entry for an element of the input with a positive
    score. *)
Lemma sortByScore_entries (elems : list Element) (s : scoredElement) :
  In s (sortByScore (scoreAll elems)) <->
  In (element s) elems /\ 0 < scoreElement (element s)
  /\ score s = scoreElement (element s).
Proof.
  split.
  - intros Hs. apply list_elem_of_In in Hs.
    rewrite sortByScore_selectionSort, selectionSort_Permutation in Hs.
    apply list_elem_of_In in Hs. rewrite scoreAll_filter in Hs.
    apply in_map_iff in Hs as (el & <- & Hin).
    apply filter_In in Hin as [Hin Hpos]. apply Z.ltb_lt in Hpos. cbn. auto.
  - intros (Hin & Hpos & Hscore). apply list_elem_of_In.
    rewrite sortByScore_selectionSort, selectionSort_Permutation.
    apply list_elem_of_In. rewrite scoreAll_filter. apply in_map_iff.
    exists (element s). split.
    + destruct s as [el sc]. cbn in *. now subst sc.
    + apply filter_In. split; [exact Hin | now apply Z.ltb_lt].
Qed.

Lemma sortByScore_descending (l : list scoredElement) :
  descending (map score (sortByScore l)).
Proof.
  rewrite sortByScore_selectionSort. now apply selectionSort_descending.
Qed.

Lemma sortByScore_length (l : list scoredElement) :
  length (sortByScore l) = length l.
Proof.
  rewrite sortByScore_selectionSort.
  apply Permutation_length, selectionSort_Permutation.
Qed.

Lemma filterAndRankElements_length (elems : list Element) (maxCount : nat) :
  (length (filterAndRankElements elems maxCount) <= maxCount)%nat.
Proof.
  unfold filterAndRankElements.
  destruct (length elems <=? maxCount)%nat eqn:Hle.
  - now apply Nat.leb_le in Hle.
  - rewrite length_map, length_take. lia.
Qed.

(** X1.  [filterAndRankElements] never returns more than [maxCount]
    elements, and returns only elements of its input. *)
Theorem filterAndRankElements_bounded (elems : list Element) (maxCount : nat) :
  (length (filterAndRankElements elems maxCount) <= maxCount)%nat
  /\ (forall el, In el (filterAndRankElements elems maxCount) -> In el elems).
Proof.
  split; [apply filterAndRankElements_length|].
  unfold filterAndRankElements.
  destruct (length elems <=? maxCount)%nat eqn:Hle.
  - tauto.
  - intros el Hin. apply in_map_iff in Hin as (s & <- & Hs).
    apply list_elem_of_In, elem_of_take in Hs as (i & Hs & _).
    apply list_elem_of_lookup_2, list_elem_of_In in Hs.
    now apply sortByScore_entries in Hs as [Hin _].
Qed.

(** X2.  When the input has more than [maxCount] elements, the result is
    ordered by score, highest first; it holds only elements with a positive
    score, as many of them as there are up to [maxCount]; and every element
    with a positive score that is left out scores no more than any element
    that is kept. *)
Theorem filterAndRankElements_ranked (elems : list Element) (maxCount : nat) :
  (maxCount < length elems)%nat ->
  descending (map scoreElement (filterAndRankElements elems maxCount))
  /\ length (filterAndRankElements elems maxCount)
     = Nat.min maxCount
         (length (List.filter (fun el => 0 <? scoreElement el) elems))
  /\ (forall el, In el (filterAndRankElements elems maxCount) ->
                 0 < scoreElement el)
  /\ (forall el kept,
         In el elems -> 0 < scoreElement el ->
         ~ In el (filterAndRankElements elems maxCount) ->
         In kept (filterAndRankElements elems maxCount) ->
         scoreElement el <= scoreElement kept).
Proof.
  intros Hmore. unfold filterAndRankElements.
  replace (length elems <=? maxCount)%nat with false
    by (symmetry; apply Nat.leb_gt; exact Hmore).
  set (sorted := sortByScore (scoreAll elems)).
  assert (Hsplit : sorted = take maxCount sorted ++ drop maxCount sorted)
    by (now rewrite take_drop).
  assert (Hdesc : descending (map score (take maxCount sorted)
                              ++ map score (drop maxCount sorted))).
  { rewrite <- map_app, <- Hsplit. apply sortByScore_descending. }
  apply descending_app in Hdesc as [Hkept Hcross].
  assert (Hentry : forall s, In s (take maxCount sorted) ->
                             In s (sortByScore (scoreAll elems))).
  { intros s Hs. fold sorted. rewrite Hsplit. apply in_or_app. now left. }
  assert (Hscores : map scoreElement (map element (take maxCount sorted))
                    = map score (take maxCount sorted)).
  { rewrite map_map. apply map_ext_in. intros s Hs.
    apply Hentry, sortByScore_entries in Hs as (_ & _ & Hs). now rewrite Hs. }
  split; [now rewrite Hscores|]. split; [|split].
  - rewrite length_map, length_take. unfold sorted.
    rewrite sortByScore_length, scoreAll_filter, length_map. lia.
  - intros el Hin. apply in_map_iff in Hin as (s & <- & Hs).
    now apply Hentry, sortByScore_entries in Hs as (_ & Hpos & _).
  - intros el kept Hin Hpos Hout Hk.
    apply in_map_iff in Hk as (k & <- & Hk).
    assert (Hs : In (mkScored el (scoreElement el)) sorted).
    { apply sortByScore_entries. cbn. auto. }
    rewrite Hsplit in Hs. apply in_app_or in Hs as [Hs | Hs].
    + exfalso. apply Hout. apply in_map_iff.
      now exists (mkScored el (scoreElement el)).
    + pose proof (Hentry k Hk) as Hke.
      apply sortByScore_entries in Hke as (_ & _ & <-).
      apply (Hcross (score k) (score (mkScored el (scoreElement el)))).
      * now apply in_map.
      * now apply in_map.
Qed.

End SnapshotRanking.

Section SnapshotBounds.
Import Go snapshot.
Context {lib : Lib}.

Ltac nat_tests :=
  repeat match goal with
         | H : (_ <? _)%nat = true |- _ => apply Nat.ltb_lt in H
         | H : (_ <? _)%nat = false |- _ => apply Nat.ltb_ge in H
         | H : (_ =? _)%nat = true |- _ => apply Nat.eqb_eq in H
         | H : (_ =? _)%nat = false |- _ => apply Nat.eqb_neq in H
         | H : _ && _ = true |- _ => apply andb_true_iff in H as [? ?]
         end.

(** X3.  The score of an element lies between -5 and 18; an element with
    a role other than [generic] and [presentation] scores at least 5,
    whatever its text and attributes, so the filter never drops it for its
    score. *)
Theorem scoreElement_bounds (el : Element) (elems : list Element) :
  -5 <= scoreElement el <= 18
  /\ (Role el <> "" -> Role el <> "generic" -> Role el <> "presentation" ->
      5 <= scoreElement el
      /\ (In el elems -> In (mkScored el (scoreElement el)) (scoreAll elems))).
Proof.
  split.
  { unfold scoreElement.
    repeat match goal with
           | |- context [if ?b then _ else _] => destruct b eqn:?
           end; nat_tests; lia. }
  intros H1 H2 H3.
  assert (Hscore : 5 <= scoreElement el).
  { unfold scoreElement.
    apply String.eqb_neq in H1, H2, H3. rewrite H1, H2, H3. cbn [negb andb].
    rewrite andb_false_r.
    repeat match goal with
           | |- context [if ?b then _ else _] => destruct b eqn:?
           end; nat_tests; lia. }
  split; [exact Hscore|]. intros Hin.
  induction elems as [|x rest IH]; [destruct Hin|].
  cbn [scoreAll]. destruct Hin as [-> | Hin].
  - replace (0 <? scoreElement el) with true by (symmetry; apply Z.ltb_lt; lia).
    now left.
  - destruct (0 <? scoreElement x); [right|]; now apply IH.
Qed.

Lemma countStats_bounds (elems : list Element) :
  forall stats,
    let out := countStats elems stats in
    TotalElements out = TotalElements stats
    /\ Links stats <= Links out <= Links stats + Z.of_nat (length elems)
    /\ Iframes stats <= Iframes out <= Iframes stats + Z.of_nat (length elems)
    /\ ScrollContainers stats <= ScrollContainers out
       <= ScrollContainers stats + Z.of_nat (length elems)
    /\ Interactive stats <= Interactive out
       <= Interactive stats + Z.of_nat (length elems).
Proof.
  induction elems as [|el rest IH]; intros stats; cbn zeta.
  - cbn. lia.
  - cbn [countStats length].
    match goal with
    | |- context [countStats rest ?st] => specialize (IH st); cbn zeta in IH
    end.
    cbn [TotalElements Links Iframes ScrollContainers Interactive] in IH.
    unfold boolZ in *.
    repeat match type of IH with
           | context [if ?b then _ else _] => destruct b
           end; lia.
Qed.

(** X4.  [calculatePageStatistics] reports the number of elements as the
    total, and no count is negative or exceeds the total. *)
Theorem calculatePageStatistics_bounds (elems : list Element) :
  let stats := calculatePageStatistics elems in
  TotalElements stats = Z.of_nat (length elems)
  /\ 0 <= Links stats <= TotalElements stats
  /\ 0 <= Iframes stats <= TotalElements stats
  /\ 0 <= ScrollContainers stats <= TotalElements stats
  /\ 0 <= Interactive stats <= TotalElements stats.
Proof.
  cbn zeta. unfold calculatePageStatistics.
  pose proof (countStats_bounds elems
                (mkPageStatistics 0 0 0 0 (Z.of_nat (length elems)))) as H.
  cbn zeta in H.
  cbn [TotalElements Links Iframes ScrollContainers Interactive] in H.
  destruct H as (-> & ? & ? & ? & ?). lia.
Qed.

Lemma string_rev_length (s : string) : String.length (string_rev s) = String.length s.
Proof.
  unfold string_rev.
  rewrite <- (string_of_list_ascii_of_string s) at 2.
  generalize (list_ascii_of_string s). intros l.
  assert (Hlen : forall l', String.length (string_of_list_ascii l') = length l').
  { induction l' as [|c l' IH]; cbn; [reflexivity | now rewrite IH]. }
  now rewrite !Hlen, length_rev.
Qed.

Lemma TrimLeftSpace_length (n : nat) :
  forall s, (String.length s <= n)%nat ->
            (String.length (TrimLeftSpace s) <= String.length s)%nat.
Proof.
  induction n as [|n IH]; intros s Hn.
  - destruct s; cbn in *; lia.
  - destruct s as [|a r1]; [cbn; lia|].
    cbn [TrimLeftSpace String.length] in *.
    destruct (isAsciiSpace a).
    { specialize (IH r1). lia. }
    destruct r1 as [|b r2]; [cbn; lia|]. cbn [String.length] in *.
    destruct (isSpace2 a b).
    { specialize (IH r2). lia. }
    destruct r2 as [|c r3]; [cbn; lia|]. cbn [String.length] in *.
    destruct (isSpace3 a b c); [|cbn; lia].
    specialize (IH r3). lia.
Qed.

Lemma TrimLeftSpaceRev_length (n : nat) :
  forall s, (String.length s <= n)%nat ->
            (String.length (TrimLeftSpaceRev s) <= String.length s)%nat.
Proof.
  induction n as [|n IH]; intros s Hn.
  - destruct s; cbn in *; lia.
  - destruct s as [|a r1]; [cbn; lia|].
    cbn [TrimLeftSpaceRev String.length] in *.
    destruct (isAsciiSpace a).
    { specialize (IH r1). lia. }
    destruct r1 as [|b r2]; [cbn; lia|]. cbn [String.length] in *.
    destruct (isSpace2 b a).
    { specialize (IH r2). lia. }
    destruct r2 as [|c r3]; [cbn; lia|]. cbn [String.length] in *.
    destruct (isSpace3 c b a); [|cbn; lia].
    specialize (IH r3). lia.
Qed.

Lemma TrimSpace_length (s : string) : (len (TrimSpace s) <= len s)%nat.
Proof.
  unfold TrimSpace, len. rewrite string_rev_length.
  pose proof (TrimLeftSpaceRev_length _ (string_rev (TrimLeftSpace s)) (le_n _)).
  pose proof (TrimLeftSpace_length _ s (le_n _)).
  rewrite string_rev_length in *. lia.
Qed.

Lemma substring_length_le (n m : nat) (s : string) :
  (String.length (String.substring n m s) <= m)%nat.
Proof.
  revert n m. induction s as [|c s IH]; intros n m.
  - destruct n, m; cbn; lia.
  - destruct n as [|n]; [destruct m as [|m]|]; cbn; [lia | | apply IH].
    specialize (IH 0%nat m). lia.
Qed.

(** X5.  The summary built by [Collect] carries the URL and the title of
    the page, at most 1200 bytes of visible text, at most 50 elements
    besides the actionable ones, and statistics whose total is the number
    of its elements. *)
Theorem Collect_size (title url text : string) (elems : list Element) :
  let summary := Collect title url text elems in
  URL summary = url /\ Title summary = title
  /\ (len (Visible summary) <= 1200)%nat
  /\ (length (Elements summary) <= length (interactiveElems elems) + 50)%nat
  /\ TotalElements (PageStats summary) = Z.of_nat (length (Elements summary)).
Proof.
  cbn zeta. unfold Collect. cbn [URL Title Visible Elements PageStats].
  split; [reflexivity|]. split; [reflexivity|]. split; [|split].
  - etransitivity; [apply TrimSpace_length|].
    destruct (1200 <? len text)%nat eqn:Hlong.
    + unfold slice, len. apply substring_length_le.
    + now apply Nat.ltb_ge in Hlong.
  - unfold collectElements.
    rewrite assignIndices_length, length_app.
    pose proof (filterAndRankElements_length (nonInteractiveElems elems) 50).
    lia.
  - unfold calculatePageStatistics.
    apply (countStats_bounds (collectElements elems)).
Qed.

(** X6.  When the page has at most 50 elements outside the actionable
    roles, [Collect] drops nothing, whatever the scores: its element list
    is the actionable elements followed by the others, each group in input
    order, with only the indices rewritten. *)
Theorem Collect_keeps_all_under_cap (title url text : string)
    (elems : list Element) :
  (length (nonInteractiveElems elems) <= 50)%nat ->
  map (setIndex 0) (Elements (Collect title url text elems))
  = map (setIndex 0) (interactiveElems elems ++ nonInteractiveElems elems)
  /\ length (Elements (Collect title url text elems)) = length elems.
Proof.
  intros Hcap. unfold Collect, collectElements, filterAndRankElements.
  cbn [Elements].
  replace (length (nonInteractiveElems elems) <=? 50)%nat with true
    by (symmetry; now apply Nat.leb_le).
  split; [apply assignIndices_erase|].
  rewrite assignIndices_length, length_app.
  unfold interactiveElems, nonInteractiveElems.
  clear. induction elems as [|el rest IH]; [reflexivity|].
  cbn [List.filter]. destruct (isInteractive el); cbn [negb length]; lia.
Qed.

End SnapshotBounds.

(** Four elements with scores 3, 10, -5 and 11, cut to two. *)
Lemma filterAndRankElements_ranked_witness :
  let elems := [ Examples.element 0 "" "a" "" "";
                 Examples.element 0 "x" "some longer text here" "" "";
                 Examples.element 0 "" "" "" "";
                 Examples.element 0 "y" "b@c" "" "" ] in
  (2 < length elems)%nat
  /\ descending
       (map (snapshot.scoreElement (lib := Examples.asciiLib))
            (snapshot.filterAndRankElements (lib := Examples.asciiLib) elems 2)).
Proof.
  intros elems.
  assert (Hmore : (2 < length elems)%nat) by (unfold elems; cbn; lia).
  split; [exact Hmore|].
  exact (proj1 (filterAndRankElements_ranked (lib := Examples.asciiLib)
                  elems 2 Hmore)).
Defined.

(** A button without text scores 5. *)
Lemma scoreElement_bounds_witness :
  let elems := [Examples.paragraph; Examples.bareButton] in
  5 <= snapshot.scoreElement (lib := Examples.asciiLib) Examples.bareButton
  /\ In (snapshot.mkScored Examples.bareButton
           (snapshot.scoreElement (lib := Examples.asciiLib) Examples.bareButton))
        (snapshot.scoreAll (lib := Examples.asciiLib) elems).
Proof.
  intros elems.
  destruct (proj2 (scoreElement_bounds (lib := Examples.asciiLib)
                     Examples.bareButton elems))
    as [Hscore Hkept]; [discriminate | discriminate | discriminate |].
  split; [exact Hscore | apply Hkept; right; left; reflexivity].
Defined.

(** A page with one paragraph and one button. *)
Lemma Collect_keeps_all_under_cap_witness :
  let elems := [Examples.paragraph; Examples.bareButton] in
  (length (snapshot.nonInteractiveElems (lib := Examples.asciiLib) elems) <= 50)%nat
  /\ length (snapshot.Elements
               (snapshot.Collect (lib := Examples.asciiLib) "t" "u" "x" elems))
     = length elems.
Proof.
  intros elems.
  assert (Hcap : (length (snapshot.nonInteractiveElems (lib := Examples.asciiLib)
                            elems) <= 50)%nat) by (vm_compute; lia).
  split; [exact Hcap|].
  exact (proj2 (Collect_keeps_all_under_cap (lib := Examples.asciiLib)
                  "t" "u" "x" elems Hcap)).
Defined.

(* ===================================================================== *)
(** * Properties of the planner: comments in the extracted object        *)
(* ===================================================================== *)

Section StripComments.
Import Go agent.

(** The byte tests of [removeJSONComments] at the two bytes that open a
    comment. *)
Ltac comment_opening :=
  cbn [stripComments];
  change (Ascii.eqb "/" backslash) with false;
  change (Ascii.eqb "/" dquote) with false;
  change (Ascii.eqb "/" "/") with true;
  change (Ascii.eqb "/" "*") with false;
  change (Ascii.eqb "*" "*") with true;
  change (Ascii.eqb "/" newline) with false;
  cbn [andb negb].

Lemma strip_Plain (s : string) :
  Plain s ->
  forall rest : string,
    stripComments Code false false (s +:+ rest)
    = s +:+ stripComments Code false false rest.
Proof.
  induction 1 as [|c s Hq Hs _ IH|body s Hbody _ IH]; intros rest.
  - reflexivity.
  - rewrite !append_cons, strip_plain by auto. now rewrite IH.
  - rewrite !append_cons, !append_assoc, !append_cons. cbn [stripComments].
    change (Ascii.eqb dquote backslash) with false.
    change (Ascii.eqb dquote dquote) with true. cbn [andb negb].
    rewrite strip_StrBody by exact Hbody. now rewrite IH.
Qed.

Lemma append_empty_r (s : string) : s +:+ "" = s.
Proof. induction s as [|c s IH]; [reflexivity|]. now rewrite append_cons, IH. Qed.

(** X7.  Text whose string literals are closed and that has no slash
    outside them is returned unchanged: slashes inside string literals
    (URLs, say) never start a comment. *)
Theorem removeJSONComments_plain (s : string) :
  Plain s -> removeJSONComments s = s.
Proof.
  intros Hs. unfold removeJSONComments.
  rewrite <- (append_empty_r s) at 1.
  rewrite strip_Plain by exact Hs. cbn. apply append_empty_r.
Qed.

Lemma strip_line (c : string) :
  hasByte newline c = false ->
  forall (inStr esc : bool) (rest : string),
    stripComments LineComment inStr esc (c +:+ String newline rest)
    = String newline (stripComments Code inStr esc rest)
    /\ stripComments LineComment inStr esc c = "".
Proof.
  induction c as [|x c IH]; intros Hc inStr esc rest.
  - rewrite append_nil. cbn [stripComments].
    change (Ascii.eqb newline newline) with true. split; reflexivity.
  - cbn [hasByte] in Hc. apply orb_false_iff in Hc as [Hx Hc].
    rewrite append_cons. cbn [stripComments]. rewrite Hx.
    exact (IH Hc inStr esc rest).
Qed.

(** X8.  A [//] comment that starts outside string literals is removed
    up to the end of its line, the newline is kept and the text after it
    is treated in the same way; a comment that no newline ends is removed
    to the end of the text. *)
Theorem removeJSONComments_line_comment (before comment after : string) :
  Plain before -> hasByte newline comment = false ->
  removeJSONComments (before +:+ "//" +:+ comment +:+ String newline after)
  = before +:+ String newline (removeJSONComments after)
  /\ removeJSONComments (before +:+ "//" +:+ comment) = before.
Proof.
  intros Hbefore Hcomment. unfold removeJSONComments.
  destruct (strip_line comment Hcomment false false after) as [Hline Hend].
  split.
  - rewrite strip_Plain by exact Hbefore.
    change ("//" +:+ comment +:+ String newline after)
      with (String "/" (String "/" (comment +:+ String newline after))).
    comment_opening. now rewrite Hline.
  - rewrite strip_Plain by exact Hbefore.
    change ("//" +:+ comment) with (String "/" (String "/" comment)).
    comment_opening. rewrite Hend. apply append_empty_r.
Qed.

Lemma strip_block (c : string) :
  Contains c "*/" = false ->
  forall (inStr esc : bool) (rest : string),
    stripComments BlockComment inStr esc (c +:+ "*/" +:+ rest)
    = stripComments Code inStr esc rest
    /\ stripComments BlockComment inStr esc c = lastByte c.
Proof.
  induction c as [|x c IH]; intros Hc inStr esc rest.
  - rewrite append_nil. split; reflexivity.
  - cbn [Contains] in Hc. apply orb_false_iff in Hc as [Hhead Hc].
    specialize (IH Hc inStr esc rest). destruct IH as [IHend IHopen].
    rewrite append_cons. split.
    + destruct c as [|y c].
      * rewrite append_nil.
        change ("*/" +:+ rest) with (String "*" (String "/" rest)).
        cbn [stripComments].
        change (Ascii.eqb "*" "/") with false. rewrite andb_false_r.
        rewrite append_nil in IHend. exact IHend.
      * rewrite append_cons. cbn [stripComments].
        rewrite append_cons in IHend.
        assert (Hno : Ascii.eqb x "*" && Ascii.eqb y "/" = false).
        { cbn in Hhead.
          destruct (Ascii.eqb x "*") eqn:Hx; [|reflexivity].
          apply Ascii.eqb_eq in Hx. subst x. cbn in Hhead.
          destruct (Ascii.eqb y "/") eqn:Hy; [|reflexivity].
          apply Ascii.eqb_eq in Hy. subst y. cbn in Hhead.
          destruct c; discriminate Hhead. }
        rewrite Hno. exact IHend.
    + destruct c as [|y c]; [reflexivity|].
      cbn [stripComments lastByte].
      assert (Hno : Ascii.eqb x "*" && Ascii.eqb y "/" = false).
      { cbn in Hhead.
        destruct (Ascii.eqb x "*") eqn:Hx; [|reflexivity].
        apply Ascii.eqb_eq in Hx. subst x. cbn in Hhead.
        destruct (Ascii.eqb y "/") eqn:Hy; [|reflexivity].
        apply Ascii.eqb_eq in Hy. subst y. cbn in Hhead.
        destruct c; discriminate Hhead. }
      rewrite Hno. exact IHopen.
Qed.

(** X9.  A block comment that starts outside string literals is removed
    together with its delimiters, and the text after it is treated in the
    same way.  When the comment is never closed, everything from its
    opening on is removed except the last byte of the text, which the
    inner loop does not reach and the outer loop then writes. *)
Theorem removeJSONComments_block_comment (before comment after : string) :
  Plain before -> Contains comment "*/" = false ->
  removeJSONComments (before +:+ "/*" +:+ comment +:+ "*/" +:+ after)
  = before +:+ removeJSONComments after
  /\ removeJSONComments (before +:+ "/*" +:+ comment)
     = before +:+ lastByte comment.
Proof.
  intros Hbefore Hcomment. unfold removeJSONComments.
  destruct (strip_block comment Hcomment false false after) as [Hblock Hopen].
  split.
  - rewrite strip_Plain by exact Hbefore.
    change ("/*" +:+ comment +:+ "*/" +:+ after)
      with (String "/" (String "*" (comment +:+ "*/" +:+ after))).
    comment_opening. now rewrite Hblock.
  - rewrite strip_Plain by exact Hbefore.
    change ("/*" +:+ comment) with (String "/" (String "*" comment)).
    comment_opening. now rewrite Hopen.
Qed.

End StripComments.

(* ===================================================================== *)
(** * Properties of the planner: what [extractJSON] can return           *)
(* ===================================================================== *)

Section ExtractShape.
Import Go agent.
Context {lib : Lib} {env : Env}.

Lemma scan_no_brace (rest : string) :
  hasByte "{" rest = false ->
  forall (text : string) (i : nat) (start : Z) (inStr esc : bool),
    scanJSON text rest i 0 start inStr esc = inr "json not found".
Proof.
  induction rest as [|ch rest IH]; intros Hno text i start inStr esc;
    [reflexivity|].
  cbn [hasByte] in Hno. apply orb_false_iff in Hno as [Hch Hno].
  cbn [scanJSON]. rewrite Hch.
  destruct esc; [now apply IH|].
  destruct (Ascii.eqb ch backslash); [now apply IH|].
  destruct (Ascii.eqb ch dquote); [now apply IH|].
  destruct (Ascii.eqb ch "}"); [|now apply IH].
  rewrite andb_false_r. now apply IH.
Qed.

(** X10.  A text without an opening brace holds no object: [extractJSON]
    answers [json not found], and [parseDecision] passes this error on
    without decoding anything. *)
Theorem extractJSON_no_brace (text : string) :
  hasByte "{" text = false ->
  extractJSON text = inr "json not found"
  /\ parseDecision text = inr "json not found".
Proof.
  intros Hno.
  assert (Hjson : extractJSON text = inr "json not found")
    by (now apply scan_no_brace).
  split; [exact Hjson|]. unfold parseDecision. now rewrite Hjson.
Qed.

Lemma get_middle (pre : string) (c : ascii) (rest : string) :
  String.get (String.length pre) (pre +:+ String c rest) = Some c.
Proof.
  induction pre as [|x pre IH]; [reflexivity|].
  rewrite append_cons. exact IH.
Qed.

Lemma append_snoc (pre : string) (c : ascii) (rest : string) :
  pre +:+ String c rest = (pre +:+ String c "") +:+ rest.
Proof. now rewrite append_assoc, append_cons, append_nil. Qed.

Lemma scan_shape (rest : string) :
  forall (text pre : string) (i depth : nat) (start : Z) (inStr esc : bool)
         (js : string),
    text = pre +:+ rest -> String.length pre = i ->
    (depth = O
     \/ exists s : nat, start = Z.of_nat s /\ (s < i)%nat
                        /\ String.get s text = Some "{"%char) ->
    scanJSON text rest i depth start inStr esc = inl js ->
    exists s e : nat,
      (s < e <= len text)%nat
      /\ String.get s text = Some "{"%char
      /\ String.get (e - 1) text = Some "}"%char
      /\ js = removeJSONComments (slice text s e).
Proof.
  induction rest as [|ch rest IH];
    intros text pre i depth start inStr esc js Htext Hpre Hinv Hscan;
    [discriminate Hscan|].
  assert (Hget : String.get i text = Some ch)
    by (subst i text; apply get_middle).
  assert (Hlen : (i < len text)%nat).
  { subst i text. unfold len. rewrite append_length. cbn [String.length]. lia. }
  assert (Hnext : forall depth' start' inStr' esc',
             (depth' = O
              \/ exists s : nat, start' = Z.of_nat s /\ (s < S i)%nat
                                 /\ String.get s text = Some "{"%char) ->
             scanJSON text rest (S i) depth' start' inStr' esc' = inl js ->
             exists s e : nat,
               (s < e <= len text)%nat
               /\ String.get s text = Some "{"%char
               /\ String.get (e - 1) text = Some "}"%char
               /\ js = removeJSONComments (slice text s e)).
  { intros depth' start' inStr' esc' Hinv' Hscan'.
    apply (IH text (pre +:+ String ch "") (S i) depth' start' inStr' esc' js);
      [rewrite Htext; apply append_snoc
      | rewrite append_length; cbn [String.length]; lia
      | exact Hinv' | exact Hscan']. }
  assert (Hkeep : depth = O
                  \/ exists s : nat, start = Z.of_nat s /\ (s < S i)%nat
                                     /\ String.get s text = Some "{"%char).
  { destruct Hinv as [-> | (s & Hs & Hlt & Hg)]; [now left|].
    right. exists s. repeat split; [exact Hs | lia | exact Hg]. }
  cbn [scanJSON] in Hscan.
  destruct esc; [now apply Hnext in Hscan|].
  destruct (Ascii.eqb ch backslash); [now apply Hnext in Hscan|].
  destruct (Ascii.eqb ch dquote); [now apply Hnext in Hscan|].
  destruct (Ascii.eqb ch "{") eqn:Hopen.
  { apply Ascii.eqb_eq in Hopen. subst ch.
    destruct (negb inStr); [|now apply Hnext in Hscan].
    apply Hnext in Hscan; [exact Hscan|]. right.
    destruct (depth =? 0)%nat eqn:Hzero.
    - exists i. repeat split; [lia | exact Hget].
    - destruct Hkeep as [-> | Hs]; [discriminate Hzero | exact Hs]. }
  destruct (Ascii.eqb ch "}") eqn:Hclose; [|now apply Hnext in Hscan].
  apply Ascii.eqb_eq in Hclose. subst ch.
  destruct (negb inStr && (0 <? depth)%nat) eqn:Hdepth;
    [|now apply Hnext in Hscan].
  apply andb_true_iff in Hdepth as [_ Hdepth]. apply Nat.ltb_lt in Hdepth.
  destruct Hinv as [-> | (s & Hs & Hlt & Hg)]; [lia|].
  destruct ((depth - 1 =? 0)%nat && negb (start =? -1)) eqn:Hdone.
  - injection Hscan as <-. exists s, (i + 1)%nat.
    replace (i + 1 - 1)%nat with i by lia.
    subst start. rewrite Nat2Z.id. repeat split; [lia | lia | exact Hg | exact Hget].
  - apply Hnext in Hscan; [exact Hscan|]. right.
    exists s. repeat split; [exact Hs | lia | exact Hg].
Qed.

(** X11.  Whatever [extractJSON] returns is a piece of the text that
    starts with an opening brace and ends with a closing brace, with its
    comments removed. *)
Theorem extractJSON_braced (text js : string) :
  extractJSON text = inl js ->
  exists s e : nat,
    (s < e <= len text)%nat
    /\ String.get s text = Some "{"%char
    /\ String.get (e - 1) text = Some "}"%char
    /\ js = removeJSONComments (slice text s e).
Proof.
  intros Hjson.
  apply (scan_shape text text "" 0 0 (-1) false false js);
    [now rewrite append_nil | reflexivity | now left | exact Hjson].
Qed.

(** X12.  In every decision that [parseDecision] accepts, [Finish] is set
    exactly when the action is [finish], and a decision that does not
    finish carries no message. *)
Theorem parseDecision_finish_flag (text : string) (dec : Decision) :
  parseDecision text = inl dec ->
  (Finish dec = true <-> ActionName dec = "finish")
  /\ (Finish dec = false -> Message dec = "").
Proof.
  intros Hparse. unfold parseDecision in Hparse.
  destruct (extractJSON text) as [jsonStr|]; [|discriminate].
  destruct (Unmarshal jsonStr) as [parsed|]; [|discriminate].
  destruct (actionAndInput parsed) as [[action actionInput]|]; [|discriminate].
  cbn [ActionName] in Hparse.
  destruct (String.eqb (cleanActionName action) "finish") eqn:Hfinish.
  - destruct (String.eqb (finishMessage actionInput) "") eqn:Hmsg; [discriminate|].
    injection Hparse as <-. cbn [Finish ActionName Message].
    apply String.eqb_eq in Hfinish.
    split; [split; [intros _; exact Hfinish | reflexivity] | discriminate].
  - injection Hparse as <-. cbn [Finish ActionName Message].
    apply String.eqb_neq in Hfinish.
    split; [split; [discriminate | intros Hname; contradiction] | reflexivity].
Qed.

(** X13.  A decision in the [multi_tool_use.parallel] form is replaced by
    the first action of its input array: the action is the [name] of that
    entry (cleaned), the input is the entry without [name], and the other
    entries are dropped.  When the array is empty, when its first entry is
    not an object or has no [name] that is a string, the text is
    rejected. *)
Theorem parseDecision_parallel_first (text jsonStr : string)
    (parsed : parsedDecision) (first : gmap string any) (others : list any)
    (name : string) :
  extractJSON text = inl jsonStr ->
  Unmarshal jsonStr = inl parsed ->
  pAction parsed = "multi_tool_use.parallel" ->
  (pInput parsed = ASlice (AMap first :: others) ->
   first !! "name" = Some (AString name) ->
   cleanActionName name <> "finish" ->
   parseDecision text
   = inl (mkDecision (cleanActionName name) (delete "name" first) false ""
            (TrimSpace (pThinking parsed))
            (TrimSpace (pEvaluationPreviousGoal parsed))
            (TrimSpace (pMemory parsed)) (TrimSpace (pNextGoal parsed))))
  /\ (pInput parsed = ASlice []
      \/ (exists v, pInput parsed = ASlice (v :: others) /\ asMap (Some v) = None)
      \/ (pInput parsed = ASlice (AMap first :: others)
          /\ asString (first !! "name") = None)
      \/ asSlice (Some (pInput parsed)) = None ->
      parseDecision text
      = inr "multi_tool_use.parallel: failed to extract first action from input array").
Proof.
  intros Hjson Hdec Haction. unfold parseDecision. rewrite Hjson, Hdec.
  unfold actionAndInput. rewrite Haction, String.eqb_refl. split.
  - intros -> Hname Hfinish. cbn [asSlice]. rewrite Hname. cbn [asString ActionName].
    apply String.eqb_neq in Hfinish. now rewrite Hfinish.
  - intros [-> | [(v & -> & Hv) | [[-> Hname] | Hslice]]].
    + reflexivity.
    + cbn [asSlice]. destruct v; try reflexivity. discriminate Hv.
    + cbn [asSlice]. now rewrite Hname.
    + now rewrite Hslice.
Qed.

End ExtractShape.

Ltac plain_char := apply pl_char; [discriminate | discriminate |].
Ltac string_body :=
  repeat first [ apply sb_nil | apply sb_char; [discriminate | discriminate |] ].

(** An object with a URL. *)
Lemma withURL_Plain : Plain (Go.q "{'u':'http://x'}").
Proof.
  plain_char. apply (pl_str "u" (Go.q ":'http://x'}")); [string_body|].
  plain_char. apply (pl_str "http://x" "}"); [string_body|].
  plain_char. apply pl_nil.
Defined.

Lemma removeJSONComments_plain_witness :
  Plain (Go.q "{'u':'http://x'}")
  /\ agent.removeJSONComments (Go.q "{'u':'http://x'}") = Go.q "{'u':'http://x'}".
Proof.
  split; [exact withURL_Plain|].
  exact (removeJSONComments_plain (Go.q "{'u':'http://x'}") withURL_Plain).
Defined.

Lemma beforeComment_Plain : Plain (Go.q "{'a':1, ").
Proof.
  plain_char. apply (pl_str "a" ":1, "); [string_body|].
  repeat plain_char. apply pl_nil.
Defined.

(** A note at the end of a line of the object. *)
Lemma removeJSONComments_line_comment_witness :
  Plain (Go.q "{'a':1, ") /\ hasByte Go.newline " the count" = false
  /\ agent.removeJSONComments
       (Go.q "{'a':1, " +:+ "//" +:+ " the count"
        +:+ String Go.newline (Go.q "'b':2}"))
     = Go.q "{'a':1, " +:+ String Go.newline (agent.removeJSONComments (Go.q "'b':2}")).
Proof.
  split; [exact beforeComment_Plain|]. split; [reflexivity|].
  exact (proj1 (removeJSONComments_line_comment
                  (Go.q "{'a':1, ") " the count" (Go.q "'b':2}")
                  beforeComment_Plain eq_refl)).
Defined.

(** A block comment inside the object, and one that is never closed: the
    closing brace, being the last byte, survives. *)
Lemma removeJSONComments_block_comment_witness :
  Plain (Go.q "{'a':1, ") /\ Go.Contains " why }" "*/" = false
  /\ agent.removeJSONComments (Go.q "{'a':1, " +:+ "/*" +:+ " why }")
     = Go.q "{'a':1, " +:+ lastByte " why }".
Proof.
  split; [exact beforeComment_Plain|]. split; [reflexivity|].
  exact (proj2 (removeJSONComments_block_comment
                  (Go.q "{'a':1, ") " why }" ""
                  beforeComment_Plain eq_refl)).
Defined.

Lemma extractJSON_no_brace_witness :
  hasByte "{" "I cannot decide." = false
  /\ agent.parseDecision (lib := Examples.asciiLib) (env := Examples.scriptedEnv)
       "I cannot decide." = inr "json not found".
Proof.
  split; [reflexivity|].
  exact (proj2 (extractJSON_no_brace (lib := Examples.asciiLib)
                  (env := Examples.scriptedEnv) "I cannot decide." eq_refl)).
Defined.

Lemma extractJSON_braced_witness :
  exists s e : nat,
    (s < e <= Go.len ("Sure! " +:+ Examples.finishDone +:+ " Bye."))%nat
    /\ String.get s ("Sure! " +:+ Examples.finishDone +:+ " Bye.") = Some "{"%char
    /\ String.get (e - 1) ("Sure! " +:+ Examples.finishDone +:+ " Bye.")
       = Some "}"%char
    /\ Examples.finishDone
       = agent.removeJSONComments
           (Go.slice ("Sure! " +:+ Examples.finishDone +:+ " Bye.") s e).
Proof.
  exact (extractJSON_braced ("Sure! " +:+ Examples.finishDone +:+ " Bye.")
           Examples.finishDone eq_refl).
Defined.

Lemma parseDecision_finish_flag_witness :
  agent.parseDecision (lib := Examples.asciiLib) (env := Examples.scriptedEnv)
    Examples.finishDone
  = inl (agent.mkDecision "finish" (<["message" := Go.AString "done"]> ∅)
           true "done" "" "" "" "")
  /\ agent.ActionName
       (agent.mkDecision "finish" (<["message" := Go.AString "done"]> ∅)
          true "done" "" "" "" "") = "finish".
Proof.
  assert (Hparse :
    agent.parseDecision (lib := Examples.asciiLib) (env := Examples.scriptedEnv)
      Examples.finishDone
    = inl (agent.mkDecision "finish" (<["message" := Go.AString "done"]> ∅)
             true "done" "" "" "" "")) by reflexivity.
  split; [exact Hparse|].
  exact (proj1 (proj1 (parseDecision_finish_flag (lib := Examples.asciiLib)
                         (env := Examples.scriptedEnv) _ _ Hparse))
               eq_refl).
Defined.

Lemma parseDecision_parallel_first_witness :
  agent.parseDecision (lib := Examples.asciiLib) (env := Scenarios.parallelEnv)
    Scenarios.parallelText
  = inl (agent.mkDecision "fill" (delete "name" Scenarios.parallelFirst)
           false "" "" "" "" "").
Proof.
  exact (proj1 (parseDecision_parallel_first (lib := Examples.asciiLib)
                  (env := Scenarios.parallelEnv)
                  Scenarios.parallelText Scenarios.parallelText
                  (agent.mkParsed "" "" "" "" "multi_tool_use.parallel"
                     (Go.ASlice [ Go.AMap Scenarios.parallelFirst;
                                  Go.AMap (<["text" := Go.AString "Go"]>
                                             (<["name" := Go.AString "click_text"]> ∅)) ]))
                  Scenarios.parallelFirst _ "functions.fill"
                  eq_refl eq_refl eq_refl)
               eq_refl eq_refl ltac:(discriminate)).
Defined.

(* ===================================================================== *)
(** * Properties of the planner: the history shown to the service        *)
(* ===================================================================== *)

Section HistoryText.
Import Go agent.

Lemma Join_snoc (elems : list string) (s sep : string) :
  Join (elems ++ [s]) sep
  = match elems with
    | [] => s
    | _ => Join elems sep +:+ sep +:+ s
    end.
Proof.
  induction elems as [|x [|y elems] IH]; [reflexivity | reflexivity|].
  change ((x :: y :: elems) ++ [s]) with (x :: (y :: elems) ++ [s]).
  change (Join (x :: (y :: elems) ++ [s]) sep)
    with (x +:+ sep +:+ Join ((y :: elems) ++ [s]) sep).
  rewrite IH.
  change (Join (x :: y :: elems) sep) with (x +:+ sep +:+ Join (y :: elems) sep).
  now rewrite !append_assoc.
Qed.

Lemma historyBlocks_snoc (history : list HistoryItem) (item : HistoryItem) :
  forall i : nat,
    historyBlocks i (history ++ [item])
    = historyBlocks i history
      ++ [historyBlock (Z.of_nat (i + length history) + 1) item].
Proof.
  induction history as [|x history IH]; intros i; cbn [historyBlocks app length].
  - now rewrite Nat.add_0_r.
  - rewrite IH. do 2 f_equal. f_equal. f_equal. lia.
Qed.

(** X14.  [formatHistory] of the empty history is the empty text, and each
    further item adds one block, numbered by its position in the list,
    after a blank line; the text of the earlier items stays as it was. *)
Theorem formatHistory_append_item (history : list HistoryItem)
    (item : HistoryItem) :
  formatHistory [] = ""
  /\ formatHistory (history ++ [item])
     = match history with
       | [] => historyBlock 1 item
       | _ => formatHistory history +:+ String newline (String newline "")
              +:+ historyBlock (Z.of_nat (length history) + 1) item
       end.
Proof.
  split; [reflexivity|]. unfold formatHistory.
  rewrite length_app. cbn [length].
  replace (length history + 1 =? 0)%nat with false
    by (symmetry; apply Nat.eqb_neq; lia).
  rewrite historyBlocks_snoc, Join_snoc.
  destruct history as [|x history]; reflexivity.
Qed.

End HistoryText.

(* ===================================================================== *)
(** * Properties of the orchestrator: history window and loop guard      *)
(* ===================================================================== *)

Section HistoryWindow.
Import Go agent.

(** X15.  The hand-written [contains] is [strings.Contains]: it holds
    exactly when the text has an occurrence of the pattern; the empty
    pattern occurs in every text. *)
Theorem contains_is_substring_search (s substr : string) :
  contains s substr = Contains s substr
  /\ (contains s substr = true <-> occurs substr s)
  /\ contains s "" = true.
Proof.
  split; [apply contains_Contains|]. split; [apply contains_spec|].
  apply contains_spec. exists "", s. now rewrite !append_nil.
Qed.

Lemma countRecent_le (same : HistoryItem -> bool) (n : nat) :
  forall l, countRecent n l same <= Z.of_nat n.
Proof.
  induction n as [|n IH]; intros l; [cbn; lia|].
  destruct l as [|it l]; [cbn; lia|].
  cbn [countRecent]. specialize (IH l). destruct (same it); lia.
Qed.

Lemma countRecent_full (same : HistoryItem -> bool) (n : nat) :
  forall l,
    (n <= length l)%nat ->
    (Z.of_nat n <= countRecent n l same
     <-> Forall (fun it => same it = true) (take n l)).
Proof.
  induction n as [|n IH]; intros l Hlen.
  - cbn. split; [constructor | lia].
  - destruct l as [|it l]; [cbn in Hlen; lia|].
    cbn [countRecent take]. cbn [length] in Hlen.
    specialize (IH l ltac:(lia)). pose proof (countRecent_le same n l).
    destruct (same it) eqn:Hsame; split.
    + intros Hcount. constructor; [exact Hsame | apply IH; lia].
    + intros Hall. apply Forall_cons in Hall as [_ Hall]. apply IH in Hall. lia.
    + intros Hcount. lia.
    + intros Hall. apply Forall_cons in Hall as [Hit _]. congruence.
Qed.

Lemma countRecent_limit (same : HistoryItem -> bool) (limit : Z)
    (l : list HistoryItem) :
  0 < limit -> (Z.to_nat limit <= length l)%nat ->
  ((limit <=? countRecent (Z.to_nat limit) l same) = true
   <-> Forall (fun it => same it = true) (take (Z.to_nat limit) l)).
Proof.
  intros Hpos Hlen. rewrite Z.leb_le, <- countRecent_full by exact Hlen. lia.
Qed.

Lemma allRecent_full (action : string) (n : nat) :
  forall l,
    (n <= length l)%nat ->
    (allRecent n l action = true
     <-> Forall (fun it => Action it = action) (take n l)).
Proof.
  induction n as [|n IH]; intros l Hlen.
  - cbn. split; [constructor | reflexivity].
  - destruct l as [|it l]; [cbn in Hlen; lia|].
    cbn [allRecent take]. cbn [length] in Hlen.
    specialize (IH l ltac:(lia)).
    destruct (String.eqb (Action it) action) eqn:Hsame; cbn [negb].
    + apply String.eqb_eq in Hsame. rewrite IH. split.
      * intros Hall. now constructor.
      * intros Hall. now apply Forall_cons in Hall as [_ Hall].
    + apply String.eqb_neq in Hsame. split; [discriminate|].
      intros Hall. apply Forall_cons in Hall as [Hit _]. contradiction.
Qed.

Lemma take_rev_last (history : list HistoryItem) (n : nat) :
  (n <= length history)%nat ->
  take n (rev history) = rev (last history n).
Proof.
  intros Hlen. unfold last. rewrite firstn_rev.
  destruct (length history <=? n)%nat eqn:Hle; [|reflexivity].
  apply Nat.leb_le in Hle. replace (length history - n)%nat with 0%nat by lia.
  reflexivity.
Qed.

(** X16.  [tooManyRepeats] holds exactly when the limit is positive, the
    history has at least that many items, and each of its last [limit]
    items repeats the decision: the same action, for [click_selector] also
    the same selector and URL, for [click_by_index] also the same URL. *)
Theorem tooManyRepeats_iff (history : list HistoryItem) (action : string)
    (input : gmap string any) (limit : Z) :
  tooManyRepeats history action input limit = true
  <-> 0 < limit /\ limit <= Z.of_nat (length history)
      /\ Forall (repeats action input) (last history (Z.to_nat limit)).
Proof.
  unfold tooManyRepeats.
  destruct (limit <=? 0) eqn:Hpos.
  { apply Z.leb_le in Hpos. split; [discriminate | lia]. }
  apply Z.leb_gt in Hpos.
  destruct (Z.of_nat (length history) <? limit) eqn:Hshort.
  { apply Z.ltb_lt in Hshort. split; [discriminate | lia]. }
  apply Z.ltb_ge in Hshort.
  assert (Hn : (Z.to_nat limit <= length history)%nat) by lia.
  assert (Hlen : (Z.to_nat limit <= length (rev history))%nat)
    by (now rewrite length_rev).
  assert (Hlimit : limit = Z.of_nat (Z.to_nat limit)) by lia.
  assert (Hwindow : forall P : HistoryItem -> Prop,
             Forall P (take (Z.to_nat limit) (rev history))
             <-> Forall P (last history (Z.to_nat limit))).
  { intros P. rewrite take_rev_last by exact Hn. split; intros Hall.
    - apply Forall_rev in Hall. now rewrite rev_involutive in Hall.
    - now apply Forall_rev. }
  unfold repeats.
  destruct (String.eqb action "click_selector") eqn:Hsel.
  - apply String.eqb_eq in Hsel. subst action.
    rewrite countRecent_limit by assumption. rewrite Hwindow.
    split.
    + intros Hall. split; [lia|]. split; [lia|].
      eapply Forall_impl; [exact Hall|]. intros it Hit. cbn beta in Hit.
      apply andb_true_iff in Hit as [Hit Hurl].
      apply andb_true_iff in Hit as [Hact Hs].
      apply String.eqb_eq in Hact, Hs, Hurl.
      split; [exact Hact|]. split; [auto | discriminate].
    + intros (_ & _ & Hall). eapply Forall_impl; [exact Hall|].
      intros it (Hact & Hs & _). destruct (Hs eq_refl) as [Hsel Hurl].
      cbn beta. rewrite Hact, Hsel, Hurl. now rewrite !String.eqb_refl.
  - apply String.eqb_neq in Hsel.
    destruct (String.eqb action "click_by_index") eqn:Hidx.
    + apply String.eqb_eq in Hidx. subst action.
      rewrite countRecent_limit by assumption. rewrite Hwindow.
      split.
      * intros Hall. split; [lia|]. split; [lia|].
        eapply Forall_impl; [exact Hall|]. intros it Hit. cbn beta in Hit.
        apply andb_true_iff in Hit as [Hact Hurl].
        apply String.eqb_eq in Hact, Hurl.
        split; [exact Hact|]. split; [discriminate | auto].
      * intros (_ & _ & Hall). eapply Forall_impl; [exact Hall|].
        intros it (Hact & _ & Hurl). specialize (Hurl eq_refl).
        cbn beta. rewrite Hact, Hurl. now rewrite !String.eqb_refl.
    + apply String.eqb_neq in Hidx.
      rewrite allRecent_full by exact Hlen. rewrite Hwindow.
      split.
      * intros Hall. split; [lia|]. split; [lia|].
        eapply Forall_impl; [exact Hall|]. intros it Hit. cbn beta in Hit.
        split; [exact Hit|]. split; intros Heq; contradiction.
      * intros (_ & _ & Hall). eapply Forall_impl; [exact Hall|].
        now intros it (Hact & _).
Qed.

(** X17.  The error history is a ring of ten: after [recordError] it ends
    with the new record, holds at most ten records, and has lost only
    records from its front, none while it held fewer than ten; the
    configuration and the task memory are untouched. *)
Theorem recordError_ring (o : Orchestrator) (rec : errorRecord) :
  (length (errorHistory (recordError o rec)) <= 10)%nat
  /\ (exists dropped kept,
         errorHistory o = dropped ++ kept
         /\ errorHistory (recordError o rec) = kept ++ [rec]
         /\ ((length (errorHistory o) < 10)%nat -> dropped = []))
  /\ cfg (recordError o rec) = cfg o
  /\ memory (recordError o rec) = memory o.
Proof.
  unfold recordError. cbn [errorHistory cfg memory].
  rewrite length_app. cbn [length].
  destruct (10 <? length (errorHistory o) + 1)%nat eqn:Hfull.
  - apply Nat.ltb_lt in Hfull. split; [rewrite length_drop, length_app; cbn; lia|].
    split; [|split; reflexivity].
    exists (take (length (errorHistory o) + 1 - 10) (errorHistory o)),
           (drop (length (errorHistory o) + 1 - 10) (errorHistory o)).
    split; [now rewrite take_drop|]. split; [|lia].
    rewrite drop_app_le by lia. reflexivity.
  - apply Nat.ltb_ge in Hfull. split; [rewrite length_app; cbn; lia|].
    split; [|split; reflexivity].
    exists [], (errorHistory o). auto.
Qed.

End HistoryWindow.

(* ===================================================================== *)
(** * Properties of the orchestrator: what a run of [Run] consists of    *)
(* ===================================================================== *)

Section Programs.
Context {E : Type -> Type}.

Lemma safe_bind {A B : Type} (P : forall X, E X -> Prop) (Q : B -> Prop)
    (p : Prog E A) (f : A -> Prog E B) :
  safe P (fun a => safe P Q (f a)) p -> safe P Q (bind p f).
Proof.
  induction p as [a|X e k IH]; cbn; [tauto|].
  intros [He Hk]. split; [exact He|]. intros x. apply IH, Hk.
Qed.

Lemma safe_mono {A : Type} (P P' : forall X, E X -> Prop) (Q Q' : A -> Prop)
    (p : Prog E A) :
  (forall X (e : E X), P X e -> P' X e) -> (forall a, Q a -> Q' a) ->
  safe P Q p -> safe P' Q' p.
Proof.
  intros HP HQ. induction p as [a|X e k IH]; cbn; [apply HQ|].
  intros [He Hk]. split; [now apply HP|]. intros x. apply IH, Hk.
Qed.

Lemma safe_post {A : Type} (P : forall X, E X -> Prop) (Q Q' : A -> Prop)
    (p : Prog E A) :
  (forall a, Q a -> Q' a) -> safe P Q p -> safe P Q' p.
Proof. apply safe_mono. auto. Qed.

Lemma safe_runs {A : Type} (P : forall X, E X -> Prop) (Q : A -> Prop)
    (p : Prog E A) (tr : list (Obs E)) (a : A) :
  safe P Q p -> runs p tr a -> Forall (obeys P) tr /\ Q a.
Proof.
  revert tr. induction p as [a'|X e k IH]; intros tr; cbn.
  - intros HQ [-> ->]. split; [constructor | exact HQ].
  - intros [He Hk] (x & tr' & -> & Hrun).
    destruct (IH x tr' (Hk x) Hrun) as [Hall HQ].
    split; [constructor; [exact He | exact Hall] | exact HQ].
Qed.

End Programs.

Section StepWalk.
Import Go agent.
Context {lib : Lib} {env : Env}.

Lemma attempt_safe (name : string) (input : gmap string any) :
  name <> "click_by_index" -> safe quiet named (attempt name input).
Proof.
  intros Hname. cbn. split; [exact Hname|].
  intros [result|err]; [exact Hname | exact I].
Qed.

Lemma nothing_safe : safe quiet named nothing.
Proof. exact I. Qed.

Lemma orElse_safe (p q : Prog E (option (string * tools.Result))) :
  safe quiet named p -> safe quiet named q ->
  safe quiet named (orElse p q).
Proof.
  intros Hp Hq. unfold orElse. apply safe_bind.
  apply (safe_post quiet named); [|exact Hp].
  intros [[name result]|] Hname; [exact Hname | exact Hq].
Qed.

Lemma tryAlternatives_safe (alternatives : list alternativeAction) :
  Forall (fun alt => altAction alt <> "click_by_index") alternatives ->
  safe quiet named (tryAlternatives alternatives).
Proof.
  induction 1 as [|alt rest Halt _ IH]; [exact I|].
  cbn. split; [exact Halt|]. intros [result|err]; [exact Halt | exact IH].
Qed.

Lemma generateAlternatives_names (dec : Decision) (summary : snapshot.Summary) :
  Forall (fun alt => altAction alt <> "click_by_index")
         (generateAlternatives dec summary).
Proof.
  unfold generateAlternatives.
  repeat match goal with
         | |- context [if ?b then _ else _] => destruct b
         | |- context [match ?x with _ => _ end] => destruct x
         end;
    repeat first [ apply List.Forall_nil | apply List.Forall_cons
                 | apply Forall_app; split ];
    cbn; discriminate.
Qed.

Lemma findSimilarIn_name (searchText : string) (elements : list snapshot.Element) :
  altAction (findSimilarIn searchText elements) <> "click_by_index".
Proof.
  induction elements as [|elem rest IH]; cbn [findSimilarIn]; [discriminate|].
  repeat match goal with
         | |- context [if ?b then _ else _] => destruct b
         end; try exact IH; discriminate.
Qed.

Lemma scrollToElement_safe (summary : snapshot.Summary) :
  safe quiet anything (scrollToElement summary).
Proof.
  unfold scrollToElement.
  destruct (existsb _ _); [|exact I].
  cbn. split; [discriminate|]. intros [result|err]; exact I.
Qed.

(** A branch of the program under the walk. *)
Ltac branch :=
  match goal with
  | |- safe _ _ (if ?b then _ else _) => destruct b eqn:?
  | |- safe _ _ (match ?x with _ => _ end) => destruct x eqn:?
  end.

(** The recovery procedure invokes no tool under the name
    [click_by_index], and the name it reports is not [click_by_index]. *)
Lemma handleErrorAdaptively_safe (o : Orchestrator) (dec : Decision)
    (summary : snapshot.Summary) :
  ActionName dec <> "click_by_index" ->
  safe quiet (fun recovered => fst (fst recovered) <> "click_by_index")
       (handleErrorAdaptively o dec summary).
Proof.
  intros Hname. unfold handleErrorAdaptively.
  branch; [cbn; discriminate|]. cbn zeta.
  apply safe_bind.
  apply (safe_post quiet named);
    [intros [[recoveredAction recoveredResult]|] Hrecovered;
     [exact Hrecovered | cbn; discriminate]|].
  repeat apply orElse_safe.
  - branch; [|exact I].
    cbn. split; [exact I|]. intros []. split; [exact I|]. intros _.
    split; [exact Hname|]. intros [result|err]; [exact Hname | exact I].
  - branch; [|exact I].
    repeat apply orElse_safe.
    + apply tryAlternatives_safe, generateAlternatives_names.
    + branch; [|exact I]. branch; [|exact I]. apply attempt_safe. discriminate.
    + branch; [|exact I]. branch. apply attempt_safe. discriminate.
  - branch; [|exact I]. branch; [|exact I].
    apply attempt_safe, findSimilarIn_name.
  - branch; [|exact I].
    apply safe_bind.
    apply (safe_post quiet anything); [|apply scrollToElement_safe].
    intros [err|] _; [exact I|].
    cbn. split; [exact I|]. intros [].
    split; [exact Hname|]. intros [result|err]; [exact Hname | exact I].
Qed.

Lemma stepPost_cfg (finished : Prop) (o o1 : Orchestrator)
    (history : list HistoryItem) (flow : Flow) :
  cfg o1 = cfg o -> stepPost finished o1 history flow ->
  stepPost finished o history flow.
Proof.
  intros Hcfg. destruct flow as [o' history'|[err|]]; cbn; [|auto | auto].
  intros [Ho' Hnew]. split; [congruence | exact Hnew].
Qed.

Lemma stepPost_one (finished : Prop) (o o' : Orchestrator)
    (history : list HistoryItem) (it : HistoryItem) :
  cfg o' = cfg o -> Action it <> "click_by_index" ->
  stepPost finished o history (Continue o' (history ++ [it])).
Proof.
  intros Hcfg Hit. split; [exact Hcfg|]. exists [it]. cbn.
  split; [reflexivity|]. split; [lia|]. repeat constructor. exact Hit.
Qed.

Lemma stepPost_two (finished : Prop) (o o' : Orchestrator)
    (history : list HistoryItem) (it1 it2 : HistoryItem) :
  cfg o' = cfg o ->
  Action it1 <> "click_by_index" -> Action it2 <> "click_by_index" ->
  stepPost finished o history (Continue o' ((history ++ [it1]) ++ [it2])).
Proof.
  intros Hcfg Hit1 Hit2. split; [exact Hcfg|]. exists [it1; it2]. cbn.
  split; [now rewrite <- app_assoc|]. split; [lia|].
  repeat constructor; assumption.
Qed.

(** The action of a recorded item is not [click_by_index]: it is the
    action of the resolved decision, the name that the recovery reported,
    or a literal. *)
Ltac not_index :=
  first [ assumption | cbn; first [assumption | discriminate] ].

(** One step of the walk through a program: a call, a branch, a return. *)
Ltac walk :=
  repeat first
    [ apply stepPost_one; [reflexivity | not_index]
    | apply stepPost_two; [reflexivity | not_index | not_index]
    | match goal with
      | |- _ /\ _ => split
      | |- forall _, _ => intro
      | |- True => exact I
      | |- _ <> _ => discriminate
      | |- safe _ _ (if ?b then _ else _) => destruct b eqn:?
      | |- safe _ _ (match ?x with _ => _ end) => destruct x eqn:?
      | |- safe _ _ (let '(_, _) := ?x in _) => destruct x eqn:?
      | |- safe _ _ (mbind _ (if ?b then _ else _)) => destruct b eqn:?
      | |- safe _ _ (mbind _ (match ?x with _ => _ end)) => destruct x eqn:?
      | |- safe _ _ (bind (if ?b then _ else _) _) => destruct b eqn:?
      | |- safe _ _ (bind (match ?x with _ => _ end) _) => destruct x eqn:?
      end
    | progress cbn [safe bind call mbind mret Prog_bind Prog_ret quiet] ].

Lemma afterReobserve_safe (o : Orchestrator) (history : list HistoryItem)
    (step : Z) (summary : snapshot.Summary) (dec : Decision) (err : error)
    (errorType : string) (freshSummary : snapshot.Summary) :
  ActionName dec <> "click_by_index" ->
  safe quiet (stepPost False o history)
       (afterReobserve o history step summary dec err errorType freshSummary).
Proof.
  intros Hname. unfold afterReobserve. cbn zeta.
  destruct (String.eqb errorType "timeout" && _); [walk|].
  apply safe_bind.
  apply (safe_post quiet (fun recovered => fst (fst recovered) <> "click_by_index"));
    [|apply handleErrorAdaptively_safe; exact Hname].
  intros [[recoveredAction recoveredResult] success] Hrecovered.
  cbn [fst] in Hrecovered.
  destruct success; walk.
Qed.

Lemma onToolError_safe (o : Orchestrator) (history : list HistoryItem)
    (step : Z) (summary : snapshot.Summary) (dec : Decision) (err : error) :
  ActionName dec <> "click_by_index" ->
  safe quiet (stepPost False o history)
       (onToolError o history step summary dec err).
Proof.
  intros Hname. unfold onToolError. cbn zeta.
  destruct (String.eqb (analyzeError err) "selector_parse_error"); [walk|].
  walk.
  eapply safe_post; [|apply afterReobserve_safe; exact Hname].
  intros flow. apply stepPost_cfg. reflexivity.
Qed.

Lemma onToolSuccess_safe (o : Orchestrator) (history : list HistoryItem)
    (step : Z) (summary : snapshot.Summary) (dec : Decision)
    (result : tools.Result) :
  ActionName dec <> "click_by_index" ->
  safe quiet (stepPost False o history)
       (onToolSuccess o history step summary dec result).
Proof.
  intros Hname. unfold onToolSuccess. cbn zeta. walk.
Qed.

Lemma invokeStage_safe (o : Orchestrator) (history : list HistoryItem)
    (step : Z) (summary : snapshot.Summary) (dec : Decision)
    (foundElement : option snapshot.Element) :
  ActionName dec <> "click_by_index" ->
  safe quiet (stepPost False o history)
       (invokeStage o history step summary dec foundElement).
Proof.
  intros Hname. unfold invokeStage.
  cbn [safe bind call mbind mret Prog_bind Prog_ret quiet].
  split; [exact Hname|]. intros [result|err].
  - apply onToolSuccess_safe, Hname.
  - cbn zeta.
    match goal with
    | |- safe _ _ (match ?fallback with _ => _ end) => destruct fallback as [[x y]|]
    end.
    + cbn [safe bind call mbind mret Prog_bind Prog_ret quiet].
      split; [discriminate|]. intros [coordResult|coordErr].
      * apply onToolSuccess_safe, Hname.
      * apply onToolError_safe, Hname.
    + apply onToolError_safe, Hname.
Qed.

Lemma blockCaptcha_name (summary : snapshot.Summary) (dec : Decision) :
  ActionName (blockCaptcha summary dec) = ActionName dec
  \/ ActionName (blockCaptcha summary dec) = "request_user_input".
Proof.
  unfold blockCaptcha.
  repeat match goal with
         | |- context [if ?b then _ else _] => destruct b
         end; auto.
Qed.

Lemma resolveClickByIndex_name (summary : snapshot.Summary) (dec dec' : Decision)
    (foundElement : option snapshot.Element) :
  resolveClickByIndex summary dec = inl (dec', foundElement) ->
  ActionName dec' <> "click_by_index" /\ Finish dec' = Finish dec.
Proof.
  unfold resolveClickByIndex.
  destruct (String.eqb (ActionName dec) "click_by_index") eqn:Hname.
  - repeat match goal with
           | |- context [if ?b then _ else _] => destruct b
           | |- context [match ?x with _ => _ end] => destruct x
           end;
      intros Heq; try discriminate Heq;
      injection Heq as <- <-; split; (discriminate || reflexivity).
  - intros Heq. injection Heq as <- <-. apply String.eqb_neq in Hname. auto.
Qed.

Lemma confirmStage_safe (o : Orchestrator) (history : list HistoryItem)
    (step : Z) (summary : snapshot.Summary) (dec : Decision) :
  safe quiet (stepPost False o history)
       (confirmStage o history step summary dec).
Proof.
  rewrite confirmStage_proceeds.
  destruct (resolveClickByIndex summary (blockCaptcha summary dec))
    as [[dec' foundElement]|err] eqn:Hresolve; [|exact I].
  apply resolveClickByIndex_name in Hresolve as [Hname _].
  eapply safe_post; [|apply invokeStage_safe; exact Hname].
  intros flow. apply stepPost_cfg. reflexivity.
Qed.

Lemma afterDecision_safe (o : Orchestrator) (history : list HistoryItem)
    (step : Z) (summary : snapshot.Summary) (dec : Decision) :
  safe quiet (stepPost (Finish dec = true) o history)
       (afterDecision o history step summary dec).
Proof.
  unfold afterDecision. destruct (Finish dec) eqn:Hfinish.
  - cbn. split; [exact I|]. intros []. reflexivity.
  - cbn zeta. destruct (tooManyRepeats _ _ _ _); [exact I|].
    eapply safe_post; [|apply confirmStage_safe].
    intros [o' history'|[err|]]; cbn; tauto.
Qed.

End StepWalk.

Section RunShape.
Import Go agent.
Context {lib : Lib} {env : Env}.

Lemma quiet_trace (tr : list (Obs E)) :
  Forall (obeys quiet) tr ->
  plannerCalls tr = [] /\ decisions tr = [] /\ Forall (obeys resolved) tr.
Proof.
  induction 1 as [|[X e x] tr Hob _ (IHp & IHd & IHr)];
    [repeat split; constructor|].
  destruct e; cbn in Hob; try contradiction;
    (split; [exact IHp|]; split; [exact IHd|]; constructor; [exact Hob || exact I | exact IHr]).
Qed.

(** What an iteration of [Run] does: it asks the planner at most once,
    invokes no tool under the name [click_by_index], and ends as
    [stepPost] says, without error only after a decision that
    finishes. *)
Lemma runStep_shape (task : string) (o : Orchestrator)
    (history : list HistoryItem) (step : Z) (tr : list (Obs E)) (flow : Flow) :
  runs (runStep task o history step) tr flow ->
  (length (plannerCalls tr) <= 1)%nat
  /\ Forall (obeys resolved) tr
  /\ match flow with
     | Return (Some _) => True
     | _ => exists dec,
              decisions tr = [dec]
              /\ stepPost (Finish dec = true) o history flow
     end.
Proof.
  intros Hrun. unfold runStep in Hrun.
  cbn [runs bind call mbind mret Prog_bind Prog_ret] in Hrun.
  destruct Hrun as ([ctxErr|] & tr0 & -> & Hrun).
  { cbn in Hrun. destruct Hrun as [-> ->].
    split; [cbn; lia|]. split; [repeat constructor | exact I]. }
  apply runs_bind in Hrun as ([] & tr1 & tr2 & -> & Hwait & Hrun).
  assert (Hquiet1 : plannerCalls tr1 = [] /\ decisions tr1 = []
                    /\ Forall (obeys resolved) tr1).
  { destruct (history !! (length history - 1)%nat) as [it|];
      [destruct (String.eqb (Action it) "navigate")|];
      cbn in Hwait.
    - destruct Hwait as (x & tr' & -> & [-> _]). repeat split; repeat constructor.
    - destruct Hwait as [-> _]. repeat split; constructor.
    - destruct Hwait as [-> _]. repeat split; constructor. }
  destruct Hquiet1 as (Hp1 & Hd1 & Hr1).
  cbn [runs bind call mbind mret Prog_bind Prog_ret] in Hrun.
  destruct Hrun as (summary & tr3 & -> & [] & tr4 & -> & described & tr5 & ->
                    & planned & tr6 & -> & Hrun).
  unfold plannerCalls, decisions in *. cbn [omap list_omap plannerCallOf decisionOf].
  rewrite !omap_app, Hp1, Hd1. cbn [omap list_omap plannerCallOf decisionOf app].
  destruct planned as [dec|err].
  - pose proof (safe_runs _ _ _ _ _ (afterDecision_safe o history step summary dec)
                          Hrun) as [Hquiet Hpost].
    apply quiet_trace in Hquiet as (Hp & Hd & Hr).
    unfold plannerCalls, decisions in Hp, Hd. cbn. rewrite Hp, Hd.
    split; [cbn; lia|]. split.
    + constructor; [exact I|].
      apply Forall_app. split; [exact Hr1|]. repeat (constructor; [exact I|]).
      exact Hr.
    + destruct flow as [o' history'|[e|]]; [|exact I|]; exists dec; auto.
  - cbn in Hrun. destruct Hrun as [-> ->]. cbn.
    split; [lia|]. split; [|exact I].
    constructor; [exact I|].
    apply Forall_app. split; [exact Hr1|]. repeat constructor.
Qed.

Lemma runLoop_shape (n : nat) :
  forall (task : string) (o : Orchestrator) (history : list HistoryItem)
         (step : Z) (tr : list (Obs E)) (r : option error),
    runs (runLoop n task o history step) tr r ->
    (length (plannerCalls tr) <= n)%nat
    /\ Forall (obeys resolved) tr
    /\ (r = None ->
        exists earlier dec, decisions tr = earlier ++ [dec] /\ Finish dec = true).
Proof.
  induction n as [|n IH]; intros task o history step tr r Hrun.
  - cbn in Hrun. destruct Hrun as [-> ->].
    split; [cbn; lia|]. split; [constructor | discriminate].
  - cbn [runLoop] in Hrun.
    apply runs_bind in Hrun as (flow & tr1 & tr2 & -> & Hstep & Hrest).
    apply runStep_shape in Hstep as (Hp1 & Hr1 & Hflow).
    unfold plannerCalls, decisions in *. rewrite !omap_app, length_app.
    destruct flow as [o' history'|err].
    + apply IH in Hrest as (Hp2 & Hr2 & Hdone).
      unfold plannerCalls, decisions in *.
      split; [lia|]. split; [now apply Forall_app|].
      intros Hr. destruct (Hdone Hr) as (earlier & dec & -> & Hfinish).
      exists (omap decisionOf tr1 ++ earlier), dec.
      split; [now rewrite app_assoc | exact Hfinish].
    + cbn in Hrest. destruct Hrest as [-> ->]. cbn [omap list_omap length].
      rewrite !app_nil_r. split; [lia|]. split; [exact Hr1|].
      intros ->. destruct Hflow as (dec & -> & Hfinish).
      exists [], dec. split; [reflexivity | exact Hfinish].
Qed.

Lemma resolved_invoked (tr : list (Obs E)) :
  Forall (obeys resolved) tr -> ~ In "click_by_index" (invoked tr).
Proof.
  induction 1 as [|[X e x] tr Hob _ IH]; [intros []|].
  destruct e; cbn; try exact IH. intros [Heq | Hin]; [|now apply IH].
  cbn in Hob. congruence.
Qed.

(** X18.  [Run] asks the planner at most [MaxSteps] times. *)
Theorem Run_planner_calls_bounded (o : Orchestrator) (task : string)
    (tr : list (Obs E)) (r : option error) :
  runs (Run o task) tr r ->
  (length (plannerCalls tr) <= Z.to_nat (MaxSteps (cfg o)))%nat.
Proof. intros Hrun. now apply runLoop_shape in Hrun. Qed.

(** X19.  [Run] never invokes a tool under the name [click_by_index]:
    the decision is resolved to a selector or a role before the tool box
    is called, and neither the confirmation, the coordinate fallback nor
    any recovery strategy uses that name. *)
Theorem Run_never_invokes_click_by_index (o : Orchestrator) (task : string)
    (tr : list (Obs E)) (r : option error) :
  runs (Run o task) tr r -> ~ In "click_by_index" (invoked tr).
Proof.
  intros Hrun. apply runLoop_shape in Hrun as (_ & Hresolved & _).
  now apply resolved_invoked.
Qed.

(** X20.  [Run] returns without error only when the last decision of the
    planner was one that finishes the task. *)
Theorem Run_success_is_finish (o : Orchestrator) (task : string)
    (tr : list (Obs E)) :
  runs (Run o task) tr None ->
  exists earlier dec, decisions tr = earlier ++ [dec] /\ Finish dec = true.
Proof.
  intros Hrun. apply runLoop_shape in Hrun as (_ & _ & Hdone). now apply Hdone.
Qed.

(** X21.  An iteration of [Run] that continues has appended one or two
    items to the history, without touching the earlier ones, and has kept
    the configuration. *)
Theorem runStep_appends (task : string) (o o' : Orchestrator)
    (history history' : list HistoryItem) (step : Z) (tr : list (Obs E)) :
  runs (runStep task o history step) tr (Continue o' history') ->
  cfg o' = cfg o
  /\ exists new, history' = history ++ new /\ (1 <= length new <= 2)%nat.
Proof.
  intros Hrun.
  apply runStep_shape in Hrun as (_ & _ & dec & _ & Hcfg & new & Hnew & Hlen & _).
  split; [exact Hcfg|]. exists new. split; [exact Hnew | exact Hlen].
Qed.

End RunShape.

(** The run of two steps: a click by index, then [finish]. *)
Lemma clickStep_runs :
  runs (agent.runStep (lib := Examples.asciiLib) (env := Examples.scriptedEnv)
          "submit the form" Examples.orchestrator [] 1)
       Scenarios.clickStep
       (agent.Continue
          (agent.updateMemory
             (agent.updateMemory Examples.orchestrator "click_by_index"
                                 Scenarios.formWithSubmit)
             "click_selector" Examples.nextPage)
          ([] ++ [Scenarios.clickedItem])).
Proof.
  cbn. repeat (eexists; eexists; split; [reflexivity|]; cbn).
  split; reflexivity.
Defined.

Lemma submitRun_runs :
  runs (agent.Run (lib := Examples.asciiLib) (env := Examples.scriptedEnv)
          Examples.orchestrator "submit the form")
       (Scenarios.clickStep ++ Scenarios.finishStep) None.
Proof.
  cbn. repeat (eexists; eexists; split; [reflexivity|]; cbn).
  split; reflexivity.
Defined.

Lemma Run_planner_calls_bounded_witness :
  runs (agent.Run (lib := Examples.asciiLib) (env := Examples.scriptedEnv)
          Examples.orchestrator "submit the form")
       (Scenarios.clickStep ++ Scenarios.finishStep) None
  /\ (length (plannerCalls (Scenarios.clickStep ++ Scenarios.finishStep))
      <= Z.to_nat (agent.MaxSteps (agent.cfg Examples.orchestrator)))%nat.
Proof.
  split; [exact submitRun_runs|].
  exact (Run_planner_calls_bounded (lib := Examples.asciiLib)
           (env := Examples.scriptedEnv) _ _ _ _ submitRun_runs).
Defined.

Lemma Run_never_invokes_click_by_index_witness :
  In Examples.clickThird (decisions (Scenarios.clickStep ++ Scenarios.finishStep))
  /\ ~ In "click_by_index" (invoked (Scenarios.clickStep ++ Scenarios.finishStep)).
Proof.
  split; [left; reflexivity|].
  exact (Run_never_invokes_click_by_index (lib := Examples.asciiLib)
           (env := Examples.scriptedEnv) _ _ _ _ submitRun_runs).
Defined.

Lemma Run_success_is_finish_witness :
  exists earlier dec,
    decisions (Scenarios.clickStep ++ Scenarios.finishStep) = earlier ++ [dec]
    /\ agent.Finish dec = true.
Proof.
  exact (Run_success_is_finish (lib := Examples.asciiLib)
           (env := Examples.scriptedEnv) _ _ _ submitRun_runs).
Defined.

Lemma runStep_appends_witness :
  exists new,
    [] ++ [Scenarios.clickedItem] = [] ++ new /\ (1 <= length new <= 2)%nat.
Proof.
  exact (proj2 (runStep_appends (lib := Examples.asciiLib)
                  (env := Examples.scriptedEnv) _ _ _ _ _ _ _ clickStep_runs)).
Defined.

(* ===================================================================== *)
(** * Properties of the orchestrator: snapshots, captcha pages, indices  *)
(* ===================================================================== *)

Section PageChecks.
Import Go agent.
Context {lib : Lib} {env : Env}.

Lemma textsDiffer_false (n : nat) :
  forall old new : list snapshot.Element,
    (n <= length old)%nat -> (n <= length new)%nat ->
    (textsDiffer n old new = false
     <-> take n (map snapshot.Text old) = take n (map snapshot.Text new)).
Proof.
  induction n as [|n IH]; intros old new Hold Hnew; [cbn; tauto|].
  destruct old as [|a old]; [cbn in Hold; lia|].
  destruct new as [|b new]; [cbn in Hnew; lia|].
  cbn [textsDiffer map take]. cbn [length] in Hold, Hnew.
  destruct (String.eqb (snapshot.Text a) (snapshot.Text b)) eqn:Htext; cbn [negb].
  - apply String.eqb_eq in Htext. rewrite IH by lia. rewrite Htext.
    split; [intros ->; reflexivity | intros Heq; now injection Heq].
  - apply String.eqb_neq in Htext. split; [discriminate|].
    intros Heq. injection Heq as Heq _. contradiction.
Qed.

(** X22.  [snapshotChanged] reports no change exactly when the URL is the
    same, the number of elements is the same and the first ten elements
    carry the same texts: a change of role, selector or attributes, or of
    the text of a later element, goes unnoticed. *)
Theorem snapshotChanged_iff (old new : snapshot.Summary) :
  snapshotChanged old new = false
  <-> snapshot.URL old = snapshot.URL new
      /\ length (snapshot.Elements old) = length (snapshot.Elements new)
      /\ take 10 (map snapshot.Text (snapshot.Elements old))
         = take 10 (map snapshot.Text (snapshot.Elements new)).
Proof.
  unfold snapshotChanged.
  destruct (String.eqb (snapshot.URL old) (snapshot.URL new)) eqn:Hurl; cbn [negb].
  2:{ apply String.eqb_neq in Hurl. split; [discriminate | tauto]. }
  apply String.eqb_eq in Hurl.
  destruct (length (snapshot.Elements old) =? length (snapshot.Elements new))%nat
    eqn:Hlen; cbn [negb].
  2:{ apply Nat.eqb_neq in Hlen. split; [discriminate | tauto]. }
  apply Nat.eqb_eq in Hlen.
  replace (length (snapshot.Elements old) <? length (snapshot.Elements new))%nat
    with false by (symmetry; apply Nat.ltb_ge; lia).
  rewrite textsDiffer_false by lia.
  rewrite <- Hlen, Nat.min_id.
  assert (Htake : forall l : list snapshot.Element,
             take (Nat.min 10 (length l)) (map snapshot.Text l)
             = take 10 (map snapshot.Text l)).
  { intros l. destruct (Nat.le_ge_cases 10 (length l)) as [Hle | Hge].
    - now rewrite Nat.min_l.
    - rewrite Nat.min_r by exact Hge.
      rewrite !firstn_all2 by (rewrite length_map; lia). reflexivity. }
  rewrite (Htake (snapshot.Elements old)).
  rewrite Hlen, (Htake (snapshot.Elements new)). tauto.
Qed.

(** X23.  On a captcha page (the URL mentions the captcha or the title
    mentions a robot) a decision to click, whatever its target, is not
    invoked: the orchestrator invokes [request_user_input] with a fixed
    message instead. *)
Theorem captcha_page_blocks_clicks (o : Orchestrator)
    (history : list HistoryItem) (step : Z) (summary : snapshot.Summary)
    (dec : Decision) :
  isCaptchaPage summary = true ->
  In (ActionName dec)
     ["click_by_index"; "click_role"; "click_selector"; "click_text"] ->
  confirmStage o history step summary dec
  = invokeStage (updateMemory o (ActionName dec) summary) history step summary
      (withAction dec "request_user_input"
         (<["message" :=
              AString "Please solve the captcha in the browser and type 'done' when finished"]> ∅))
      None.
Proof.
  intros Hcaptcha Hclick. rewrite confirmStage_proceeds.
  assert (Hblock : blockCaptcha summary dec
                   = withAction dec "request_user_input"
                       (<["message" :=
                            AString "Please solve the captcha in the browser and type 'done' when finished"]> ∅)).
  { unfold blockCaptcha. rewrite Hcaptcha, orb_true_r. cbn [andb].
    destruct Hclick as [<- | [<- | [<- | [<- | []]]]]; reflexivity. }
  rewrite Hblock. reflexivity.
Qed.

Lemma findByIndex_assignIndices (elems : list snapshot.Element) :
  forall (j : nat) (i : Z),
    findByIndex (snapshot.assignIndices j elems) i
    = if (Z.of_nat j <? i) && (i <=? Z.of_nat (j + length elems))
      then snapshot.assignIndices j elems !! Z.to_nat (i - Z.of_nat j - 1)
      else None.
Proof.
  unfold findByIndex.
  induction elems as [|el rest IH]; intros j i.
  - cbn. destruct (_ && _) eqn:Hin; [|reflexivity].
    apply andb_true_iff in Hin as [H1 H2].
    apply Z.ltb_lt in H1. apply Z.leb_le in H2. lia.
  - cbn [snapshot.assignIndices find length snapshot.Index snapshot.setIndex].
    destruct (Z.of_nat j + 1 =? i) eqn:Hhere.
    + apply Z.eqb_eq in Hhere. subst i.
      replace (Z.of_nat j <? Z.of_nat j + 1) with true
        by (symmetry; apply Z.ltb_lt; lia).
      replace (Z.of_nat j + 1 <=? Z.of_nat (j + S (length rest))) with true
        by (symmetry; apply Z.leb_le; lia).
      replace (Z.to_nat (Z.of_nat j + 1 - Z.of_nat j - 1)) with 0%nat by lia.
      reflexivity.
    + apply Z.eqb_neq in Hhere. rewrite IH.
      destruct ((Z.of_nat (S j) <? i) && (i <=? Z.of_nat (S j + length rest)))
        eqn:Hin.
      * apply andb_true_iff in Hin as [H1 H2].
        apply Z.ltb_lt in H1. apply Z.leb_le in H2.
        replace (Z.of_nat j <? i) with true by (symmetry; apply Z.ltb_lt; lia).
        replace (i <=? Z.of_nat (j + S (length rest))) with true
          by (symmetry; apply Z.leb_le; lia).
        cbn [andb].
        replace (Z.to_nat (i - Z.of_nat j - 1))
          with (S (Z.to_nat (i - Z.of_nat (S j) - 1))) by lia.
        reflexivity.
      * destruct ((Z.of_nat j <? i) && (i <=? Z.of_nat (j + S (length rest))))
          eqn:Hin'; [|reflexivity].
        apply andb_true_iff in Hin' as [H1 H2].
        apply Z.ltb_lt in H1. apply Z.leb_le in H2.
        apply andb_false_iff in Hin as [Hin | Hin];
          [apply Z.ltb_ge in Hin | apply Z.leb_gt in Hin]; lia.
Qed.

Lemma assignIndices_lookup (elems : list snapshot.Element) :
  forall (j k : nat) (el : snapshot.Element),
    snapshot.assignIndices j elems !! k = Some el ->
    snapshot.Index el = Z.of_nat (j + k) + 1.
Proof.
  induction elems as [|x rest IH]; intros j k el Hel; [discriminate Hel|].
  destruct k as [|k]; cbn in Hel.
  - injection Hel as <-. cbn. lia.
  - apply IH in Hel. rewrite Hel. lia.
Qed.

(** X24.  On a snapshot built by [Collect] with [K] elements, a decision
    [click_by_index] whose index is between 1 and [K] is always resolved,
    to the element at that position of the list, as a click by selector or
    by role; any other index is refused with an error. *)
Theorem click_by_index_on_collected (title url text : string)
    (elems : list snapshot.Element) (dec : Decision) (index : spec_float) :
  ActionName dec = "click_by_index" ->
  ActionInput dec !! "index" = Some (AFloat64 index) ->
  let summary := snapshot.Collect title url text elems in
  let i := float64ToInt index in
  (1 <= i <= Z.of_nat (length (snapshot.Elements summary)) ->
   exists dec' el,
     resolveClickByIndex summary dec = inl (dec', Some el)
     /\ snapshot.Elements summary !! Z.to_nat (i - 1) = Some el
     /\ snapshot.Index el = i
     /\ (ActionName dec' = "click_selector" \/ ActionName dec' = "click_role"))
  /\ (~ 1 <= i <= Z.of_nat (length (snapshot.Elements summary)) ->
      exists msg, resolveClickByIndex summary dec = inr msg).
Proof.
  intros Hname Hindex summary i.
  assert (Hfind : findByIndex (snapshot.Elements summary) i
                  = if (0 <? i) && (i <=? Z.of_nat (length (snapshot.Elements summary)))
                    then snapshot.Elements summary !! Z.to_nat (i - 1)
                    else None).
  { unfold summary, snapshot.Collect. cbn [snapshot.Elements].
    unfold snapshot.collectElements. rewrite findByIndex_assignIndices.
    rewrite assignIndices_length. cbn [Nat.add].
    change (Z.of_nat 0) with 0.
    replace (i - 0 - 1) with (i - 1) by lia. reflexivity. }
  assert (Hlookup : forall el,
             snapshot.Elements summary !! Z.to_nat (i - 1) = Some el ->
             1 <= i -> snapshot.Index el = i).
  { intros el Hel Hpos. unfold summary, snapshot.Collect in Hel.
    cbn [snapshot.Elements] in Hel. unfold snapshot.collectElements in Hel.
    apply assignIndices_lookup in Hel. rewrite Hel. lia. }
  unfold resolveClickByIndex. rewrite Hname, Hindex.
  cbn [String.eqb Ascii.eqb Bool.eqb asFloat64]. fold i. rewrite Hfind.
  split.
  - intros Hrange.
    replace ((0 <? i) && (i <=? Z.of_nat (length (snapshot.Elements summary))))
      with true
      by (symmetry; apply andb_true_iff; split;
          [apply Z.ltb_lt | apply Z.leb_le]; lia).
    destruct (snapshot.Elements summary !! Z.to_nat (i - 1)) as [el|] eqn:Hel.
    2:{ apply lookup_ge_None in Hel. lia. }
    pose proof (Hlookup el eq_refl ltac:(lia)) as Hidx.
    repeat match goal with
           | |- context [if ?b then _ else _] => destruct b
           end;
      eexists; exists el;
      (split; [reflexivity|]; split; [reflexivity|]; split; [exact Hidx|]);
      auto.
  - intros Hrange.
    destruct ((0 <? i) && (i <=? Z.of_nat (length (snapshot.Elements summary))))
      eqn:Hin.
    + apply andb_true_iff in Hin as [H1 H2].
      apply Z.ltb_lt in H1. apply Z.leb_le in H2. lia.
    + eexists. reflexivity.
Qed.

End PageChecks.

Lemma captcha_page_blocks_clicks_witness :
  agent.isCaptchaPage (lib := Examples.asciiLib) Scenarios.captchaPage = true
  /\ agent.confirmStage (lib := Examples.asciiLib) (env := Examples.scriptedEnv)
       Examples.orchestrator [] 1 Scenarios.captchaPage Examples.clickGo
     = agent.invokeStage (lib := Examples.asciiLib) (env := Examples.scriptedEnv)
         (agent.updateMemory Examples.orchestrator
            (agent.ActionName Examples.clickGo) Scenarios.captchaPage)
         [] 1 Scenarios.captchaPage
         (agent.withAction Examples.clickGo "request_user_input"
            (<["message" :=
                 Go.AString "Please solve the captcha in the browser and type 'done' when finished"]> ∅))
         None.
Proof.
  split; [reflexivity|].
  apply (captcha_page_blocks_clicks (lib := Examples.asciiLib)
           (env := Examples.scriptedEnv));
    [reflexivity | right; right; left; reflexivity].
Defined.

(** On the snapshot of a paragraph and a button the button comes first;
    a click on index 1 is resolved to it. *)
Lemma click_by_index_on_collected_witness :
  let summary :=
    snapshot.Collect (lib := Examples.asciiLib) "t" "u" "x"
                     [Examples.paragraph; Examples.bareButton] in
  exists dec' el,
    agent.resolveClickByIndex summary Scenarios.clickFirst = inl (dec', Some el)
    /\ snapshot.Elements summary
       !! Z.to_nat (Go.float64ToInt (Go.intToFloat64 1) - 1) = Some el
    /\ snapshot.Index el = Go.float64ToInt (Go.intToFloat64 1)
    /\ (agent.ActionName dec' = "click_selector"
        \/ agent.ActionName dec' = "click_role").
Proof.
  intros summary.
  apply (proj1 (click_by_index_on_collected (lib := Examples.asciiLib)
                  "t" "u" "x" [Examples.paragraph; Examples.bareButton]
                  Scenarios.clickFirst (Go.intToFloat64 1) eq_refl eq_refl)).
  vm_compute. split; intros Hcmp; discriminate Hcmp.
Defined.

(* ===================================================================== *)
(** * Properties of the decision-service clients: what is sent, how a     *)
(** * call ends                                                           *)
(* ===================================================================== *)

Section Exchanges.
Import Go llm.
Context {codec : Codec}.

Lemma capContent_length (s : string) :
  (len (capContent s) <= maxRequestSize + 15)%nat
  /\ ((len s <= maxRequestSize)%nat -> capContent s = s).
Proof.
  unfold capContent, len. destruct (maxRequestSize <? String.length s)%nat eqn:Hbig.
  - apply Nat.ltb_lt in Hbig. split; [|lia].
    rewrite append_length. unfold slice.
    pose proof (substring_length_le 0 (maxRequestSize - 0) s).
    change (String.length "... [truncated]") with 15%nat. lia.
  - apply Nat.ltb_ge in Hbig. split; [lia | reflexivity].
Qed.

(** X25.  [Generate] sends no text longer than 200000 bytes plus the
    15-byte truncation mark: the system prompt and every message content
    are capped, shorter texts are sent as they are, and the roles, the
    tools, the temperature and the token budget of the request are not
    touched. *)
Theorem sanitize_caps_contents (req : Request) :
  (len (System (sanitize req)) <= maxRequestSize + 15)%nat
  /\ Forall (fun m => (len (Content m) <= maxRequestSize + 15)%nat)
            (Messages (sanitize req))
  /\ map Role (Messages (sanitize req)) = map Role (Messages req)
  /\ (forall m, In m (Messages req) -> (len (Content m) <= maxRequestSize)%nat ->
                In m (Messages (sanitize req)))
  /\ ((len (System req) <= maxRequestSize)%nat -> System (sanitize req) = System req)
  /\ Tools (sanitize req) = Tools req
  /\ Temperature (sanitize req) = Temperature req
  /\ MaxTokens (sanitize req) = MaxTokens req.
Proof.
  unfold sanitize. cbn [System Messages Tools Temperature MaxTokens].
  split; [apply capContent_length|]. split; [|split; [|split; [|split]]].
  - apply Forall_map, Forall_forall. intros m _. cbn [Content].
    apply capContent_length.
  - rewrite map_map. reflexivity.
  - intros m Hin Hshort. apply in_map_iff. exists m. split; [|exact Hin].
    rewrite (proj2 (capContent_length (Content m)) Hshort). now destruct m.
  - apply capContent_length.
  - repeat split; reflexivity.
Qed.

Lemma Attempts_exchanges (p : Provider) (req : Request) (attempt : Z)
    (tr : list (Obs E)) (r : Returned) :
  Attempts p req attempt tr r ->
  Forall (fun ob => forall sent, exchangeOf ob = Some sent ->
                                 sent = (p, req, Z.max (MaxTokens req) maxTokens))
         tr
  /\ (forall (k : nat) (ob : Obs E) (ctxErr : error),
         tr !! k = Some ob -> cancelledOf ob = Some ctxErr ->
         r = Failure ctxErr /\ length tr = S k)
  /\ (exists out rest,
         tr = Observe (Exchange p req (Z.max (MaxTokens req) maxTokens)) out :: rest).
Proof.
  induction 1 as [attempt out r Hrange Hstops
                 | attempt out ctxErr Hrange Hout
                 | attempt out tr r Hrange Hout Hrest (IHsent & IHcancel & _)].
  - split; [|split; [|eexists; eexists; reflexivity]].
    + constructor; [|constructor]. intros sent Hsent. now injection Hsent as <-.
    + intros [|[|k]] ob ctxErr Hob Hcancel; try discriminate Hob.
      injection Hob as <-. discriminate Hcancel.
  - split; [|split; [|eexists; eexists; reflexivity]].
    + constructor; [|constructor; [|constructor]].
      * intros sent Hsent. now injection Hsent as <-.
      * intros sent Hsent. discriminate Hsent.
    + intros [|[|[|k]]] ob ctxErr' Hob Hcancel; try discriminate Hob.
      * injection Hob as <-. discriminate Hcancel.
      * injection Hob as <-. cbn in Hcancel. injection Hcancel as <-.
        split; reflexivity.
  - split; [|split; [|eexists; eexists; reflexivity]].
    + constructor; [|constructor; [|exact IHsent]].
      * intros sent Hsent. now injection Hsent as <-.
      * intros sent Hsent. discriminate Hsent.
    + intros [|[|k]] ob ctxErr Hob Hcancel.
      * injection Hob as <-. discriminate Hcancel.
      * injection Hob as <-. discriminate Hcancel.
      * cbn in Hob. destruct (IHcancel k ob ctxErr Hob Hcancel) as [-> Hlen].
        split; [reflexivity|]. cbn [length]. lia.
Qed.

(** X26.  Every attempt of a call of [Generate] sends the same thing: the
    sanitized request, to the same provider, with the token budget
    [max(req.MaxTokens, 900)].  A request without messages is refused
    without any attempt; any other call makes at least one: the first
    thing it does is to send the request. *)
Theorem Generate_sends_one_request (p : Provider) (req : Request)
    (tr : list (Obs E)) (r : Returned) :
  runs (Generate p req) tr r ->
  Forall (fun ob => forall sent, exchangeOf ob = Some sent ->
                                 sent = (p, sanitize req, Z.max (MaxTokens req) 900))
         tr
  /\ (Messages req = [] -> tr = [] /\ r = Failure "no messages")
  /\ (Messages req <> [] ->
      exists out rest,
        tr = Observe (Exchange p (sanitize req) (Z.max (MaxTokens req) 900)) out
               :: rest).
Proof.
  intros Hrun. split; [|split].
  - destruct (Generate_runs p req tr r Hrun) as [-> | Hattempts]; [constructor|].
    now apply Attempts_exchanges in Hattempts as [Hsent _].
  - intros Hnone. unfold Generate in Hrun. rewrite Hnone in Hrun.
    cbn in Hrun. exact Hrun.
  - intros Hsome. unfold Generate in Hrun.
    destruct (Messages req) as [|m ms] eqn:Hm; [contradiction|].
    cbn [length Nat.eqb] in Hrun.
    assert (Hloop : LoopRuns p (sanitize req) 0 tr r).
    { destruct p.
      - apply (anthropicLoop_runs (Z.to_nat (maxRetries + 1)) 0 _ None);
          [reflexivity | lia | exact Hrun].
      - apply (openAILoop_runs (Z.to_nat (maxRetries + 1)) 0 _ None);
          [reflexivity | lia | exact Hrun]. }
    destruct Hloop as [[Hlate _] | [[_ Hattempts] | [[Hpos _] | [Hpos _]]]];
      try (unfold maxRetries in *; lia).
    now apply Attempts_exchanges in Hattempts as (_ & _ & Hne).
Qed.

(** X27.  When the context ends during a wait between two attempts, the
    call returns the error of the context at once: the cancelled wait is
    the last thing the call does. *)
Theorem Generate_cancelled_wait (p : Provider) (req : Request)
    (tr : list (Obs E)) (r : Returned) (k : nat) (ob : Obs E) (ctxErr : error) :
  runs (Generate p req) tr r ->
  tr !! k = Some ob -> cancelledOf ob = Some ctxErr ->
  r = Failure ctxErr /\ length tr = S k.
Proof.
  intros Hrun Hob Hcancel.
  destruct (Generate_runs p req tr r Hrun) as [-> | Hattempts];
    [discriminate Hob|].
  apply Attempts_exchanges in Hattempts as (_ & Hcancelled & _).
  exact (Hcancelled k ob ctxErr Hob Hcancel).
Qed.

End Exchanges.

Section SuccessOrigin.
Import Go llm.
Context {codec : Codec}.

(** The branches of one iteration of a client loop, for a run that ends
    with a response: error returns are excluded, a further iteration is
    handled by [IH], and the decoding branch is the one that answers. *)
Ltac to_the_answer IH :=
  repeat match goal with
         | H : runs (Ret (openAISuccess _)) _ _ |- _ => destruct H as [-> H]
         | H : runs (Ret _) _ _ |- _ =>
             cbn in H; destruct H as [-> H];
             first [discriminate H | injection H as ->]
         | H : runs (anthropicLoop _ _ _ _) _ _ |- _ =>
             apply IH in H as (? & ? & ? & -> & ? & ?)
         | H : runs (openAILoop _ _ _ _) _ _ |- _ =>
             apply IH in H as (? & ? & ? & -> & ? & ?)
         | H : runs (if ?b then _ else _) _ _ |- _ => destruct b eqn:?
         | H : runs (match ?x with _ => _ end) _ _ |- _ => destruct x eqn:?
         end.

(** The trace found, with the observations before the last attempt. *)
Ltac last_attempt :=
  match goal with
  | |- exists tr0 status data, ?a :: ?b :: ?x ++ [?l] = _ /\ _ =>
      exists (a :: b :: x)
  | |- exists tr0 status data, ?a :: ?x ++ [?l] = _ /\ _ =>
      exists (a :: x)
  | |- exists tr0 status data, [?a; ?l] = _ /\ _ => exists [a]
  | |- exists tr0 status data, [?l] = _ /\ _ => exists []
  end;
  do 2 eexists; split; [reflexivity|].

Lemma anthropicLoop_success (n : nat) :
  forall (attempt : Z) (req : Request) (lastErr : option error)
         (tr : list (Obs E)) (resp : Response),
    runs (anthropicLoop n attempt req lastErr) tr (Success resp) ->
    exists tr0 status data,
      tr = tr0 ++ [Observe (Exchange Anthropic req (Z.max (MaxTokens req) maxTokens))
                           (Received status data)]
      /\ status < 400
      /\ exists ar, unmarshalAnthropicResponse data = (ar, None)
                    /\ resp = mkResponse (joinText (arContent ar)).
Proof.
  induction n as [|n IH]; intros attempt req lastErr tr resp Hrun.
  - cbn in Hrun. destruct Hrun as [_ Hrun]. discriminate Hrun.
  - cbn [anthropicLoop] in Hrun. unfold waitBeforeAttempt in Hrun.
    destruct (0 <? attempt).
    + cbn in Hrun. destruct Hrun as (waited & tr0 & -> & Hrun).
      destruct waited as [ctxErr|];
        [cbn in Hrun; destruct Hrun as [_ Hrun]; discriminate Hrun|].
      cbn in Hrun. destruct Hrun as (out & tr1 & -> & Hrun).
      to_the_answer IH; last_attempt;
        first [ split; eassumption
              | split; [apply Z.leb_gt; eassumption | eexists; split; [eassumption | reflexivity]] ].
    + cbn in Hrun. destruct Hrun as (out & tr1 & -> & Hrun).
      to_the_answer IH; last_attempt;
        first [ split; eassumption
              | split; [apply Z.leb_gt; eassumption | eexists; split; [eassumption | reflexivity]] ].
Qed.

Lemma openAILoop_success (n : nat) :
  forall (attempt : Z) (req : Request) (lastErr : option error)
         (tr : list (Obs E)) (resp : Response),
    runs (openAILoop n attempt req lastErr) tr (Success resp) ->
    exists tr0 status data,
      tr = tr0 ++ [Observe (Exchange OpenAI req (Z.max (MaxTokens req) maxTokens))
                           (Received status data)]
      /\ status < 400
      /\ openAISuccess data = Success resp.
Proof.
  induction n as [|n IH]; intros attempt req lastErr tr resp Hrun.
  - cbn in Hrun. destruct Hrun as [_ Hrun]. discriminate Hrun.
  - cbn [openAILoop] in Hrun. unfold waitBeforeAttempt in Hrun.
    destruct (0 <? attempt).
    + cbn in Hrun. destruct Hrun as (waited & tr0 & -> & Hrun).
      destruct waited as [ctxErr|];
        [cbn in Hrun; destruct Hrun as [_ Hrun]; discriminate Hrun|].
      cbn in Hrun. destruct Hrun as (out & tr1 & -> & Hrun).
      to_the_answer IH; last_attempt;
        first [ split; eassumption
              | split; [apply Z.leb_gt; eassumption | congruence] ].
    + cbn in Hrun. destruct Hrun as (out & tr1 & -> & Hrun).
      to_the_answer IH; last_attempt;
        first [ split; eassumption
              | split; [apply Z.leb_gt; eassumption | congruence] ].
Qed.

(** X28.  [Generate] returns a response only from an answer of the
    service with a status below 400, received in its last attempt: for the
    Anthropic client the body decoded and the response is the
    concatenation of its text contents; for the OpenAI client the response
    is what the body yields (the first tool call, else the content of the
    first choice). *)
Theorem Generate_success_origin (p : Provider) (req : Request)
    (tr : list (Obs E)) (resp : Response) :
  runs (Generate p req) tr (Success resp) ->
  exists tr0 status data,
    tr = tr0 ++ [Observe (Exchange p (sanitize req) (Z.max (MaxTokens req) 900))
                         (Received status data)]
    /\ status < 400
    /\ match p with
       | Anthropic =>
           exists ar, unmarshalAnthropicResponse data = (ar, None)
                      /\ resp = mkResponse (joinText (arContent ar))
       | OpenAI => openAISuccess data = Success resp
       end.
Proof.
  unfold Generate. intros Hrun.
  destruct (length (Messages req) =? 0)%nat.
  - cbn in Hrun. destruct Hrun as [_ Hrun]. discriminate Hrun.
  - destruct p.
    + now apply anthropicLoop_success in Hrun.
    + now apply openAILoop_success in Hrun.
Qed.

End SuccessOrigin.

Lemma Generate_sends_one_request_witness :
  Forall (fun ob =>
            forall sent, exchangeOf ob = Some sent ->
                         sent = (llm.Anthropic, llm.sanitize Examples.request,
                                 Z.max (llm.MaxTokens Examples.request) 900))
         Examples.htmlThenGood.
Proof.
  exact (proj1 (Generate_sends_one_request (codec := Examples.scriptedCodec)
                  llm.Anthropic Examples.request Examples.htmlThenGood
                  (llm.Success (llm.mkResponse "ok")) htmlThenGood_runs)).
Defined.

Lemma busyThenCancelled_runs :
  runs (llm.Generate (codec := Examples.scriptedCodec) llm.Anthropic Examples.request)
       Scenarios.busyThenCancelled (llm.Failure "context canceled").
Proof.
  cbn. eexists. eexists. split; [reflexivity|]. cbn.
  eexists. eexists. split; [reflexivity|]. cbn.
  split; reflexivity.
Defined.

Lemma Generate_cancelled_wait_witness :
  llm.Failure "context canceled" = llm.Failure "context canceled"
  /\ length Scenarios.busyThenCancelled = 2%nat.
Proof.
  exact (Generate_cancelled_wait (codec := Examples.scriptedCodec)
           llm.Anthropic Examples.request Scenarios.busyThenCancelled
           (llm.Failure "context canceled") 1
           (Observe (llm.Backoff (500 * llm.millisecond)) (Some "context canceled"))
           "context canceled" busyThenCancelled_runs eq_refl eq_refl).
Defined.

Lemma Generate_success_origin_witness :
  exists tr0 status data,
    Examples.htmlThenGood
    = tr0 ++ [Observe (llm.Exchange llm.Anthropic (llm.sanitize Examples.request)
                         (Z.max (llm.MaxTokens Examples.request) 900))
                      (llm.Received status data)]
    /\ status < 400
    /\ exists ar,
         llm.unmarshalAnthropicResponse (Codec := Examples.scriptedCodec) data
         = (ar, None)
         /\ llm.mkResponse "ok" = llm.mkResponse (llm.joinText (llm.arContent ar)).
Proof.
  exact (Generate_success_origin (codec := Examples.scriptedCodec)
           llm.Anthropic Examples.request Examples.htmlThenGood
           (llm.mkResponse "ok") htmlThenGood_runs).
Defined.

(* ===================================================================== *)
(** * Properties of the orchestrator: recovery after a failed invocation *)
(* ===================================================================== *)

Section Recovery.
Import Go agent.
Context {lib : Lib} {env : Env}.

Lemma endsWithInvoke_after (tr1 tr2 : list (Obs E)) (name : string)
    (result : tools.Result) :
  endsWithInvoke tr2 name result -> endsWithInvoke (tr1 ++ tr2) name result.
Proof.
  intros (tr0 & input & ->). exists (tr1 ++ tr0), input. now rewrite app_assoc.
Qed.

Lemma attempt_reports (name : string) (input : gmap string any) :
  reportsItsInvoke (attempt name input).
Proof.
  intros tr name' result Hrun. cbn in Hrun.
  destruct Hrun as ([res|err] & tr' & -> & Hrun); cbn in Hrun;
    destruct Hrun as [-> Hrun]; [|discriminate Hrun].
  injection Hrun as -> ->. now exists [], input.
Qed.

Lemma nothing_reports : reportsItsInvoke nothing.
Proof. intros tr name result [_ Hrun]. discriminate Hrun. Qed.

Lemma tryAlternatives_reports (alternatives : list alternativeAction) :
  reportsItsInvoke (tryAlternatives alternatives).
Proof.
  induction alternatives as [|alt rest IH]; intros tr name result Hrun.
  - destruct Hrun as [_ Hrun]. discriminate Hrun.
  - cbn in Hrun. destruct Hrun as ([res|err] & tr' & -> & Hrun).
    + cbn in Hrun. destruct Hrun as [-> Hrun]. injection Hrun as -> ->.
      now exists [], (altInput alt).
    + apply IH in Hrun. now apply (endsWithInvoke_after [_]).
Qed.

Lemma orElse_reports (p q : Prog E (option (string * tools.Result))) :
  reportsItsInvoke p -> reportsItsInvoke q -> reportsItsInvoke (orElse p q).
Proof.
  intros Hp Hq tr name result Hrun. unfold orElse in Hrun.
  apply runs_bind in Hrun as ([success|] & tr1 & tr2 & -> & Hrun1 & Hrun2).
  - cbn in Hrun2. destruct Hrun2 as [-> Hrun2]. injection Hrun2 as <-.
    rewrite app_nil_r. now apply Hp.
  - apply endsWithInvoke_after. now apply Hq.
Qed.

Lemma after_calls_reports {X : Type} (e : E X)
    (k : X -> Prog E (option (string * tools.Result))) :
  (forall x, reportsItsInvoke (k x)) -> reportsItsInvoke (x ← call e; k x).
Proof.
  intros Hk tr name result Hrun. cbn in Hrun.
  destruct Hrun as (x & tr' & -> & Hrun).
  apply (endsWithInvoke_after [_]). now apply (Hk x).
Qed.

Lemma scroll_reports (summary : snapshot.Summary)
    (k : option error -> Prog E (option (string * tools.Result))) :
  (forall scrolled, reportsItsInvoke (k scrolled)) ->
  reportsItsInvoke (scrolled ← scrollToElement summary; k scrolled).
Proof.
  intros Hk tr name result Hrun.
  apply runs_bind in Hrun as (scrolled & tr1 & tr2 & -> & _ & Hrun).
  apply endsWithInvoke_after. now apply (Hk scrolled).
Qed.

(** X29.  When [handleErrorAdaptively] reports a recovery, the last thing
    it did was an invocation that succeeded, and it reports the name of
    the tool invoked and the result of that invocation; when it reports
    none, it returns the empty name and the empty result. *)
Theorem recovery_reports_its_invocation (o : Orchestrator) (dec : Decision)
    (summary : snapshot.Summary) (tr : list (Obs E)) (name : string)
    (result : tools.Result) (success : bool) :
  runs (handleErrorAdaptively o dec summary) tr (name, result, success) ->
  if success then endsWithInvoke tr name result
  else name = "" /\ result = tools.mkResult "".
Proof.
  unfold handleErrorAdaptively. intros Hrun.
  destruct (hasRecentRetries o (ActionName dec) 2).
  { cbn in Hrun. destruct Hrun as [_ Hrun]. injection Hrun as -> -> ->. auto. }
  cbn zeta in Hrun.
  apply runs_bind in Hrun as ([[name' result']|] & tr1 & tr2 & -> & Hrun & Hret);
    cbn in Hret; destruct Hret as [-> Hret]; injection Hret as Hn Hr Hs;
    subst name result success; [|auto].
  rewrite app_nil_r.
  match type of Hrun with
  | runs ?p _ _ => assert (Hall : reportsItsInvoke p)
  end; [|exact (Hall _ _ _ Hrun)].
  clear Hrun.
  repeat first
    [ apply orElse_reports
    | apply attempt_reports
    | apply nothing_reports
    | apply tryAlternatives_reports
    | apply after_calls_reports; intros
    | apply scroll_reports; intros
    | match goal with
      | |- reportsItsInvoke (if ?b then _ else _) => destruct b
      | |- reportsItsInvoke (match ?x with _ => _ end) => destruct x
      end ].
Qed.

Lemma recent_after_recordError (o : Orchestrator) (rec : errorRecord) :
  let errs := errorHistory (recordError o rec) in
  drop (length errs - 5) errs
  = drop (length (errorHistory o) - 4) (errorHistory o) ++ [rec].
Proof.
  cbn zeta. unfold recordError. cbn [errorHistory].
  rewrite length_app. cbn [length].
  destruct (10 <? length (errorHistory o) + 1)%nat eqn:Hfull.
  - apply Nat.ltb_lt in Hfull.
    rewrite length_drop, length_app. cbn [length].
    rewrite drop_drop, drop_app_le by lia. f_equal. f_equal. lia.
  - apply Nat.ltb_ge in Hfull. rewrite length_app. cbn [length].
    rewrite drop_app_le by lia. f_equal. f_equal. lia.
Qed.

Lemma hasRecentRetries_second (o : Orchestrator) (rec prev : errorRecord) :
  In prev (drop (length (errorHistory o) - 4) (errorHistory o)) ->
  action prev = action rec ->
  hasRecentRetries (recordError o rec) (action rec) 2 = true.
Proof.
  intros Hin Hsame. unfold hasRecentRetries.
  rewrite (recent_after_recordError o rec).
  apply Z.leb_le. rewrite List.filter_app, length_app. cbn [List.filter].
  rewrite String.eqb_refl. cbn [length].
  assert (Hprev : In prev (List.filter
                             (fun r => String.eqb (action r) (action rec))
                             (drop (length (errorHistory o) - 4) (errorHistory o)))).
  { apply filter_In. split; [exact Hin|]. rewrite Hsame. apply String.eqb_refl. }
  destruct (List.filter _ (drop _ (errorHistory o))); [destruct Hprev|].
  cbn [length]. lia.
Qed.

(** X30.  A second failure of the same action is not recovered.  When one
    of the last four recorded errors belongs to the action that has just
    failed again (with an error that is neither a selector syntax error
    nor a timeout), the orchestrator records the error, observes the page
    twice and continues with the history item [error: ...]: no tool is
    invoked, whatever the type of the error. *)
Theorem repeated_failure_is_not_recovered (o : Orchestrator)
    (history : list HistoryItem) (step : Z) (summary : snapshot.Summary)
    (dec : Decision) (err : error) (prev : errorRecord)
    (tr : list (Obs E)) (flow : Flow) :
  analyzeError err <> "selector_parse_error" ->
  analyzeError err <> "timeout" ->
  In prev (drop (length (errorHistory o) - 4) (errorHistory o)) ->
  action prev = ActionName dec ->
  (runs (onToolError o history step summary dec err) tr flow
   <-> exists now fresh after,
         tr = [ Observe Now now;
                Observe (Sleep (500 * millisecond)) tt;
                Observe (Snap (3 * second)) fresh;
                Observe (Sleep (500 * millisecond)) tt;
                Observe (Snap (3 * second)) after ]
         /\ flow = Continue
                     (recordError o (mkErrorRecord (ActionName dec)
                                       (analyzeError err) step now))
                     (history
                        ++ [item (ActionName dec) ("error: " +:+ err)
                                 (selectorFor (ActionName dec) (ActionInput dec))
                                 (snapshot.URL summary)])).
Proof.
  intros Hparse Htimeout Hin Hsame.
  apply String.eqb_neq in Hparse, Htimeout.
  unfold onToolError. rewrite Hparse. cbn zeta.
  assert (Hskip : forall now fresh,
             afterReobserve
               (recordError o (mkErrorRecord (ActionName dec) (analyzeError err)
                                 step now))
               history step summary dec err (analyzeError err) fresh
             = (_ ← call (Sleep (500 * millisecond));
                _ ← call (Snap (3 * second));
                Ret (Continue
                       (recordError o (mkErrorRecord (ActionName dec)
                                         (analyzeError err) step now))
                       (history
                          ++ [item (ActionName dec) ("error: " +:+ err)
                                   (selectorFor (ActionName dec) (ActionInput dec))
                                   (snapshot.URL summary)])))).
  { intros now fresh. unfold afterReobserve. cbn zeta. rewrite Htimeout.
    cbn [andb]. unfold handleErrorAdaptively.
    rewrite (hasRecentRetries_second o
               (mkErrorRecord (ActionName dec) (analyzeError err) step now) prev
               Hin Hsame).
    reflexivity. }
  split.
  - intros Hrun. cbn in Hrun.
    destruct Hrun as (now & tr1 & -> & [] & tr2 & -> & fresh & tr3 & -> & Hrun).
    rewrite Hskip in Hrun. cbn in Hrun.
    destruct Hrun as ([] & tr4 & -> & after & tr5 & -> & -> & ->).
    now exists now, fresh, after.
  - intros (now & fresh & after & -> & ->). cbn.
    eexists now, _. split; [reflexivity|].
    eexists tt, _. split; [reflexivity|].
    eexists fresh, _. split; [reflexivity|].
    rewrite Hskip. cbn.
    eexists tt, _. split; [reflexivity|].
    eexists after, _. split; [reflexivity|]. split; reflexivity.
Qed.

End Recovery.

(** After a timeout the click is tried again and succeeds. *)
Lemma retryAfterTimeout_runs :
  runs (agent.handleErrorAdaptively (lib := Examples.asciiLib)
          (env := Examples.scriptedEnv)
          Scenarios.afterTimeout Examples.clickGo Examples.cartPage)
       [ Observe (agent.Sleep (2 * agent.second)) tt;
         Observe (agent.Snap (3 * agent.second)) Examples.cartPage;
         Observe (agent.Invoke "click_selector"
                    (<["selector" := Go.AString "#go"]> ∅))
                 (inl (tools.mkResult "clicked")) ]
       ("click_selector", tools.mkResult "clicked", true).
Proof.
  cbn. repeat (eexists; eexists; split; [reflexivity|]; cbn).
  split; reflexivity.
Defined.

Lemma recovery_reports_its_invocation_witness :
  endsWithInvoke
    [ Observe (agent.Sleep (2 * agent.second)) tt;
      Observe (agent.Snap (3 * agent.second)) Examples.cartPage;
      Observe (agent.Invoke "click_selector"
                 (<["selector" := Go.AString "#go"]> ∅))
              (inl (tools.mkResult "clicked")) ]
    "click_selector" (tools.mkResult "clicked").
Proof.
  exact (recovery_reports_its_invocation (lib := Examples.asciiLib)
           (env := Examples.scriptedEnv) _ _ _ _ _ _ true retryAfterTimeout_runs).
Defined.

(** The click on [#go] fails a second time. *)
Lemma repeated_failure_is_not_recovered_witness :
  agent.analyzeError (lib := Examples.asciiLib) Scenarios.notFoundError
  = "element_not_found"
  /\ runs (agent.onToolError (lib := Examples.asciiLib)
             (env := Examples.scriptedEnv)
             Scenarios.failedBefore [] 2 Examples.cartPage Examples.clickGo
             Scenarios.notFoundError)
          [ Observe agent.Now 9;
            Observe (agent.Sleep (500 * agent.millisecond)) tt;
            Observe (agent.Snap (3 * agent.second)) Examples.cartPage;
            Observe (agent.Sleep (500 * agent.millisecond)) tt;
            Observe (agent.Snap (3 * agent.second)) Examples.cartPage ]
          (agent.Continue
             (agent.recordError Scenarios.failedBefore
                (agent.mkErrorRecord (agent.ActionName Examples.clickGo)
                   (agent.analyzeError (lib := Examples.asciiLib)
                      Scenarios.notFoundError) 2 9))
             ([] ++ [agent.item (agent.ActionName Examples.clickGo)
                       ("error: " +:+ Scenarios.notFoundError)
                       (agent.selectorFor (agent.ActionName Examples.clickGo)
                          (agent.ActionInput Examples.clickGo))
                       (snapshot.URL Examples.cartPage)])).
Proof.
  split; [reflexivity|].
  apply (proj2 (repeated_failure_is_not_recovered (lib := Examples.asciiLib)
                  (env := Examples.scriptedEnv)
                  Scenarios.failedBefore [] 2 Examples.cartPage Examples.clickGo
                  Scenarios.notFoundError
                  (agent.mkErrorRecord "click_selector" "element_not_found" 1 5)
                  _ _
                  ltac:(discriminate) ltac:(discriminate)
                  ltac:(left; reflexivity) eq_refl)).
  exists 9, Examples.cartPage, Examples.cartPage. split; reflexivity.
Defined.

(* ===================================================================== *)
(** * Properties of the orchestrator: a timeout followed by a changed     *)
(** * page                                                                *)
(* ===================================================================== *)

Section TimeoutAndChange.
Import Go agent.
Context {lib : Lib} {env : Env}.



(** Whether the decision has the coordinate fallback. *)
Lemma hasCenter_unique (dec : Decision) (foundElement : option snapshot.Element)
    (x y x' y' : Z) :
  hasCenter dec foundElement x y -> hasCenter dec foundElement x' y' ->
  x' = x /\ y' = y.
Proof.
  intros (_ & el & -> & _ & Hc) (_ & el' & Hel & _ & Hc').
  injection Hel as <-. rewrite Hc in Hc'. injection Hc' as <- <-. auto.
Qed.


End TimeoutAndChange.



(* ===================================================================== *)
(** * Properties of the orchestrator: the loop guard and clicks by index  *)
(* ===================================================================== *)

Section IndexClicks.
Import Go agent.
Context {lib : Lib} {env : Env}.

Lemma countRecent_none (same : HistoryItem -> bool) (items : list HistoryItem) :
  Forall (fun it => same it = false) items ->
  forall n : nat, countRecent n items same = 0.
Proof.
  induction 1 as [|it items Hit _ IH]; intros [|n]; cbn [countRecent];
    try reflexivity.
  rewrite Hit, IH. reflexivity.
Qed.

(** The repeat limit of [click_by_index] is 2, and the guard does not trip
    for [click_by_index] on a history without items of that action,
    however many items it has and whatever they are. *)
Lemma guard_passes (history : list HistoryItem) (input : gmap string any) :
  indexFree history ->
  repeatLimit history "click_by_index" = 2
  /\ tooManyRepeats history "click_by_index" input
                    (repeatLimit history "click_by_index") = false.
Proof.
  intros Hfree. split; [reflexivity|].
  change (repeatLimit history "click_by_index") with 2.
  unfold tooManyRepeats.
  change (2 <=? 0) with false. cbv iota.
  destruct (Z.of_nat (length history) <? 2); [reflexivity|].
  change (String.eqb "click_by_index" "click_selector") with false.
  change (String.eqb "click_by_index" "click_by_index") with true.
  cbv iota zeta.
  rewrite countRecent_none; [reflexivity|].
  apply Forall_rev. eapply Forall_impl; [exact Hfree|].
  intros it Hit. cbn beta. apply String.eqb_neq in Hit. rewrite Hit. reflexivity.
Qed.

(** A trace with a call of the planner in it has such a call. *)
Lemma planner_call_in (before after : list (Obs E)) (ob : Obs E) (state : State) :
  plannerCallOf ob = Some state -> plannerCalls (before ++ ob :: after) <> [].
Proof.
  intros Hob. unfold plannerCalls. rewrite omap_app. cbn [omap list_omap].
  rewrite Hob. destruct (omap plannerCallOf before); discriminate.
Qed.

(** The place of the only call of the planner in a trace. *)
Lemma planner_call_unique (pre post : list (Obs E)) (ob ob' : Obs E)
    (state : State) :
  plannerCalls pre = [] -> plannerCalls post = [] ->
  plannerCallOf ob' = Some state ->
  forall before after : list (Obs E),
    pre ++ ob :: post = before ++ ob' :: after ->
    before = pre /\ ob' = ob /\ after = post.
Proof.
  intros Hpre Hpost Hob. induction pre as [|p pre IH]; intros [|b before] after Heq;
    cbn [app] in Heq.
  - injection Heq as -> ->. auto.
  - injection Heq as _ Heq. subst post.
    destruct (planner_call_in before after ob' state Hob Hpost).
  - injection Heq as Hhead _. subst p.
    unfold plannerCalls in Hpre. cbn [omap list_omap] in Hpre.
    rewrite Hob in Hpre. discriminate Hpre.
  - injection Heq as <- Heq.
    assert (Hpre' : plannerCalls pre = []).
    { unfold plannerCalls in *. cbn [omap list_omap] in Hpre.
      destruct (plannerCallOf p); [discriminate Hpre | exact Hpre]. }
    destruct (IH Hpre' before after Heq) as (-> & -> & ->). auto.
Qed.

(** The state and the answer of a call of the planner. *)
Lemma planner_answer (state state' : State) (dec : Decision)
    (planned : Decision + error) :
  Observe (Next state) (inl dec) = Observe (Next state') planned ->
  state = state' /\ planned = inl dec.
Proof.
  intros Heq.
  pose proof (f_equal plannerCallOf Heq) as Hstate.
  pose proof (f_equal decisionOf Heq) as Hdec.
  cbn in Hstate, Hdec. injection Hstate as ->.
  destruct planned as [dec'|err]; [|discriminate Hdec].
  injection Hdec as ->. auto.
Qed.

(** A decision [click_by_index] passes the guard when no history item
    records that action: it is resolved and invoked, or refused because
    its index does not resolve. *)
Lemma afterDecision_index_click (o : Orchestrator) (history : list HistoryItem)
    (step : Z) (summary : snapshot.Summary) (dec : Decision)
    (tr : list (Obs E)) (flow : Flow) :
  indexFree history ->
  ActionName dec = "click_by_index" -> Finish dec = false ->
  runs (afterDecision o history step summary dec) tr flow ->
  match resolveClickByIndex summary (blockCaptcha summary dec) with
  | inl (dec', _) =>
      exists answer rest,
        tr = Observe (Invoke (ActionName dec') (ActionInput dec')) answer :: rest
  | inr err => tr = [] /\ flow = Return (Some err)
  end.
Proof.
  intros Hfree Hname Hfinish Hrun. unfold afterDecision in Hrun.
  rewrite Hfinish in Hrun. cbv zeta in Hrun. rewrite Hname in Hrun.
  rewrite (proj2 (guard_passes history _ Hfree)) in Hrun.
  rewrite confirmStage_proceeds in Hrun.
  destruct (resolveClickByIndex summary (blockCaptcha summary dec))
    as [[dec' foundElement]|err].
  - unfold invokeStage in Hrun.
    cbn [runs bind call mbind mret Prog_bind Prog_ret] in Hrun.
    destruct Hrun as (answer & rest & -> & _). eauto.
  - exact Hrun.
Qed.

Lemma runStep_index_click (task : string) (o : Orchestrator)
    (history : list HistoryItem) (step : Z) (tr : list (Obs E)) (flow : Flow) :
  indexFree history ->
  runs (runStep task o history step) tr flow ->
  forall (before after : list (Obs E)) (state : State) (dec : Decision),
    tr = before ++ Observe (Next state) (inl dec) :: after ->
    ActionName dec = "click_by_index" -> Finish dec = false ->
    match resolveClickByIndex (Summary state) (blockCaptcha (Summary state) dec) with
    | inl (dec', _) =>
        exists answer rest,
          after = Observe (Invoke (ActionName dec') (ActionInput dec')) answer :: rest
    | inr err => after = [] /\ flow = Return (Some err)
    end.
Proof.
  intros Hfree Hrun before after state dec Htr Hname Hfinish.
  unfold runStep in Hrun.
  cbn [runs bind call mbind mret Prog_bind Prog_ret] in Hrun.
  destruct Hrun as ([ctxErr|] & tr0 & -> & Hrun).
  { cbn in Hrun. destruct Hrun as [-> _].
    apply (f_equal plannerCalls) in Htr. symmetry in Htr.
    destruct (planner_call_in before after (Observe (Next state) (inl dec)) state
                eq_refl Htr). }
  apply runs_bind in Hrun as ([] & tr1 & tr2 & -> & Hwait & Hrun).
  assert (Hquiet1 : plannerCalls tr1 = []).
  { destruct (history !! (length history - 1)%nat) as [it|];
      [destruct (String.eqb (Action it) "navigate")|];
      cbn in Hwait.
    - destruct Hwait as (x & tr' & -> & [-> _]). reflexivity.
    - destruct Hwait as [-> _]. reflexivity.
    - destruct Hwait as [-> _]. reflexivity. }
  cbn [runs bind call mbind mret Prog_bind Prog_ret] in Hrun.
  destruct Hrun as (summary & tr3 & -> & [] & tr4 & -> & described & tr5 & ->
                    & planned & tr6 & -> & Hrun).
  assert (Hquiet6 : plannerCalls tr6 = []).
  { destruct planned as [dec0|err].
    - pose proof (safe_runs _ _ _ _ _ (afterDecision_safe o history step summary dec0)
                            Hrun) as [Hquiet _].
      now apply quiet_trace in Hquiet as (Hp & _).
    - cbn in Hrun. destruct Hrun as [-> _]. reflexivity. }
  assert (Hshape :
    Observe CtxErr None
      :: tr1 ++ Observe (Snap (5 * second)) summary
                :: Observe (SetSnapshot summary) tt
                :: Observe Describe described
                :: Observe (Next (mkState task step (last history 5) summary described))
                           planned
                :: tr6
    = (Observe CtxErr None
         :: tr1 ++ [ Observe (Snap (5 * second)) summary;
                     Observe (SetSnapshot summary) tt;
                     Observe Describe described ])
      ++ Observe (Next (mkState task step (last history 5) summary described)) planned
      :: tr6).
  { cbn [app]. rewrite <- app_assoc. reflexivity. }
  rewrite Hshape in Htr. clear Hshape.
  apply (planner_call_unique _ _ _ _ state) in Htr as (_ & Hob & ->);
    [ | | exact Hquiet6 | reflexivity ].
  2:{ unfold plannerCalls. cbn [omap list_omap plannerCallOf].
      rewrite omap_app. fold (plannerCalls tr1). rewrite Hquiet1. reflexivity. }
  apply planner_answer in Hob as [-> ->]. cbn [Summary].
  exact (afterDecision_index_click o history step summary dec _ flow
           Hfree Hname Hfinish Hrun).
Qed.

Lemma runLoop_index_click (n : nat) :
  forall (task : string) (o : Orchestrator) (history : list HistoryItem)
         (step : Z) (tr : list (Obs E)) (r : option error),
    indexFree history ->
    runs (runLoop n task o history step) tr r ->
    forall (before after : list (Obs E)) (state : State) (dec : Decision),
      tr = before ++ Observe (Next state) (inl dec) :: after ->
      ActionName dec = "click_by_index" -> Finish dec = false ->
      invokedOrRefused state dec after r.
Proof.
  induction n as [|n IH];
    intros task o history step tr r Hfree Hrun before after state dec Htr Hname Hfinish.
  - cbn in Hrun. destruct Hrun as [-> _]. destruct before; discriminate Htr.
  - cbn [runLoop] in Hrun.
    apply runs_bind in Hrun as (flow & tr1 & tr2 & -> & Hstep & Hrest).
    assert (Hnext : forall o' history',
               flow = Continue o' history' -> indexFree history').
    { intros o' history' ->.
      apply runStep_shape in Hstep as (_ & _ & dec0 & _ & _ & new & -> & _ & Hnew).
      apply Forall_app. split; assumption. }
    symmetry in Htr.
    apply app_eq_inv in Htr as [(k & -> & ->) | (k & -> & Htr2)].
    + (* the call is in a later iteration *)
      destruct flow as [o' history'|err].
      * exact (IH task o' history' (step + 1) _ r (Hnext o' history' eq_refl)
                  Hrest k after state dec eq_refl Hname Hfinish).
      * cbn in Hrest. destruct Hrest as [Hnil _]. destruct k; discriminate Hnil.
    + destruct k as [|ob k]; cbn [app] in Htr2.
      * (* the call opens the rest of the run *)
        subst tr2. destruct flow as [o' history'|err].
        -- exact (IH task o' history' (step + 1) _ r (Hnext o' history' eq_refl)
                     Hrest [] after state dec eq_refl Hname Hfinish).
        -- cbn in Hrest. destruct Hrest as [Hnil _]. discriminate Hnil.
      * (* the call is in this iteration *)
        injection Htr2 as <- ->.
        pose proof (runStep_index_click task o history step _ flow Hfree Hstep
                      before k state dec eq_refl Hname Hfinish) as Hhere.
        unfold invokedOrRefused.
        destruct (resolveClickByIndex (Summary state)
                    (blockCaptcha (Summary state) dec)) as [[dec' foundElement]|err].
        -- destruct Hhere as (answer & rest & ->). exists answer, (rest ++ tr2).
           reflexivity.
        -- destruct Hhere as [-> ->]. cbn in Hrest. destruct Hrest as [-> ->].
           split; reflexivity.
Qed.

(** C3 (defect of the code).  The guard never stops a decision
    [click_by_index].  Its limit for this action is 2, and it counts the
    history items whose action is [click_by_index]; but [Run] records the
    action it invoked, and a click by index is invoked as [click_selector],
    [click_role] or (on a captcha page) [request_user_input].  So in every
    run of [Run], whatever came before, each decision [click_by_index] of
    the planner is followed by the invocation of the decision it resolves
    to, unless its index does not resolve and [Run] returns the error of
    the resolution: the error "too many repeated actions" is never the
    answer to such a decision. *)
Theorem click_by_index_is_never_stopped (o : Orchestrator) (task : string)
    (tr : list (Obs E)) (r : option error)
    (before after : list (Obs E)) (state : State) (dec : Decision) :
  runs (Run o task) tr r ->
  tr = before ++ Observe (Next state) (inl dec) :: after ->
  ActionName dec = "click_by_index" -> Finish dec = false ->
  invokedOrRefused state dec after r
  /\ (forall (history : list HistoryItem) (input : gmap string any),
         indexFree history ->
         repeatLimit history "click_by_index" = 2
         /\ tooManyRepeats history "click_by_index" input
                           (repeatLimit history "click_by_index") = false)
  /\ (forall (history : list HistoryItem) (input : gmap string any),
         (forall it, In it history -> Action it = "click_selector") ->
         tooManyRepeats history "click_by_index" input 2 = false).
Proof.
  intros Hrun Htr Hname Hfinish. split; [|split].
  - exact (runLoop_index_click _ task o [] 1 tr r (List.Forall_nil _) Hrun
             before after state dec Htr Hname Hfinish).
  - intros history input. apply guard_passes.
  - intros history input Hclicks.
    apply (guard_passes history input).
    apply Forall_forall. intros it Hin.
    rewrite (Hclicks it (proj1 (list_elem_of_In _ _) Hin)). discriminate.
Qed.

End IndexClicks.

(** Three times the same decision: each of the three clicks by index is
    invoked. *)
Lemma threeClicks_runs :
  runs (agent.Run (lib := Examples.asciiLib) (env := Examples.scriptedEnv)
          Examples.orchestrator "submit the form")
       Scenarios.threeClicks None.
Proof.
  cbn. repeat (eexists; eexists; split; [reflexivity|]; cbn).
  split; reflexivity.
Defined.

Lemma click_by_index_is_never_stopped_witness :
  runs (agent.Run (lib := Examples.asciiLib) (env := Examples.scriptedEnv)
          Examples.orchestrator "submit the form")
       Scenarios.threeClicks None
  /\ agent.History (agent.mkState "submit the form" 3
                      [Scenarios.clickedItem; Scenarios.clickedItem]
                      Scenarios.formWithSubmit [])
     = [Scenarios.clickedItem; Scenarios.clickedItem]
  /\ invokedOrRefused (lib := Examples.asciiLib)
       (agent.mkState "submit the form" 3
          [Scenarios.clickedItem; Scenarios.clickedItem]
          Scenarios.formWithSubmit [])
       Examples.clickThird
       (Scenarios.clickInvoked 3 ++ Scenarios.finishOnForm) None.
Proof.
  split; [exact threeClicks_runs|]. split; [reflexivity|].
  exact (proj1 (click_by_index_is_never_stopped (lib := Examples.asciiLib)
                  (env := Examples.scriptedEnv)
                  Examples.orchestrator "submit the form"
                  Scenarios.threeClicks None _ _ _ _
                  threeClicks_runs eq_refl eq_refl eq_refl)).
Defined.
